(** * A simulated storage stack: virtual disk, bitmap + indexed file system,
      LRU buffer cache.

    Shallow embedding of [filesystem.py] and [buffer.py].  Python integers
    are [Z]; [bytes] and [bytearray] values are lists of [Z] in [0, 256);
    [str] values are lists of Unicode code points.  Python methods that
    mutate [self] are state transformers that may raise: the state reached
    when an exception escapes is part of the result, since the mutations
    made before the exception stay in the object. *)

From Stdlib Require Import ZArith Lia Bool Btauto.
From stdpp Require Import base list numbers.

Open Scope Z_scope.

(** ** Exceptions and the state-and-exception monad *)

Inductive exn : Type :=
| StructError          (* struct.error *)
| OSError              (* OSError: [Errno 22] Invalid argument (negative seek) *)
| ValueError           (* ValueError: cannot fit 'int' into an offset-sized integer *)
| UnicodeEncodeError   (* surrogates not allowed *)
| IndexError           (* sequence index out of range *)
| KeyError.            (* missing dict key *)

Inductive outcome (S A : Type) : Type :=
| Ret (a : A) (s : S)
| Raise (e : exn) (s : S).
Arguments Ret {S A} a s.
Arguments Raise {S A} e s.

Definition M (S A : Type) : Type := S -> outcome S A.

Definition ret {S A} (a : A) : M S A := fun s => Ret a s.
Definition raise {S A} (e : exn) : M S A := fun s => Raise e s.
Definition bind {S A B} (m : M S A) (k : A -> M S B) : M S B :=
  fun s => match m s with
           | Ret a s' => k a s'
           | Raise e s' => Raise e s'
           end.
Definition get {S} : M S S := fun s => Ret s s.
Definition gets {S A} (f : S -> A) : M S A := fun s => Ret (f s) s.
Definition put {S} (s : S) : M S unit := fun _ => Ret tt s.
Definition modify {S} (f : S -> S) : M S unit := fun s => Ret tt (f s).

Declare Scope monad_scope.
Delimit Scope monad_scope with monad.
Notation "x <- m ;; k" := (bind m (fun x => k))
  (at level 100, m at next level, right associativity) : monad_scope.
Notation "m ;; k" := (bind m (fun _ => k))
  (at level 100, right associativity) : monad_scope.
Open Scope monad_scope.

(** A computation without state of its own: pure code that may raise. *)
Definition result (A : Type) : Type := outcome unit A.
Definition ok {A} (a : A) : result A := Ret a tt.
Definition err {A} (e : exn) : result A := Raise e tt.
Definition rbind {A B} (r : result A) (k : A -> result B) : result B :=
  match r with
  | Ret a _ => k a
  | Raise e _ => Raise e tt
  end.
Definition lift_result {S A} (r : result A) : M S A :=
  fun s => match r with
           | Ret a _ => Ret a s
           | Raise e _ => Raise e s
           end.

(** Running a method of a sub-object stored in a field of the state. *)
Definition zoom {S T A} (proj : S -> T) (upd : T -> S -> S) (m : M T A) : M S A :=
  fun s => match m (proj s) with
           | Ret a t => Ret a (upd t s)
           | Raise e t => Raise e (upd t s)
           end.

(** [try: m  except Exception: handler]; every exception of the model is
    an [Exception].  The mutations made before the exception stay. *)
Definition try_except {S A} (m : M S A) (handler : exn -> M S A) : M S A :=
  fun s => match m s with
           | Ret a s' => Ret a s'
           | Raise e s' => handler e s'
           end.

(** [for x in xs: body(x)] *)
Fixpoint for_each {S A} (xs : list A) (body : A -> M S unit) : M S unit :=
  match xs with
  | [] => ret tt
  | x :: xs' => body x ;; for_each xs' body
  end.

(** ** Byte strings *)

Abbreviation byte := Z (only parsing).
Abbreviation bytes := (list Z) (only parsing).

Definition len {A} (l : list A) : Z := Z.of_nat (length l).

(** [data[a:b]] for non-negative [a], [b]. *)
Definition slice {A} (a b : Z) (l : list A) : list A :=
  take (Z.to_nat (b - a)) (drop (Z.to_nat a) l).

(** [data[:n]] for any integer [n]: a negative [n] counts from the end. *)
Definition slice_to {A} (n : Z) (l : list A) : list A :=
  if n <? 0 then take (Z.to_nat (len l + n)) l else take (Z.to_nat n) l.

(** [data.ljust(n, b'\x00')] *)
Definition ljust (n : Z) (l : bytes) : bytes :=
  l ++ replicate (Z.to_nat (n - len l)) 0.

(** [data.rstrip(b'\x00')] *)
Fixpoint rstrip0 (l : bytes) : bytes :=
  match l with
  | [] => []
  | b :: l' =>
      match rstrip0 l' with
      | [] => if b =? 0 then [] else [b]
      | r => b :: r
      end
  end.

(** [range(a, b)] *)
Fixpoint range_from (a : Z) (n : nat) : list Z :=
  match n with
  | O => []
  | S n' => a :: range_from (a + 1) n'
  end.

Definition range (a b : Z) : list Z := range_from a (Z.to_nat (b - a)).

(** ** struct.pack / struct.unpack, little-endian standard sizes *)

Module Struct.

(** ['<B'] *)
Definition pack_B (v : Z) : result bytes :=
  if (0 <=? v) && (v <=? 255) then ok [v] else err StructError.

(** ['<I'] *)
Definition pack_I (v : Z) : result bytes :=
  if (0 <=? v) && (v <? 2 ^ 32)
  then ok [v mod 256; (v / 2 ^ 8) mod 256; (v / 2 ^ 16) mod 256; (v / 2 ^ 24) mod 256]
  else err StructError.

(** ['<h'] *)
Definition pack_h (v : Z) : result bytes :=
  if (- 2 ^ 15 <=? v) && (v <? 2 ^ 15)
  then ok [v mod 256; (v / 2 ^ 8) mod 256]
  else err StructError.

(** ['<i'] *)
Definition pack_i (v : Z) : result bytes :=
  if (- 2 ^ 31 <=? v) && (v <? 2 ^ 31)
  then ok [v mod 256; (v / 2 ^ 8) mod 256; (v / 2 ^ 16) mod 256; (v / 2 ^ 24) mod 256]
  else err StructError.

Definition unpack_I (d : bytes) : result Z :=
  match d with
  | [b0; b1; b2; b3] => ok (b0 + 2 ^ 8 * b1 + 2 ^ 16 * b2 + 2 ^ 24 * b3)
  | _ => err StructError
  end.

Definition unpack_h (d : bytes) : result Z :=
  match d with
  | [b0; b1] =>
      let u := b0 + 2 ^ 8 * b1 in
      ok (if u <? 2 ^ 15 then u else u - 2 ^ 16)
  | _ => err StructError
  end.

Definition unpack_i (d : bytes) : result Z :=
  match d with
  | [b0; b1; b2; b3] =>
      let u := b0 + 2 ^ 8 * b1 + 2 ^ 16 * b2 + 2 ^ 24 * b3 in
      ok (if u <? 2 ^ 31 then u else u - 2 ^ 32)
  | _ => err StructError
  end.

(** [struct.pack('<' + fmt * n, *vs)] for a one-letter [fmt]: the number
    of arguments must be exactly [n]. *)
Fixpoint pack_each (p : Z -> result bytes) (vs : list Z) : result bytes :=
  match vs with
  | [] => ok []
  | v :: vs' =>
      rbind (p v) (fun b => rbind (pack_each p vs') (fun bs => ok (b ++ bs)))
  end.

Definition pack_n (p : Z -> result bytes) (n : nat) (vs : list Z) : result bytes :=
  if decide (length vs = n) then pack_each p vs else err StructError.

(** [struct.unpack('<' + fmt * n, d)] for a one-letter [fmt] of [w] bytes:
    the buffer must hold exactly [n * w] bytes. *)
Fixpoint unpack_each (u : bytes -> result Z) (w n : nat) (d : bytes) : result (list Z) :=
  match n with
  | O => ok []
  | S n' =>
      rbind (u (take w d)) (fun v =>
      rbind (unpack_each u w n' (drop w d)) (fun vs => ok (v :: vs)))
  end.

Definition unpack_n (u : bytes -> result Z) (w n : nat) (d : bytes) : result (list Z) :=
  if decide (length d = (n * w)%nat) then unpack_each u w n d else err StructError.

End Struct.

Notation "x <~ r ;; k" := (rbind r (fun x => k))
  (at level 100, r at next level, right associativity) : monad_scope.

(** [l[i]] for a non-negative index [i]. *)
Definition getitem {A} (l : list A) (i : Z) : result A :=
  match l !! Z.to_nat i with
  | Some x => ok x
  | None => err IndexError
  end.

(** ** Strings and UTF-8

    A [str] is a list of code points.  [encode] is [s.encode('utf-8')],
    which rejects surrogates; [decode_ignore] is
    [b.decode('utf-8', errors='ignore')].  The decoder drops the offending
    lead byte and resumes at the next byte; since a continuation byte is
    never a valid lead byte, this yields the same string as dropping the
    whole ill-formed prefix at once. *)

Abbreviation str := (list Z) (only parsing).

Module Utf8.

Definition encode_cp (c : Z) : result bytes :=
  if c <? 0 then err UnicodeEncodeError
  else if c <? 0x80 then ok [c]
  else if c <? 0x800 then ok [0xC0 + c / 64; 0x80 + c mod 64]
  else if c <? 0x10000 then
    if (0xD800 <=? c) && (c <=? 0xDFFF) then err UnicodeEncodeError
    else ok [0xE0 + c / 4096; 0x80 + (c / 64) mod 64; 0x80 + c mod 64]
  else if c <? 0x110000 then
    ok [0xF0 + c / 262144; 0x80 + (c / 4096) mod 64;
        0x80 + (c / 64) mod 64; 0x80 + c mod 64]
  else err UnicodeEncodeError.

Fixpoint encode (s : str) : result bytes :=
  match s with
  | [] => ok []
  | c :: s' =>
      b <~ encode_cp c ;;
      bs <~ encode s' ;;
      ok (b ++ bs)
  end.

Definition between (lo hi b : Z) : bool := (lo <=? b) && (b <=? hi).
Definition is_cont (b : Z) : bool := between 0x80 0xBF b.

Fixpoint decode_ignore (d : bytes) : str :=
  match d with
  | [] => []
  | b0 :: r0 =>
      if between 0 0x7F b0 then b0 :: decode_ignore r0
      else if between 0xC2 0xDF b0 then
        match r0 with
        | b1 :: r1 =>
            if is_cont b1
            then ((b0 - 0xC0) * 64 + (b1 - 0x80)) :: decode_ignore r1
            else decode_ignore r0
        | _ => decode_ignore r0
        end
      else if between 0xE0 0xEF b0 then
        match r0 with
        | b1 :: b2 :: r2 =>
            if between (if b0 =? 0xE0 then 0xA0 else 0x80)
                       (if b0 =? 0xED then 0x9F else 0xBF) b1
               && is_cont b2
            then ((b0 - 0xE0) * 4096 + (b1 - 0x80) * 64 + (b2 - 0x80))
                 :: decode_ignore r2
            else decode_ignore r0
        | _ => decode_ignore r0
        end
      else if between 0xF0 0xF4 b0 then
        match r0 with
        | b1 :: b2 :: b3 :: r3 =>
            if between (if b0 =? 0xF0 then 0x90 else 0x80)
                       (if b0 =? 0xF4 then 0x8F else 0xBF) b1
               && is_cont b2 && is_cont b3
            then ((b0 - 0xF0) * 262144 + (b1 - 0x80) * 4096
                  + (b2 - 0x80) * 64 + (b3 - 0x80))
                 :: decode_ignore r3
            else decode_ignore r0
        | _ => decode_ignore r0
        end
      else decode_ignore r0
  end.

End Utf8.

(** ** Constants of [filesystem.py] *)

Definition BLOCK_SIZE : Z := 64.
Definition TOTAL_BLOCKS : Z := 1024.
Definition SUPERBLOCK_START : Z := 0.
Definition BITMAP_START : Z := 1.
Definition INODE_START : Z := 3.
Definition DATA_START : Z := 35.
Definition MAX_INODES : Z := 32.
Definition MAX_FILENAME : Z := 20.
Definition DIRECT_BLOCKS : Z := 10.
Definition PERMISSION_WRITE : Z := 2.     (* Permission.WRITE.value = 0b010 *)

(** ** INode

    [create_time] and [modify_time] hold readings of [time.time()]; the
    model keeps them as integer clock readings, [0] standing for the
    default [0.0]. *)

Record INode : Type := mkINode {
  inode_id : Z;
  filename : str;
  file_size : Z;
  create_time : Z;
  modify_time : Z;
  permission : Z;
  is_used : bool;
  is_directory : bool;
  ref_count : Z;
  direct_blocks : list Z;
  indirect_block : Z
}.

(** [INode(inode_id=i)]: every other field at its dataclass default. *)
Definition INode_new (i : Z) : INode :=
  {| inode_id := i; filename := []; file_size := 0;
     create_time := 0; modify_time := 0; permission := 6;
     is_used := false; is_directory := false; ref_count := 0;
     direct_blocks := replicate (Z.to_nat DIRECT_BLOCKS) (-1);
     indirect_block := -1 |}.

Module INodeCodec.

Definition flags_of (self : INode) : Z :=
  let flags := 0 in
  let flags := if is_used self then Z.lor flags 0x80 else flags in
  let flags := if is_directory self then Z.lor flags 0x40 else flags in
  let flags := Z.lor flags (Z.shiftl (Z.land (permission self) 0x07) 3) in
  let flags := Z.lor flags (Z.land (ref_count self) 0x07) in
  flags.

(** The loop of [to_bytes] over [range(DIRECT_BLOCKS)]. *)
Fixpoint pack_direct (self : INode) (idxs : list Z) (data : bytes) : result bytes :=
  match idxs with
  | [] => ok data
  | i :: idxs' =>
      let block_num :=
        if i <? len (direct_blocks self)
        then default (-1) (direct_blocks self !! Z.to_nat i)
        else -1 in
      b <~ Struct.pack_h block_num ;;
      pack_direct self idxs' (data ++ b)
  end.

Definition to_bytes (self : INode) : result bytes :=
  enc <~ Utf8.encode (filename self) ;;
  let name_bytes := ljust MAX_FILENAME (slice 0 MAX_FILENAME enc) in
  let flags := flags_of self in
  data <~ Struct.pack_B (inode_id self) ;;
  let data := data ++ name_bytes in
  fs <~ Struct.pack_I (file_size self) ;;
  let data := data ++ fs in
  fl <~ Struct.pack_B flags ;;
  let data := data ++ fl in
  data <~ pack_direct self (range 0 DIRECT_BLOCKS) data ;;
  ib <~ Struct.pack_h (indirect_block self) ;;
  let data := data ++ ib in
  let data := ljust 64 data in
  ok (slice 0 64 data).

(** The loop of [from_bytes] over [range(DIRECT_BLOCKS)], threading
    [offset] and the list built so far. *)
Fixpoint unpack_direct (data : bytes) (n : nat) (offset : Z) (acc : list Z)
  : result (list Z * Z) :=
  match n with
  | O => ok (acc, offset)
  | S n' =>
      block_num <~ Struct.unpack_h (slice offset (offset + 2) data) ;;
      unpack_direct data n' (offset + 2) (acc ++ [block_num])
  end.

Definition from_bytes (data : bytes) (slot : Z) : INode :=
  if len data <? 64 then INode_new slot
  else
    let body : result INode :=
      id_byte <~ getitem data 0 ;;
      let filename := Utf8.decode_ignore (rstrip0 (slice 1 21 data)) in
      file_size <~ Struct.unpack_I (slice 21 25 data) ;;
      flags <~ getitem data 25 ;;
      let is_used := negb (Z.land flags 0x80 =? 0) in
      let is_directory := negb (Z.land flags 0x40 =? 0) in
      let permission := Z.land (Z.shiftr flags 3) 0x07 in
      let ref_count := Z.land flags 0x07 in
      parsed <~ unpack_direct data (Z.to_nat DIRECT_BLOCKS) 26 [] ;;
      let '(direct_blocks, offset) := parsed in
      indirect_block <~ Struct.unpack_h (slice offset (offset + 2) data) ;;
      ok {| inode_id := if id_byte =? slot then id_byte else slot;
            filename := filename; file_size := file_size;
            create_time := 0; modify_time := 0;
            permission := permission; is_used := is_used;
            is_directory := is_directory; ref_count := ref_count;
            direct_blocks := direct_blocks;
            indirect_block := indirect_block |} in
    match body with
    | Ret inode _ => inode
    | Raise _ _ => INode_new slot
    end.

End INodeCodec.

(** ** VirtualDisk

    The state of a [VirtualDisk] is its backing file, which is taken to
    exist.  [create_disk] writes [BLOCK_SIZE * TOTAL_BLOCKS] bytes and
    every later access reads or writes [BLOCK_SIZE] bytes at an offset that
    is a multiple of [BLOCK_SIZE], so the file is kept as the sequence of
    its [BLOCK_SIZE]-byte blocks, the last of which is short when the size
    of the file is no multiple of [BLOCK_SIZE].  [seek] on the buffered
    file object raises [ValueError] for an offset that does not fit a
    signed 64-bit integer and [OSError] for any other negative offset; the
    file system is taken to accept every offset that is left (one with a
    smaller maximum file size raises [OSError] above it).  A read past the
    end of the file returns no bytes; a write past the end fills the gap
    with zero bytes. *)

Abbreviation disk_file := (list (list Z)) (only parsing).

Module VirtualDisk.

Definition zero_block : bytes := replicate (Z.to_nat BLOCK_SIZE) 0.

Definition seek (pos : Z) : result Z :=
  if (pos <? - 2 ^ 63) || (2 ^ 63 <=? pos) then err ValueError
  else if pos <? 0 then err OSError
  else ok pos.

(** [f.read(BLOCK_SIZE)] at offset [pos = k * BLOCK_SIZE]. *)
Definition file_read (f : disk_file) (pos : Z) : bytes :=
  default [] (f !! Z.to_nat (pos / BLOCK_SIZE)).

(** [f.write(data)] at offset [pos = k * BLOCK_SIZE], [data] one block.
    Past the end of the file the bytes up to [pos] become zero: a short
    last block is filled up and whole zero blocks follow it. *)
Definition file_write (f : disk_file) (pos : Z) (data : bytes) : disk_file :=
  let k := Z.to_nat (pos / BLOCK_SIZE) in
  if decide (k < length f)%nat
  then <[k := data]> f
  else (ljust BLOCK_SIZE <$> f) ++ replicate (k - length f) zero_block ++ [data].

Definition create_disk : M disk_file unit :=
  put (replicate (Z.to_nat TOTAL_BLOCKS) zero_block).

Definition read_block (block_num : Z) : M disk_file bytes :=
  pos <- lift_result (seek (block_num * BLOCK_SIZE)) ;;
  f <- get ;;
  ret (file_read f pos).

Definition write_block (block_num : Z) (data : bytes) : M disk_file unit :=
  let data := ljust BLOCK_SIZE (slice 0 BLOCK_SIZE data) in
  pos <- lift_result (seek (block_num * BLOCK_SIZE)) ;;
  modify (fun f => file_write f pos data).

Fixpoint read_blocks_from (block_nums : list Z) (data : bytes) : M disk_file bytes :=
  match block_nums with
  | [] => ret data
  | num :: rest =>
      if num >=? 0
      then (d <- read_block num ;; read_blocks_from rest (data ++ d))
      else read_blocks_from rest data
  end.

Definition read_blocks (block_nums : list Z) : M disk_file bytes :=
  read_blocks_from block_nums [].

End VirtualDisk.

(** ** SuperBlock *)

Record SuperBlock : Type := mkSuperBlock {
  magic : Z;
  sb_total_blocks : Z;
  block_size : Z;
  free_blocks : Z;
  free_inodes : Z;
  inode_count : Z;
  data_start : Z
}.

Definition SuperBlock_new : SuperBlock :=
  {| magic := 0x4F534653; sb_total_blocks := TOTAL_BLOCKS;
     block_size := BLOCK_SIZE; free_blocks := TOTAL_BLOCKS - DATA_START;
     free_inodes := MAX_INODES; inode_count := MAX_INODES;
     data_start := DATA_START |}.

Definition SuperBlock_to_bytes (self : SuperBlock) : result bytes :=
  data <~ Struct.pack_n Struct.pack_I 7
            [magic self; sb_total_blocks self; block_size self;
             free_blocks self; free_inodes self; inode_count self;
             data_start self] ;;
  ok (ljust BLOCK_SIZE data).

(** [SuperBlock.from_bytes]: [struct.unpack] yields seven values, one
    per field. *)
Definition SuperBlock_from_bytes (data : bytes) : result SuperBlock :=
  values <~ Struct.unpack_n Struct.unpack_I 4 7 (slice 0 28 data) ;;
  match values with
  | [m; tb; bs; fb; fi; ic; ds] =>
      ok {| magic := m; sb_total_blocks := tb; block_size := bs;
            free_blocks := fb; free_inodes := fi; inode_count := ic;
            data_start := ds |}
  | _ => err StructError
  end.

(** ** Bitmap *)

Record Bitmap : Type := mkBitmap {
  total_blocks : Z;
  bits : list Z
}.

Module BitmapOps.

Definition store_bits (byte_idx : Z) (v : Z) : M Bitmap unit :=
  modify (fun self =>
    {| total_blocks := total_blocks self;
       bits := <[Z.to_nat byte_idx := v]> (bits self) |}).

Definition load_bits (byte_idx : Z) : M Bitmap Z :=
  self <- get ;;
  lift_result (getitem (bits self) byte_idx).

Definition set_used (block_num : Z) : M Bitmap unit :=
  self <- get ;;
  if (0 <=? block_num) && (block_num <? total_blocks self) then
    let byte_idx := block_num / 8 in
    let bit_idx := block_num mod 8 in
    b <- load_bits byte_idx ;;
    store_bits byte_idx (Z.lor b (Z.shiftl 1 bit_idx))
  else ret tt.

Definition set_free (block_num : Z) : M Bitmap unit :=
  self <- get ;;
  if (0 <=? block_num) && (block_num <? total_blocks self) then
    let byte_idx := block_num / 8 in
    let bit_idx := block_num mod 8 in
    b <- load_bits byte_idx ;;
    store_bits byte_idx (Z.land b (Z.lnot (Z.shiftl 1 bit_idx)))
  else ret tt.

Definition is_free (block_num : Z) : M Bitmap bool :=
  self <- get ;;
  if (0 <=? block_num) && (block_num <? total_blocks self) then
    let byte_idx := block_num / 8 in
    let bit_idx := block_num mod 8 in
    b <- load_bits byte_idx ;;
    ret (Z.land b (Z.shiftl 1 bit_idx) =? 0)
  else ret false.

(** The scan of [allocate_block], returning at the first free block. *)
Fixpoint allocate_scan (candidates : list Z) : M Bitmap Z :=
  match candidates with
  | [] => ret (-1)
  | i :: rest =>
      free <- is_free i ;;
      if free then (set_used i ;; ret i) else allocate_scan rest
  end.

Definition allocate_block : M Bitmap Z :=
  self <- get ;;
  allocate_scan (range DATA_START (total_blocks self)).

(** The loop of [allocate_blocks]: [n] rounds left, [blocks] taken so far. *)
Fixpoint allocate_loop (n : nat) (blocks : list Z) : M Bitmap (list Z) :=
  match n with
  | O => ret blocks
  | S n' =>
      block <- allocate_block ;;
      if block =? -1
      then (for_each blocks set_free ;; ret [])
      else allocate_loop n' (blocks ++ [block])
  end.

Definition allocate_blocks (count : Z) : M Bitmap (list Z) :=
  allocate_loop (Z.to_nat count) [].

Fixpoint count_free (candidates : list Z) (count : Z) : M Bitmap Z :=
  match candidates with
  | [] => ret count
  | i :: rest =>
      free <- is_free i ;;
      count_free rest (if free then count + 1 else count)
  end.

Definition free_blocks_count : M Bitmap Z :=
  self <- get ;;
  count_free (range DATA_START (total_blocks self)) 0.

Definition to_bytes (self : Bitmap) : bytes := bits self.

(** [Bitmap(total_blocks)] *)
Definition init (total : Z) : M Bitmap unit :=
  put {| total_blocks := total;
         bits := replicate (Z.to_nat ((total + 7) / 8)) 0 |} ;;
  for_each (range 0 DATA_START) set_used.

(** [Bitmap.from_bytes(data, total)]: a new [Bitmap(total)] whose bits
    are then replaced. *)
Definition from_bytes (data : bytes) (total : Z) : result Bitmap :=
  let build :=
    init total ;;
    modify (fun self =>
      {| total_blocks := total_blocks self;
         bits := slice 0 (len (bits self)) data |}) in
  match build {| total_blocks := total; bits := [] |} with
  | Ret _ bitmap => ok bitmap
  | Raise e _ => err e
  end.

End BitmapOps.

(** ** IndexBlock *)

Module IndexBlock.

(** [IndexBlock().indices] *)
Definition empty : list Z := replicate 16 (-1).

(** [indices[:k] = xs] for a non-negative [k]. *)
Definition assign_prefix (k : Z) (xs indices : list Z) : list Z :=
  xs ++ drop (Z.to_nat k) indices.

Definition to_bytes (indices : list Z) : result bytes :=
  Struct.pack_n Struct.pack_i 16 indices.

Definition from_bytes (data : bytes) : result (list Z) :=
  Struct.unpack_n Struct.unpack_i 4 16 (slice 0 64 data).

End IndexBlock.

(** ** FileSystem

    [inodes] is the dict [{0: INode, ..., 31: INode}] built in key order by
    [format_disk]: a list whose position is the key, iterated in that
    order.  A reference to an inode object is its key.  [clock] is the
    reading the next call of [time.time()] returns. *)

Inductive msg : Type :=
| MsgExists (name : str)            (* file already exists *)
| MsgINodeFull                      (* inode table full *)
| MsgNoSpace                        (* create: insufficient space *)
| MsgCreated (name : str) (n : Z)   (* created, n blocks *)
| MsgNotFound (name : str)          (* no such file *)
| MsgNoWritePermission              (* write bit unset *)
| MsgBusy (name : str)              (* write: file in use *)
| MsgDiskNoSpace                    (* write: insufficient disk space *)
| MsgWritten (name : str) (size n : Z)
| MsgBusyDelete (name : str)        (* delete: file in use, cannot delete *)
| MsgDeleted (name : str).

(** Messages of [read_file], [read_block_content], [modify_block_content]. *)
Inductive io_msg : Type :=
| IoNotFound (name : str)                 (* no such file *)
| IoReadOk                                (* read succeeded *)
| IoIndexRange (index last : Z)           (* read: block index out of range (0-last) *)
| IoBlockRead (block_num : Z)             (* block read *)
| IoNoWritePermission                     (* write bit unset *)
| IoIndexOutOfRange (index : Z)           (* modify: block index out of range *)
| IoBlockModified (block_num size : Z).   (* block modified, file size *)

Record FileSystem : Type := mkFileSystem {
  disk : disk_file;
  superblock : SuperBlock;
  bitmap : Bitmap;
  inodes : list INode;
  clock : Z
}.

Module FS.

Definition set_disk (d : disk_file) (self : FileSystem) : FileSystem :=
  {| disk := d; superblock := superblock self; bitmap := bitmap self;
     inodes := inodes self; clock := clock self |}.
Definition set_superblock (sb : SuperBlock) (self : FileSystem) : FileSystem :=
  {| disk := disk self; superblock := sb; bitmap := bitmap self;
     inodes := inodes self; clock := clock self |}.
Definition set_bitmap (b : Bitmap) (self : FileSystem) : FileSystem :=
  {| disk := disk self; superblock := superblock self; bitmap := b;
     inodes := inodes self; clock := clock self |}.
Definition set_inodes (l : list INode) (self : FileSystem) : FileSystem :=
  {| disk := disk self; superblock := superblock self; bitmap := bitmap self;
     inodes := l; clock := clock self |}.
Definition set_clock (c : Z) (self : FileSystem) : FileSystem :=
  {| disk := disk self; superblock := superblock self; bitmap := bitmap self;
     inodes := inodes self; clock := c |}.

Definition on_disk {A} (m : M disk_file A) : M FileSystem A := zoom disk set_disk m.
Definition on_bitmap {A} (m : M Bitmap A) : M FileSystem A := zoom bitmap set_bitmap m.

(** [time.time()] *)
Definition time_time : M FileSystem Z :=
  self <- get ;;
  put (set_clock (clock self + 1) self) ;;
  ret (clock self).

(** [self.inodes[i]] *)
Definition inode_at (i : nat) : M FileSystem INode :=
  self <- get ;;
  match inodes self !! i with
  | Some inode => ret inode
  | None => raise KeyError
  end.

(** Attribute assignment through a reference to [self.inodes[i]]. *)
Definition update_inode (i : nat) (f : INode -> INode) : M FileSystem unit :=
  modify (fun self => set_inodes (alter f i (inodes self)) self).

Definition update_superblock (f : SuperBlock -> SuperBlock) : M FileSystem unit :=
  modify (fun self => set_superblock (f (superblock self)) self).

Definition with_inode_id v (n : INode) : INode :=
  {| inode_id := v; filename := filename n; file_size := file_size n;
     create_time := create_time n; modify_time := modify_time n;
     permission := permission n; is_used := is_used n;
     is_directory := is_directory n; ref_count := ref_count n;
     direct_blocks := direct_blocks n; indirect_block := indirect_block n |}.
Definition with_filename v (n : INode) : INode :=
  {| inode_id := inode_id n; filename := v; file_size := file_size n;
     create_time := create_time n; modify_time := modify_time n;
     permission := permission n; is_used := is_used n;
     is_directory := is_directory n; ref_count := ref_count n;
     direct_blocks := direct_blocks n; indirect_block := indirect_block n |}.
Definition with_file_size v (n : INode) : INode :=
  {| inode_id := inode_id n; filename := filename n; file_size := v;
     create_time := create_time n; modify_time := modify_time n;
     permission := permission n; is_used := is_used n;
     is_directory := is_directory n; ref_count := ref_count n;
     direct_blocks := direct_blocks n; indirect_block := indirect_block n |}.
Definition with_create_time v (n : INode) : INode :=
  {| inode_id := inode_id n; filename := filename n; file_size := file_size n;
     create_time := v; modify_time := modify_time n;
     permission := permission n; is_used := is_used n;
     is_directory := is_directory n; ref_count := ref_count n;
     direct_blocks := direct_blocks n; indirect_block := indirect_block n |}.
Definition with_modify_time v (n : INode) : INode :=
  {| inode_id := inode_id n; filename := filename n; file_size := file_size n;
     create_time := create_time n; modify_time := v;
     permission := permission n; is_used := is_used n;
     is_directory := is_directory n; ref_count := ref_count n;
     direct_blocks := direct_blocks n; indirect_block := indirect_block n |}.
Definition with_permission v (n : INode) : INode :=
  {| inode_id := inode_id n; filename := filename n; file_size := file_size n;
     create_time := create_time n; modify_time := modify_time n;
     permission := v; is_used := is_used n;
     is_directory := is_directory n; ref_count := ref_count n;
     direct_blocks := direct_blocks n; indirect_block := indirect_block n |}.
Definition with_is_used v (n : INode) : INode :=
  {| inode_id := inode_id n; filename := filename n; file_size := file_size n;
     create_time := create_time n; modify_time := modify_time n;
     permission := permission n; is_used := v;
     is_directory := is_directory n; ref_count := ref_count n;
     direct_blocks := direct_blocks n; indirect_block := indirect_block n |}.
Definition with_ref_count v (n : INode) : INode :=
  {| inode_id := inode_id n; filename := filename n; file_size := file_size n;
     create_time := create_time n; modify_time := modify_time n;
     permission := permission n; is_used := is_used n;
     is_directory := is_directory n; ref_count := v;
     direct_blocks := direct_blocks n; indirect_block := indirect_block n |}.
Definition with_direct_blocks v (n : INode) : INode :=
  {| inode_id := inode_id n; filename := filename n; file_size := file_size n;
     create_time := create_time n; modify_time := modify_time n;
     permission := permission n; is_used := is_used n;
     is_directory := is_directory n; ref_count := ref_count n;
     direct_blocks := v; indirect_block := indirect_block n |}.
Definition with_indirect_block v (n : INode) : INode :=
  {| inode_id := inode_id n; filename := filename n; file_size := file_size n;
     create_time := create_time n; modify_time := modify_time n;
     permission := permission n; is_used := is_used n;
     is_directory := is_directory n; ref_count := ref_count n;
     direct_blocks := direct_blocks n; indirect_block := v |}.

(** [FileSystem()] before [format_disk]: no disk content and no inodes.
    [superblock] and [bitmap] are unset there; [format_disk] assigns
    both before anything reads them. *)
Definition new (now : Z) : FileSystem :=
  {| disk := []; superblock := SuperBlock_new;
     bitmap := {| total_blocks := 0; bits := [] |};
     inodes := []; clock := now |}.

Definition _save_inodes : M FileSystem unit :=
  for_each (range 0 MAX_INODES) (fun i =>
    self <- get ;;
    match inodes self !! Z.to_nat i with
    | Some inode =>
        let block_idx := INODE_START + i in
        inode_bytes <- lift_result (INodeCodec.to_bytes inode) ;;
        on_disk (VirtualDisk.write_block block_idx inode_bytes)
    | None => ret tt
    end).

(** [_load_inodes]: the dict is rebuilt in key order from the inode
    blocks. *)
Definition _load_inodes : M FileSystem unit :=
  modify (set_inodes []) ;;
  for_each (range 0 MAX_INODES) (fun i =>
    let block_idx := INODE_START + i in
    block_data <- on_disk (VirtualDisk.read_block block_idx) ;;
    let inode := INodeCodec.from_bytes block_data i in
    modify (fun self => set_inodes (inodes self ++ [inode]) self)).

Definition _save_bitmap : M FileSystem unit :=
  self <- get ;;
  let bitmap_data := BitmapOps.to_bytes (bitmap self) in
  for_each (range 0 2) (fun i =>
    let start := i * BLOCK_SIZE in
    let end_ := start + BLOCK_SIZE in
    on_disk (VirtualDisk.write_block (BITMAP_START + i) (slice start end_ bitmap_data))).

Definition save_superblock : M FileSystem unit :=
  self <- get ;;
  sb <- lift_result (SuperBlock_to_bytes (superblock self)) ;;
  on_disk (VirtualDisk.write_block SUPERBLOCK_START sb).

(** The last three statements of create, write and delete. *)
Definition save_metadata : M FileSystem unit :=
  _save_inodes ;;
  _save_bitmap ;;
  n <- on_bitmap BitmapOps.free_blocks_count ;;
  update_superblock (fun sb =>
    {| magic := magic sb; sb_total_blocks := sb_total_blocks sb;
       block_size := block_size sb; free_blocks := n;
       free_inodes := free_inodes sb; inode_count := inode_count sb;
       data_start := data_start sb |}) ;;
  save_superblock.

Definition add_free_inodes (d : Z) : M FileSystem unit :=
  update_superblock (fun sb =>
    {| magic := magic sb; sb_total_blocks := sb_total_blocks sb;
       block_size := block_size sb; free_blocks := free_blocks sb;
       free_inodes := free_inodes sb + d; inode_count := inode_count sb;
       data_start := data_start sb |}).

Definition format_disk : M FileSystem unit :=
  on_disk VirtualDisk.create_disk ;;
  modify (set_superblock SuperBlock_new) ;;
  save_superblock ;;
  on_bitmap (BitmapOps.init TOTAL_BLOCKS) ;;
  _save_bitmap ;;
  modify (set_inodes (map INode_new (range 0 MAX_INODES))) ;;
  _save_inodes ;;
  _ <- on_bitmap BitmapOps.free_blocks_count ;;
  ret tt.

(** The scan of [_allocate_inode]; the inode returned is named by its key. *)
Fixpoint allocate_inode_scan (candidates : list Z) : M FileSystem (option nat) :=
  match candidates with
  | [] => ret None
  | i :: rest =>
      inode <- inode_at (Z.to_nat i) ;;
      if negb (is_used inode) then
        update_inode (Z.to_nat i) (with_is_used true) ;;
        update_inode (Z.to_nat i) (with_inode_id i) ;;
        t1 <- time_time ;;
        update_inode (Z.to_nat i) (with_create_time t1) ;;
        t2 <- time_time ;;
        update_inode (Z.to_nat i) (with_modify_time t2) ;;
        add_free_inodes (-1) ;;
        ret (Some (Z.to_nat i))
      else allocate_inode_scan rest
  end.

Definition _allocate_inode : M FileSystem (option nat) :=
  allocate_inode_scan (range 0 MAX_INODES).

Definition name_matches (name : str) (inode : INode) : bool :=
  is_used inode && bool_decide (filename inode = name).

(** [_find_inode]: the key of the first used inode carrying the name. *)
Definition _find_inode (name : str) : M FileSystem (option nat) :=
  self <- get ;;
  ret (fst <$> list_find (fun inode => name_matches name inode = true) (inodes self)).

(** [enumerate(l)] *)
Definition enumerate {A} (l : list A) : list (Z * A) :=
  imap (fun i x => (Z.of_nat i, x)) l.

(** The ordered block list of a file: the direct entries that are set,
    then the index-block entries that are set. *)
Definition resolve_blocks (inode : INode) : M FileSystem (list Z) :=
  let blocks := filter (fun b => b >= 0) (direct_blocks inode) in
  if indirect_block inode >=? 0 then
    idx_data <- on_disk (VirtualDisk.read_block (indirect_block inode)) ;;
    indices <- lift_result (IndexBlock.from_bytes idx_data) ;;
    ret (blocks ++ filter (fun b => b >= 0) indices)
  else ret blocks.

Definition write_content (pad : bool) (content : bytes) (all_blocks : list Z)
  : M FileSystem unit :=
  for_each (enumerate all_blocks) (fun '(i, block_num) =>
    let start := i * BLOCK_SIZE in
    let end_ := start + BLOCK_SIZE in
    let block_data := slice start end_ content in
    let block_data := if pad then ljust BLOCK_SIZE block_data else block_data in
    on_disk (VirtualDisk.write_block block_num block_data)).

Definition blocks_for (content : bytes) : Z :=
  let n := (len content + BLOCK_SIZE - 1) / BLOCK_SIZE in
  if n =? 0 then 1 else n.

Definition pad_direct (blocks : list Z) : list Z :=
  take (Z.to_nat DIRECT_BLOCKS) blocks
    ++ replicate (Z.to_nat (Z.max 0 (DIRECT_BLOCKS - len blocks))) (-1).

Definition write_index_block (i : nat) (indices : list Z) : M FileSystem unit :=
  idx_bytes <- lift_result (IndexBlock.to_bytes indices) ;;
  inode <- inode_at i ;;
  on_disk (VirtualDisk.write_block (indirect_block inode) idx_bytes).

(** The block allocation of [create_file] for the inode of key [inode]:
    [inl] is the result of an early [return], [inr] is [all_blocks]. *)
Definition create_allocate (inode : nat) (blocks_needed : Z)
  : M FileSystem (bool * msg + list Z) :=
  if blocks_needed >? DIRECT_BLOCKS + 1 then
    data_blocks <- on_bitmap (BitmapOps.allocate_blocks DIRECT_BLOCKS) ;;
    if len data_blocks <? DIRECT_BLOCKS then ret (inl (false, MsgNoSpace))
    else
      indirect_block <- on_bitmap BitmapOps.allocate_block ;;
      if indirect_block =? -1 then
        on_bitmap (for_each data_blocks BitmapOps.set_free) ;;
        ret (inl (false, MsgNoSpace))
      else
        extra_blocks <- on_bitmap
          (BitmapOps.allocate_blocks (blocks_needed - DIRECT_BLOCKS - 1)) ;;
        if len extra_blocks <? blocks_needed - DIRECT_BLOCKS - 1 then
          on_bitmap (for_each (data_blocks ++ [indirect_block]) BitmapOps.set_free) ;;
          ret (inl (false, MsgNoSpace))
        else
          update_inode inode (with_direct_blocks data_blocks) ;;
          update_inode inode (with_indirect_block indirect_block) ;;
          let indices :=
            IndexBlock.assign_prefix (len extra_blocks) extra_blocks IndexBlock.empty in
          idx_bytes <- lift_result (IndexBlock.to_bytes indices) ;;
          on_disk (VirtualDisk.write_block indirect_block idx_bytes) ;;
          ret (inr (data_blocks ++ extra_blocks))
  else
    data_blocks <- on_bitmap (BitmapOps.allocate_blocks blocks_needed) ;;
    if len data_blocks <? blocks_needed then ret (inl (false, MsgNoSpace))
    else
      update_inode inode (with_direct_blocks
        (data_blocks ++ replicate (Z.to_nat (DIRECT_BLOCKS - len data_blocks)) (-1))) ;;
      ret (inr data_blocks).

Definition create_file (name : str) (content : bytes) (perm : Z)
  : M FileSystem (bool * msg) :=
  self <- get ;;
  if existsb (name_matches name) (inodes self) then ret (false, MsgExists name)
  else
    allocated <- _allocate_inode ;;
    match allocated with
    | None => ret (false, MsgINodeFull)
    | Some inode =>
        let blocks_needed := blocks_for content in
        let blocks_needed :=
          if blocks_needed >? DIRECT_BLOCKS then blocks_needed + 1 else blocks_needed in
        alloc <- create_allocate inode blocks_needed ;;
        match alloc with
        | inl early => ret early
        | inr all_blocks =>
            write_content false content all_blocks ;;
            update_inode inode (with_filename (take (Z.to_nat MAX_FILENAME) name)) ;;
            update_inode inode (with_file_size (len content)) ;;
            update_inode inode (with_permission perm) ;;
            update_inode inode (with_ref_count 0) ;;
            save_metadata ;;
            ret (true, MsgCreated name (len all_blocks))
        end
    end.

(** The shrink-or-keep branch of [write_file]. *)
Definition write_shrink (i : nat) (new_blocks_needed : Z) (old_blocks : list Z)
    (old_indirect_block : Z) : M FileSystem (list Z) :=
  let blocks_to_use := take (Z.to_nat new_blocks_needed) old_blocks in
  let blocks_to_free := drop (Z.to_nat new_blocks_needed) old_blocks in
  on_bitmap (for_each blocks_to_free BitmapOps.set_free) ;;
  (if (new_blocks_needed <=? DIRECT_BLOCKS) && (old_indirect_block >=? 0) then
     on_bitmap (BitmapOps.set_free old_indirect_block) ;;
     update_inode i (with_indirect_block (-1))
   else ret tt) ;;
  update_inode i (with_direct_blocks (pad_direct blocks_to_use)) ;;
  (if new_blocks_needed >? DIRECT_BLOCKS then
     write_index_block i
       (IndexBlock.assign_prefix (len blocks_to_use - DIRECT_BLOCKS)
          (drop (Z.to_nat DIRECT_BLOCKS) blocks_to_use) IndexBlock.empty)
   else ret tt) ;;
  ret blocks_to_use.

(** The grow branch of [write_file]. *)
Definition write_grow (i : nat) (new_blocks_needed : Z) (old_blocks : list Z)
    (old_indirect_block : Z) : M FileSystem (bool * msg + list Z) :=
  let extra_needed := new_blocks_needed - len old_blocks in
  let need_new_indirect :=
    (new_blocks_needed >? DIRECT_BLOCKS) && (old_indirect_block <? 0) in
  let extra_needed := if need_new_indirect then extra_needed + 1 else extra_needed in
  new_blocks <- on_bitmap (BitmapOps.allocate_blocks extra_needed) ;;
  if len new_blocks <? extra_needed then
    on_bitmap (for_each new_blocks BitmapOps.set_free) ;;
    ret (inl (false, MsgDiskNoSpace))
  else
    new_blocks <-
      (if need_new_indirect then
         match new_blocks with
         | first :: rest => update_inode i (with_indirect_block first) ;; ret rest
         | [] => raise IndexError
         end
       else ret new_blocks) ;;
    let all_blocks := old_blocks ++ new_blocks in
    update_inode i (with_direct_blocks (pad_direct all_blocks)) ;;
    (if new_blocks_needed >? DIRECT_BLOCKS then
       let extra_indices := drop (Z.to_nat DIRECT_BLOCKS) all_blocks in
       write_index_block i
         (IndexBlock.assign_prefix (len extra_indices) extra_indices IndexBlock.empty)
     else ret tt) ;;
    ret (inr all_blocks).

Definition write_file (name : str) (content : bytes) : M FileSystem (bool * msg) :=
  found <- _find_inode name ;;
  match found with
  | None => ret (false, MsgNotFound name)
  | Some i =>
      inode <- inode_at i ;;
      if Z.land (permission inode) PERMISSION_WRITE =? 0
      then ret (false, MsgNoWritePermission)
      else if ref_count inode >? 0 then ret (false, MsgBusy name)
      else
        let new_blocks_needed := blocks_for content in
        old_blocks <- resolve_blocks inode ;;
        let old_indirect_block := indirect_block inode in
        alloc <-
          (if new_blocks_needed <=? len old_blocks then
             blocks <- write_shrink i new_blocks_needed old_blocks old_indirect_block ;;
             ret (inr blocks)
           else write_grow i new_blocks_needed old_blocks old_indirect_block) ;;
        match alloc with
        | inl early => ret early
        | inr all_blocks =>
            write_content true content all_blocks ;;
            update_inode i (with_file_size (len content)) ;;
            t <- time_time ;;
            update_inode i (with_modify_time t) ;;
            save_metadata ;;
            ret (true, MsgWritten name (len content) (len all_blocks))
        end
  end.

Definition free_if_set (b : Z) : M Bitmap unit :=
  if b >=? 0 then BitmapOps.set_free b else ret tt.

Definition delete_file (name : str) : M FileSystem (bool * msg) :=
  found <- _find_inode name ;;
  match found with
  | None => ret (false, MsgNotFound name)
  | Some i =>
      inode <- inode_at i ;;
      if ref_count inode >? 0 then ret (false, MsgBusyDelete name)
      else
        on_bitmap (for_each (direct_blocks inode) free_if_set) ;;
        (if indirect_block inode >=? 0 then
           idx_data <- on_disk (VirtualDisk.read_block (indirect_block inode)) ;;
           indices <- lift_result (IndexBlock.from_bytes idx_data) ;;
           on_bitmap (for_each indices free_if_set) ;;
           on_bitmap (BitmapOps.set_free (indirect_block inode))
         else ret tt) ;;
        update_inode i (with_is_used false) ;;
        update_inode i (with_filename []) ;;
        update_inode i (with_file_size 0) ;;
        update_inode i (with_direct_blocks (replicate (Z.to_nat DIRECT_BLOCKS) (-1))) ;;
        update_inode i (with_indirect_block (-1)) ;;
        update_inode i (with_ref_count 0) ;;
        add_free_inodes 1 ;;
        save_metadata ;;
        ret (true, MsgDeleted name)
  end.

Definition acquire_file (name : str) : M FileSystem bool :=
  found <- _find_inode name ;;
  match found with
  | Some i =>
      inode <- inode_at i ;;
      update_inode i (with_ref_count (ref_count inode + 1)) ;;
      _save_inodes ;;
      ret true
  | None => ret false
  end.

Definition release_file (name : str) : M FileSystem bool :=
  found <- _find_inode name ;;
  match found with
  | Some i =>
      inode <- inode_at i ;;
      if ref_count inode >? 0 then
        update_inode i (with_ref_count (ref_count inode - 1)) ;;
        _save_inodes ;;
        ret true
      else ret false
  | None => ret false
  end.

(** The ['blocks'] entry [list_directory] computes for a file: the set
    direct entries, the set index entries, and the index block itself. *)
Definition allocated_blocks (inode : INode) : M FileSystem Z :=
  let blocks := len (filter (fun b => b >= 0) (direct_blocks inode)) in
  if indirect_block inode >=? 0 then
    idx_data <- on_disk (VirtualDisk.read_block (indirect_block inode)) ;;
    indices <- lift_result (IndexBlock.from_bytes idx_data) ;;
    ret (blocks + len (filter (fun b => b >= 0) indices) + 1)
  else ret blocks.

Definition read_file (name : str) : M FileSystem (option bytes * io_msg) :=
  found <- _find_inode name ;;
  match found with
  | None => ret (None, IoNotFound name)
  | Some i =>
      inode <- inode_at i ;;
      all_blocks <- resolve_blocks inode ;;
      content <- on_disk (VirtualDisk.read_blocks all_blocks) ;;
      ret (Some (slice_to (file_size inode) content), IoReadOk)
  end.

Definition read_block_content (name : str) (block_index : Z)
  : M FileSystem (option bytes * io_msg) :=
  found <- _find_inode name ;;
  match found with
  | None => ret (None, IoNotFound name)
  | Some i =>
      inode <- inode_at i ;;
      all_blocks <- resolve_blocks inode ;;
      if (block_index <? 0) || (block_index >=? len all_blocks)
      then ret (None, IoIndexRange block_index (len all_blocks - 1))
      else
        block_num <- lift_result (getitem all_blocks block_index) ;;
        content <- on_disk (VirtualDisk.read_block block_num) ;;
        ret (Some content, IoBlockRead block_num)
  end.

Definition modify_block_content (name : str) (block_index : Z) (new_content : bytes)
  : M FileSystem (bool * io_msg) :=
  found <- _find_inode name ;;
  match found with
  | None => ret (false, IoNotFound name)
  | Some i =>
      inode <- inode_at i ;;
      if Z.land (permission inode) PERMISSION_WRITE =? 0
      then ret (false, IoNoWritePermission)
      else
        all_blocks <- resolve_blocks inode ;;
        if (block_index <? 0) || (block_index >=? len all_blocks)
        then ret (false, IoIndexOutOfRange block_index)
        else
          block_num <- lift_result (getitem all_blocks block_index) ;;
          let padded_content := ljust BLOCK_SIZE (slice 0 BLOCK_SIZE new_content) in
          on_disk (VirtualDisk.write_block block_num padded_content) ;;
          let new_potential_size := block_index * BLOCK_SIZE + len new_content in
          (if new_potential_size >? file_size inode
           then update_inode i (with_file_size new_potential_size)
           else ret tt) ;;
          t <- time_time ;;
          update_inode i (with_modify_time t) ;;
          _save_inodes ;;
          inode <- inode_at i ;;
          ret (true, IoBlockModified block_num (file_size inode))
  end.

(** The loop of [mount] that reads the bitmap blocks. *)
Fixpoint read_bitmap_blocks (idxs : list Z) (bitmap_data : bytes) : M FileSystem bytes :=
  match idxs with
  | [] => ret bitmap_data
  | i :: rest =>
      d <- on_disk (VirtualDisk.read_block (BITMAP_START + i)) ;;
      read_bitmap_blocks rest (bitmap_data ++ d)
  end.

(** [mount]; [disk_exists] is the answer of [self.disk.exists()]. *)
Definition mount (disk_exists : bool) : M FileSystem bool :=
  if negb disk_exists then format_disk ;; ret true
  else
    try_except
      (sb_data <- on_disk (VirtualDisk.read_block SUPERBLOCK_START) ;;
       sb <- lift_result (SuperBlock_from_bytes sb_data) ;;
       modify (set_superblock sb) ;;
       if negb (magic sb =? 0x4F534653) then format_disk ;; ret true
       else
         bitmap_data <- read_bitmap_blocks (range 0 2) [] ;;
         loaded <- lift_result (BitmapOps.from_bytes bitmap_data TOTAL_BLOCKS) ;;
         modify (set_bitmap loaded) ;;
         _load_inodes ;;
         _ <- on_bitmap BitmapOps.free_blocks_count ;;
         ret true)
      (fun _ => ret false).

End FS.

(** ** BufferManager

    [pages] is the dict [{0: BufferPage, ..., n-1: BufferPage}] built by
    the constructor: a list whose position is the key.  [lru_order] is the
    key sequence of the [OrderedDict], oldest first.  [fs_disk] is the
    backing file of [self.fs.disk].  The visualisation callbacks are unset
    and the simulated delays have no effect on the state. *)

Module Buffer.

Definition BUFFER_SIZE : Z := 16.

Record BufferPage : Type := mkBufferPage {
  page_id : Z;
  block_num : Z;
  filename : str;
  data : bytes;
  is_dirty : bool;
  is_valid : bool;
  owner_pid : Z;
  access_time : Z;
  load_time : Z;
  access_count : Z
}.

(** [BufferPage(page_id=i)] *)
Definition BufferPage_new (i : Z) : BufferPage :=
  {| page_id := i; block_num := -1; filename := [];
     data := replicate (Z.to_nat BLOCK_SIZE) 0;
     is_dirty := false; is_valid := false; owner_pid := -1;
     access_time := 0; load_time := 0; access_count := 0 |}.

Record BufferManager : Type := mkBufferManager {
  buffer_size : Z;
  pages : list BufferPage;
  lru_order : list nat;
  hit_count : Z;
  miss_count : Z;
  writeback_count : Z;
  fs_disk : disk_file;
  clock : Z
}.

Definition set_pages v (s : BufferManager) : BufferManager :=
  {| buffer_size := buffer_size s; pages := v; lru_order := lru_order s;
     hit_count := hit_count s; miss_count := miss_count s;
     writeback_count := writeback_count s; fs_disk := fs_disk s; clock := clock s |}.
Definition set_lru_order v (s : BufferManager) : BufferManager :=
  {| buffer_size := buffer_size s; pages := pages s; lru_order := v;
     hit_count := hit_count s; miss_count := miss_count s;
     writeback_count := writeback_count s; fs_disk := fs_disk s; clock := clock s |}.
Definition set_hit_count v (s : BufferManager) : BufferManager :=
  {| buffer_size := buffer_size s; pages := pages s; lru_order := lru_order s;
     hit_count := v; miss_count := miss_count s;
     writeback_count := writeback_count s; fs_disk := fs_disk s; clock := clock s |}.
Definition set_miss_count v (s : BufferManager) : BufferManager :=
  {| buffer_size := buffer_size s; pages := pages s; lru_order := lru_order s;
     hit_count := hit_count s; miss_count := v;
     writeback_count := writeback_count s; fs_disk := fs_disk s; clock := clock s |}.
Definition set_writeback_count v (s : BufferManager) : BufferManager :=
  {| buffer_size := buffer_size s; pages := pages s; lru_order := lru_order s;
     hit_count := hit_count s; miss_count := miss_count s;
     writeback_count := v; fs_disk := fs_disk s; clock := clock s |}.
Definition set_fs_disk v (s : BufferManager) : BufferManager :=
  {| buffer_size := buffer_size s; pages := pages s; lru_order := lru_order s;
     hit_count := hit_count s; miss_count := miss_count s;
     writeback_count := writeback_count s; fs_disk := v; clock := clock s |}.
Definition set_clock v (s : BufferManager) : BufferManager :=
  {| buffer_size := buffer_size s; pages := pages s; lru_order := lru_order s;
     hit_count := hit_count s; miss_count := miss_count s;
     writeback_count := writeback_count s; fs_disk := fs_disk s; clock := v |}.

Definition with_block_num v (p : BufferPage) : BufferPage :=
  {| page_id := page_id p; block_num := v; filename := filename p; data := data p;
     is_dirty := is_dirty p; is_valid := is_valid p; owner_pid := owner_pid p;
     access_time := access_time p; load_time := load_time p;
     access_count := access_count p |}.
Definition with_filename v (p : BufferPage) : BufferPage :=
  {| page_id := page_id p; block_num := block_num p; filename := v; data := data p;
     is_dirty := is_dirty p; is_valid := is_valid p; owner_pid := owner_pid p;
     access_time := access_time p; load_time := load_time p;
     access_count := access_count p |}.
Definition with_data v (p : BufferPage) : BufferPage :=
  {| page_id := page_id p; block_num := block_num p; filename := filename p; data := v;
     is_dirty := is_dirty p; is_valid := is_valid p; owner_pid := owner_pid p;
     access_time := access_time p; load_time := load_time p;
     access_count := access_count p |}.
Definition with_is_dirty v (p : BufferPage) : BufferPage :=
  {| page_id := page_id p; block_num := block_num p; filename := filename p;
     data := data p; is_dirty := v; is_valid := is_valid p; owner_pid := owner_pid p;
     access_time := access_time p; load_time := load_time p;
     access_count := access_count p |}.
Definition with_is_valid v (p : BufferPage) : BufferPage :=
  {| page_id := page_id p; block_num := block_num p; filename := filename p;
     data := data p; is_dirty := is_dirty p; is_valid := v; owner_pid := owner_pid p;
     access_time := access_time p; load_time := load_time p;
     access_count := access_count p |}.
Definition with_owner_pid v (p : BufferPage) : BufferPage :=
  {| page_id := page_id p; block_num := block_num p; filename := filename p;
     data := data p; is_dirty := is_dirty p; is_valid := is_valid p; owner_pid := v;
     access_time := access_time p; load_time := load_time p;
     access_count := access_count p |}.
Definition with_access_time v (p : BufferPage) : BufferPage :=
  {| page_id := page_id p; block_num := block_num p; filename := filename p;
     data := data p; is_dirty := is_dirty p; is_valid := is_valid p;
     owner_pid := owner_pid p; access_time := v; load_time := load_time p;
     access_count := access_count p |}.
Definition with_load_time v (p : BufferPage) : BufferPage :=
  {| page_id := page_id p; block_num := block_num p; filename := filename p;
     data := data p; is_dirty := is_dirty p; is_valid := is_valid p;
     owner_pid := owner_pid p; access_time := access_time p; load_time := v;
     access_count := access_count p |}.
Definition with_access_count v (p : BufferPage) : BufferPage :=
  {| page_id := page_id p; block_num := block_num p; filename := filename p;
     data := data p; is_dirty := is_dirty p; is_valid := is_valid p;
     owner_pid := owner_pid p; access_time := access_time p;
     load_time := load_time p; access_count := v |}.

(** [BufferManager(fs, buffer_size)] over the disk content [d]. *)
Definition new (d : disk_file) (size : Z) (now : Z) : BufferManager :=
  {| buffer_size := size;
     pages := map BufferPage_new (range 0 size);
     lru_order := [];
     hit_count := 0; miss_count := 0; writeback_count := 0;
     fs_disk := d; clock := now |}.

Definition on_disk {A} (m : M disk_file A) : M BufferManager A :=
  zoom fs_disk set_fs_disk m.

Definition time_time : M BufferManager Z :=
  self <- get ;;
  put (set_clock (clock self + 1) self) ;;
  ret (clock self).

(** [self.pages[page_id]] *)
Definition page_at (i : nat) : M BufferManager BufferPage :=
  self <- get ;;
  match pages self !! i with
  | Some page => ret page
  | None => raise KeyError
  end.

(** Attribute assignment through a reference to [self.pages[i]]. *)
Definition update_page (i : nat) (f : BufferPage -> BufferPage) : M BufferManager unit :=
  modify (fun self => set_pages (alter f i (pages self)) self).

Definition _find_free_page : M BufferManager (option nat) :=
  self <- get ;;
  ret (fst <$> list_find (fun page => is_valid page = false) (pages self)).

Definition _find_lru_page : M BufferManager (option nat) :=
  self <- get ;;
  ret (head (lru_order self)).

Definition remove_key (i : nat) (order : list nat) : list nat :=
  filter (fun k => k <> i) order.

Definition _update_lru (i : nat) : M BufferManager unit :=
  modify (fun self =>
    if bool_decide (i ∈ lru_order self)
    then set_lru_order (remove_key i (lru_order self) ++ [i]) self
    else set_lru_order (lru_order self ++ [i]) self).

Definition _remove_from_lru (i : nat) : M BufferManager unit :=
  modify (fun self =>
    if bool_decide (i ∈ lru_order self)
    then set_lru_order (remove_key i (lru_order self)) self
    else self).

Definition count_writeback : M BufferManager unit :=
  modify (fun self => set_writeback_count (writeback_count self + 1) self).

Definition _evict_page (i : nat) : M BufferManager bool :=
  page <- page_at i ;;
  if negb (is_valid page) then ret true
  else
    (if is_dirty page then
       on_disk (VirtualDisk.write_block (block_num page) (data page)) ;;
       count_writeback
     else ret tt) ;;
    update_page i (with_is_valid false) ;;
    update_page i (with_is_dirty false) ;;
    update_page i (with_block_num (-1)) ;;
    update_page i (with_filename []) ;;
    update_page i (with_owner_pid (-1)) ;;
    update_page i (with_data (replicate (Z.to_nat BLOCK_SIZE) 0)) ;;
    _remove_from_lru i ;;
    ret true.

Definition caches (name : str) (block : Z) (page : BufferPage) : bool :=
  is_valid page && (block_num page =? block) && bool_decide (filename page = name).

(** The miss path of [load_block]: a free page, else the evicted LRU page. *)
Definition choose_page : M BufferManager (option nat) :=
  free <- _find_free_page ;;
  match free with
  | Some i => ret (Some i)
  | None =>
      lru <- _find_lru_page ;;
      match lru with
      | None => ret None
      | Some i => _evict_page i ;; ret (Some i)
      end
  end.

(** The last step of a miss: read the block into the chosen page [i]. *)
Definition load_into (i : nat) (name : str) (block : Z) (pid : Z)
  : M BufferManager (option nat * bytes) :=
  d <- on_disk (VirtualDisk.read_block block) ;;
  _ <- page_at i ;;
  update_page i (with_block_num block) ;;
  update_page i (with_filename name) ;;
  update_page i (with_data d) ;;
  update_page i (with_is_valid true) ;;
  update_page i (with_is_dirty false) ;;
  update_page i (with_owner_pid pid) ;;
  t1 <- time_time ;;
  update_page i (with_access_time t1) ;;
  t2 <- time_time ;;
  update_page i (with_load_time t2) ;;
  update_page i (with_access_count 1) ;;
  _update_lru i ;;
  ret (Some i, d).

Definition load_block (name : str) (block : Z) (pid : Z)
  : M BufferManager (option nat * bytes) :=
  self <- get ;;
  match list_find (fun page => caches name block page = true) (pages self) with
  | Some (i, page) =>
      modify (fun self => set_hit_count (hit_count self + 1) self) ;;
      t <- time_time ;;
      update_page i (with_access_time t) ;;
      update_page i (with_access_count (access_count page + 1)) ;;
      _update_lru i ;;
      ret (Some i, data page)
  | None =>
      modify (fun self => set_miss_count (miss_count self + 1) self) ;;
      chosen <- choose_page ;;
      match chosen with
      | None => ret (None, [])
      | Some i => load_into i name block pid
      end
  end.

Definition write_block (name : str) (block : Z) (d : bytes) (pid : Z)
  : M BufferManager bool :=
  loaded <- load_block name block pid ;;
  match fst loaded with
  | None => ret false
  | Some i =>
      _ <- page_at i ;;
      update_page i (with_data (ljust BLOCK_SIZE (slice 0 BLOCK_SIZE d))) ;;
      update_page i (with_is_dirty true) ;;
      t <- time_time ;;
      update_page i (with_access_time t) ;;
      ret true
  end.

(** Keys of [self.pages] in iteration order. *)
Definition page_keys (self : BufferManager) : list nat := seq 0 (length (pages self)).

Definition flush_page (i : nat) : M BufferManager unit :=
  page <- page_at i ;;
  on_disk (VirtualDisk.write_block (block_num page) (data page)) ;;
  update_page i (with_is_dirty false) ;;
  count_writeback.

Definition flush_all : M BufferManager unit :=
  self <- get ;;
  for_each (page_keys self) (fun i =>
    page <- page_at i ;;
    if is_valid page && is_dirty page then flush_page i else ret tt).

Definition flush_file (name : str) : M BufferManager unit :=
  self <- get ;;
  for_each (page_keys self) (fun i =>
    page <- page_at i ;;
    if is_valid page && is_dirty page && bool_decide (filename page = name)
    then flush_page i else ret tt).

Definition invalidate_file (name : str) : M BufferManager unit :=
  self <- get ;;
  for_each (page_keys self) (fun i =>
    page <- page_at i ;;
    if is_valid page && bool_decide (filename page = name) then
      (if is_dirty page then
         on_disk (VirtualDisk.write_block (block_num page) (data page)) ;;
         count_writeback
       else ret tt) ;;
      update_page i (with_is_valid false) ;;
      update_page i (with_is_dirty false) ;;
      _remove_from_lru i
    else ret tt).

End Buffer.

(** ** Specification vocabulary for the inode record *)

Module INodeSpec.

(** The inode fields fit the widths of the 64-byte record. *)
Definition fits_record (n : INode) : bool :=
  (0 <=? inode_id n) && (inode_id n <=? 255)
  && match Utf8.encode (filename n) with
     | Ret e _ => len e <=? MAX_FILENAME
     | Raise _ _ => false
     end
  && negb (bool_decide (list.last (filename n) = Some 0))
  && (0 <=? file_size n) && (file_size n <? 2 ^ 32)
  && (0 <=? permission n) && (permission n <=? 7)
  && (0 <=? ref_count n) && (ref_count n <=? 7)
  && bool_decide (length (direct_blocks n) = 10%nat)
  && forallb (fun b => (- 2 ^ 15 <=? b) && (b <? 2 ^ 15)) (direct_blocks n)
  && (- 2 ^ 15 <=? indirect_block n) && (indirect_block n <? 2 ^ 15).

(** What [from_bytes] rebuilds in slot [slot] from the record of [n]. *)
Definition reloaded (slot : Z) (n : INode) : INode :=
  {| inode_id := slot; filename := filename n; file_size := file_size n;
     create_time := 0; modify_time := 0;
     permission := permission n; is_used := is_used n;
     is_directory := is_directory n; ref_count := ref_count n;
     direct_blocks := direct_blocks n; indirect_block := indirect_block n |}.

End INodeSpec.

(** ** Specification vocabulary for the bitmap *)

Module BitmapSpec.

(** The shape [Bitmap()] has for the volume of [TOTAL_BLOCKS] blocks. *)
Definition shaped (b : Bitmap) : bool :=
  (total_blocks b =? TOTAL_BLOCKS) && bool_decide (length (bits b) = 128%nat).

(** The bit of block [n]. *)
Definition used (b : Bitmap) (n : Z) : bool :=
  Z.testbit (default 0 (bits b !! Z.to_nat (n / 8))) (n mod 8).

Definition free (b : Bitmap) (n : Z) : bool :=
  (0 <=? n) && (n <? total_blocks b) && negb (used b n).

Fixpoint count (f : Z -> bool) (l : list Z) : Z :=
  match l with
  | [] => 0
  | x :: l' => (if f x then 1 else 0) + count f l'
  end.

(** Number of free blocks of the data region. *)
Definition free_count (b : Bitmap) : Z :=
  count (free b) (range DATA_START (total_blocks b)).

Definition mark_used (n : Z) (b : Bitmap) : Bitmap :=
  {| total_blocks := total_blocks b;
     bits := alter (fun x => Z.lor x (Z.shiftl 1 (n mod 8))) (Z.to_nat (n / 8)) (bits b) |}.

Definition mark_free (n : Z) (b : Bitmap) : Bitmap :=
  {| total_blocks := total_blocks b;
     bits := alter (fun x => Z.land x (Z.lnot (Z.shiftl 1 (n mod 8))))
               (Z.to_nat (n / 8)) (bits b) |}.

End BitmapSpec.

(** The state an outcome leaves behind, returned or raised. *)
Definition state_of {S A} (o : outcome S A) : S :=
  match o with
  | Ret _ s => s
  | Raise _ s => s
  end.

(** ** Outcomes as predicates

    [wp m Q E s]: run from [s], [m] either returns a value and a state
    satisfying [Q] or raises in a state satisfying [E]. *)
Definition wp {S A} (m : M S A) (Q : A -> S -> Prop) (E : S -> Prop) (s : S) : Prop :=
  match m s with
  | Ret a s' => Q a s'
  | Raise _ s' => E s'
  end.

(** ** Specification vocabulary for the disk *)

Module DiskSpec.

(** A backing file of [TOTAL_BLOCKS] whole blocks. *)
Definition well_formed (f : disk_file) : bool :=
  (len f =? TOTAL_BLOCKS) && forallb (fun b => len b =? BLOCK_SIZE) f.

(** The disk [create_disk] writes. *)
Definition blank : disk_file := replicate (Z.to_nat TOTAL_BLOCKS) VirtualDisk.zero_block.

(** The content of a file of any size, cut into blocks: every block is
    whole but for the last one, which holds at most a block. *)
Fixpoint file_image (f : disk_file) : bool :=
  match f with
  | [] => true
  | [b] => len b <=? BLOCK_SIZE
  | b :: rest => (len b =? BLOCK_SIZE) && file_image rest
  end.

End DiskSpec.

(** ** Scenario volumes *)

Module Scenario.

(** The volume right after [format_disk]. *)
Definition fresh : FileSystem := state_of (FS.format_disk (FS.new 0)).

(** File names used in the scenarios: "big" and "a.txt". *)
Definition name_big : list Z := [98; 105; 103].
Definition name_a : list Z := [97; 46; 116; 120; 116].

End Scenario.

(** ** Specification vocabulary for the buffer pool *)

Module BufferSpec.
Import Buffer.

Inductive op : Type :=
| OpLoad (name : list Z) (block pid : Z)
| OpWrite (name : list Z) (block : Z) (d : list Z) (pid : Z)
| OpFlushAll
| OpFlushFile (name : list Z)
| OpInvalidate (name : list Z).

Definition run (o : op) : M BufferManager unit :=
  match o with
  | OpLoad name block pid => load_block name block pid ;; ret tt
  | OpWrite name block d pid => write_block name block d pid ;; ret tt
  | OpFlushAll => flush_all
  | OpFlushFile name => flush_file name
  | OpInvalidate name => invalidate_file name
  end.

(** The state after an operation, whether it returned or raised. *)
Definition step (o : op) (s : BufferManager) : BufferManager :=
  state_of (run o s).

Inductive reachable : BufferManager -> Prop :=
| reach_new d size now : reachable (new d size now)
| reach_step o s : reachable s -> reachable (step o s).

(** At most one valid page per (filename, block number) pair. *)
Definition unique_mapping (l : list BufferPage) : Prop :=
  forall i j p q,
    l !! i = Some p -> l !! j = Some q ->
    is_valid p = true -> is_valid q = true ->
    filename p = filename q -> block_num p = block_num q ->
    i = j.

(** A page is free, or it is valid and caches the block of one
    non-negative block number; only a valid page can be dirty. *)
Definition page_ok (p : BufferPage) : Prop :=
  (is_valid p = false \/ (is_valid p = true /\ 0 <= block_num p < 2 ^ 57))
  /\ (is_dirty p = true -> is_valid p = true).

Definition pool_ok (l : list BufferPage) : Prop :=
  unique_mapping l /\ Forall page_ok l.

(** The invariant of the buffer manager. *)
Definition Pool (s : BufferManager) : Prop := pool_ok (pages s).

End BufferSpec.

(** ** Specification vocabulary for flushing *)

Module FlushSpec.
Import Buffer BufferSpec.

(** What the loop of [flush_all] maintains while the keys [rem] remain:
    the pool invariant, the pool size, and that only pages still to be
    visited can be dirty. *)
Definition flushing (n : nat) (rem : list nat) (s : BufferManager) : Prop :=
  pool_ok (pages s) /\ length (pages s) = n
  /\ (forall j, j ∈ rem -> (j < n)%nat)
  /\ (forall j p, pages s !! j = Some p -> is_dirty p = true -> j ∈ rem).

End FlushSpec.

(** ** Specification vocabulary for the replacement policy *)

Module LruSpec.
Import Buffer.

(** One access of the scenario: a load, or a write of [data]. *)
Record access : Type := mkAccess {
  a_name : list Z;
  a_block : Z;
  a_data : option (list Z)
}.

Definition perform (pid : Z) (a : access) : M BufferManager unit :=
  match a_data a with
  | None => load_block (a_name a) (a_block a) pid ;; ret tt
  | Some d => write_block (a_name a) (a_block a) d pid ;; ret tt
  end.

Definition key (a : access) : list Z * Z := (a_name a, a_block a).

(** Page [p] caches the block of access [a], dirty exactly when [a]
    wrote, then with the written bytes padded to a block. *)
Definition holds (a : access) (p : BufferPage) : Prop :=
  is_valid p = true /\ filename p = a_name a /\ block_num p = a_block a
  /\ match a_data a with
     | None => is_dirty p = false
     | Some d => is_dirty p = true
                 /\ data p = ljust BLOCK_SIZE (slice 0 BLOCK_SIZE d)
     end.

(** The pool after the accesses [done], one page each in key order, the
    other pages free, over the untouched disk [d]. *)
Definition filled (n : nat) (d : list (list Z)) (done : list access)
    (s : BufferManager) : Prop :=
  length (pages s) = n
  /\ lru_order s = seq 0 (length done)
  /\ fs_disk s = d
  /\ writeback_count s = 0
  /\ (forall i a, done !! i = Some a -> exists p, pages s !! i = Some p /\ holds a p)
  /\ (forall i p, (length done <= i)%nat -> pages s !! i = Some p -> is_valid p = false).

Definition in_range (a : access) : Prop := 0 <= a_block a < 2 ^ 57.

(** Loads of the given blocks of one file. *)
Definition loads (name : list Z) (blocks : list Z) : list access :=
  map (fun b => {| a_name := name; a_block := b; a_data := None |}) blocks.

End LruSpec.

(** ** Specification vocabulary for the file system *)

Module FsSpec.
Import FS.

(** The operations a client of the file system calls. *)
Inductive op : Type :=
| OpCreate (name : list Z) (content : list Z) (perm : Z)
| OpWrite (name : list Z) (content : list Z)
| OpDelete (name : list Z)
| OpAcquire (name : list Z)
| OpRelease (name : list Z).

Definition run (o : op) : M FileSystem unit :=
  match o with
  | OpCreate name content perm => create_file name content perm ;; ret tt
  | OpWrite name content => write_file name content ;; ret tt
  | OpDelete name => delete_file name ;; ret tt
  | OpAcquire name => acquire_file name ;; ret tt
  | OpRelease name => release_file name ;; ret tt
  end.

(** The state an operation leaves, whether it returned or raised. *)
Definition step (o : op) (s : FileSystem) : FileSystem := state_of (run o s).

(** States reached from a formatted volume, or from inodes loaded from
    any disk, by any sequence of operations. *)
Inductive reachable : FileSystem -> Prop :=
| reach_format now : reachable (state_of (format_disk (new now)))
| reach_load s : reachable (state_of (_load_inodes s))
| reach_step o s : reachable s -> reachable (step o s).

Definition ref_counts_ok (s : FileSystem) : Prop :=
  Forall (fun n => 0 <= ref_count n) (inodes s).

(** [m] keeps the reference counts non-negative, returning or raising,
    and a returned value satisfies [P]. *)
Definition keeps {A} (m : M FileSystem A) (P : A -> Prop) : Prop :=
  forall s, ref_counts_ok s -> wp m (fun a s' => ref_counts_ok s' /\ P a) ref_counts_ok s.

End FsSpec.

(** ** Specification vocabulary for block allocation *)

Module AllocSpec.
Import BitmapSpec.

(** The bitmap with every block of [l] marked used, resp. free. *)
Definition mark_all (l : list Z) (b : Bitmap) : Bitmap :=
  foldl (fun b x => mark_used x b) b l.

Definition free_all (l : list Z) (b : Bitmap) : Bitmap :=
  foldl (fun b x => mark_free x b) b l.

(** A block number of the data region. *)
Definition in_data (x : Z) : Prop := DATA_START <= x < TOTAL_BLOCKS.

(** [l] can be taken from [b]: distinct free blocks of the data region. *)
Definition takeable (b : Bitmap) (l : list Z) : Prop :=
  NoDup l /\ Forall (fun x => in_data x /\ free b x = true) l.

(** [l] is held in [b]: distinct used blocks of the data region. *)
Definition held (b : Bitmap) (l : list Z) : Prop :=
  NoDup l /\ Forall (fun x => in_data x /\ used b x = true) l.

End AllocSpec.

(** ** Specification vocabulary for the volume *)

Module VolumeSpec.
Import BitmapSpec.

Definition h_range (v : Z) : bool := (- 2 ^ 15 <=? v) && (v <? 2 ^ 15).
Definition I_range (v : Z) : bool := (0 <=? v) && (v <? 2 ^ 32).

(** The fields [INode.to_bytes] packs are in the range of their format. *)
Definition packable (n : INode) : bool :=
  (0 <=? inode_id n) && (inode_id n <=? 255)
  && match Utf8.encode (filename n) with Ret _ _ => true | Raise _ _ => false end
  && I_range (file_size n)
  && forallb h_range (direct_blocks n)
  && h_range (indirect_block n).

(** The fields of the superblock that no operation recomputes before
    packing them. *)
Definition sb_packable (sb : SuperBlock) : bool :=
  I_range (magic sb) && I_range (sb_total_blocks sb) && I_range (block_size sb)
  && I_range (inode_count sb) && I_range (data_start sb).

(** A volume whose metadata can be saved: every inode packs, and the
    bitmap has the shape of the volume. *)
Definition sound (s : FileSystem) : bool :=
  forallb packable (inodes s) && shaped (bitmap s) && sb_packable (superblock s).

Definition sb_set_free_blocks (n : Z) (sb : SuperBlock) : SuperBlock :=
  {| magic := magic sb; sb_total_blocks := sb_total_blocks sb;
     block_size := block_size sb; free_blocks := n;
     free_inodes := free_inodes sb; inode_count := inode_count sb;
     data_start := data_start sb |}.

Definition sb_add_free_inodes (d : Z) (sb : SuperBlock) : SuperBlock :=
  {| magic := magic sb; sb_total_blocks := sb_total_blocks sb;
     block_size := block_size sb; free_blocks := free_blocks sb;
     free_inodes := free_inodes sb + d; inode_count := inode_count sb;
     data_start := data_start sb |}.

(** The disk [d'] has the blocks of [d] from block [k0] on. *)
Definition above (k0 : nat) (d d' : list (list Z)) : Prop :=
  forall k, (k0 <= k)%nat -> d' !! k = d !! k.

(** The inode [_allocate_inode] hands out of the unused inode [n0] of
    key [i] at clock reading [t]. *)
Definition claimed (i : nat) (t : Z) (n0 : INode) : INode :=
  {| inode_id := Z.of_nat i; filename := filename n0; file_size := file_size n0;
     create_time := t; modify_time := t + 1;
     permission := permission n0; is_used := true;
     is_directory := is_directory n0; ref_count := ref_count n0;
     direct_blocks := direct_blocks n0; indirect_block := indirect_block n0 |}.

End VolumeSpec.

(** ** Specification vocabulary for [create_file] *)

Module CreateSpec.

(** The inode [create_file] leaves for a new file in the inode claimed
    from the unused inode [n0] of key [i] at clock reading [t]. *)
Definition created (i : nat) (t : Z) (n0 : INode) (name : list Z) (size perm : Z)
    (direct : list Z) (indirect : Z) : INode :=
  {| inode_id := Z.of_nat i; filename := take (Z.to_nat MAX_FILENAME) name;
     file_size := size; create_time := t; modify_time := t + 1;
     permission := perm; is_used := true;
     is_directory := is_directory n0; ref_count := 0;
     direct_blocks := direct; indirect_block := indirect |}.

(** What [create_file] assigns to the inode after the allocation. *)
Definition finished (name : list Z) (size perm : Z) (n : INode) : INode :=
  FS.with_ref_count 0
    (FS.with_permission perm
       (FS.with_file_size size
          (FS.with_filename (take (Z.to_nat MAX_FILENAME) name) n))).

(** The volume can take a new file called [name] in the unused inode
    [n0] of key [i]. *)
Definition accepts (s : FileSystem) (name : list Z) (i : nat) (n0 : INode) : Prop :=
  VolumeSpec.sound s = true
  /\ 1 <= free_inodes (superblock s) <= 2 ^ 32
  /\ existsb (FS.name_matches name) (inodes s) = false
  /\ list_find (fun n => is_used n = false) (inodes s) = Some (i, n0)
  /\ (i < 32)%nat
  /\ indirect_block n0 = -1
  /\ (exists e, Utf8.encode (take (Z.to_nat MAX_FILENAME) name) = ok e).

End CreateSpec.

(** ** Specification vocabulary for [delete_file] *)

Module DeleteSpec.

(** The blocks a file owns, in the order [delete_file] frees them: the
    direct entries that are set, the entries of the index block that
    are set, and the index block itself. *)
Definition owned (n : INode) (d : list (list Z)) : result (list Z) :=
  let direct := filter (fun b => b >= 0) (direct_blocks n) in
  if indirect_block n >=? 0 then
    indices <~ IndexBlock.from_bytes
                 (VirtualDisk.file_read d (indirect_block n * BLOCK_SIZE)) ;;
    ok (direct ++ filter (fun b => b >= 0) indices ++ [indirect_block n])
  else ok direct.

(** The inode [delete_file] leaves in place of [n]. *)
Definition reset (n : INode) : INode :=
  FS.with_ref_count 0
    (FS.with_indirect_block (-1)
       (FS.with_direct_blocks (replicate (Z.to_nat DIRECT_BLOCKS) (-1))
          (FS.with_file_size 0
             (FS.with_filename [] (FS.with_is_used false n))))).


End DeleteSpec.

(** ** Specification vocabulary for the block codecs *)

Module CodecSpec.

(** The values [SuperBlock.to_bytes] packs, in order. *)
Definition sb_fields (sb : SuperBlock) : list Z :=
  [magic sb; sb_total_blocks sb; block_size sb; free_blocks sb;
   free_inodes sb; inode_count sb; data_start sb].

Definition uint32 (v : Z) : Prop := 0 <= v < 2 ^ 32.
Definition int32 (v : Z) : Prop := - 2 ^ 31 <= v < 2 ^ 31.

(** What [write_block] stores for [data]: one block, cut or padded. *)
Definition padded (data : list Z) : list Z :=
  ljust BLOCK_SIZE (slice 0 BLOCK_SIZE data).

End CodecSpec.

(** ** Specification vocabulary for the metadata on disk *)

Module PersistSpec.

(** The inode table [_load_inodes] builds from the disk [d]. *)
Definition loaded_inodes (d : list (list Z)) : list INode :=
  map (fun i => INodeCodec.from_bytes (default [] (d !! Z.to_nat (INODE_START + i))) i)
      (range 0 MAX_INODES).

(** The block of inode [i] on the disk [d] holds the record of [n]. *)
Definition saved_as (d : list (list Z)) (i : nat) (n : INode) : Prop :=
  exists bs, INodeCodec.to_bytes n = ok bs /\ d !! (3 + i)%nat = Some bs.

(** The inode table as it is read back: ids are the keys, times are
    reset. *)
Definition reloaded_table (l : list INode) : list INode :=
  imap (fun i n => INodeSpec.reloaded (Z.of_nat i) n) l.

(** The metadata region of the disk [d] holds the superblock [sb], the
    bitmap [b] and the inode table [l]. *)
Definition holds_metadata (d : list (list Z)) (sb : SuperBlock) (b : Bitmap)
    (l : list INode) : Prop :=
  (exists bs, SuperBlock_to_bytes sb = ok bs /\ d !! 0%nat = Some bs)
  /\ d !! 1%nat = Some (CodecSpec.padded (slice 0 64 (bits b)))
  /\ d !! 2%nat = Some (CodecSpec.padded (slice 64 128 (bits b)))
  /\ forall i n, (i < 32)%nat -> l !! i = Some n -> saved_as d i n.

(** The magic number [mount] expects. *)
Definition MAGIC : Z := 0x4F534653.

(** The volume every [format_disk] leaves, up to the clock. *)
Definition formatted (now : Z) : FileSystem := FS.set_clock now Scenario.fresh.

End PersistSpec.

(** ** Specification vocabulary for the life of a file *)

Module LifeSpec.

(** The number of blocks [create_file] asks the bitmap for: the blocks
    of the content, and the index block when they exceed the direct
    entries. *)
Definition needed (content : list Z) : Z :=
  let k := FS.blocks_for content in
  if k >? DIRECT_BLOCKS then k + 1 else k.

End LifeSpec.

(** * Byte-string and codec lemmas *)

Ltac zbool :=
  repeat match goal with
  | H : (_ && _) = true |- _ => apply andb_true_iff in H; destruct H
  | H : (_ && _) = false |- _ => apply andb_false_iff in H; destruct H
  | H : (_ <? _) = true |- _ => apply Z.ltb_lt in H
  | H : (_ <? _) = false |- _ => apply Z.ltb_ge in H
  | H : (_ <=? _) = true |- _ => apply Z.leb_le in H
  | H : (_ <=? _) = false |- _ => apply Z.leb_gt in H
  | H : (_ =? _) = true |- _ => apply Z.eqb_eq in H
  | H : (_ =? _) = false |- _ => apply Z.eqb_neq in H
  | H : (_ >? _) = true |- _ => rewrite Z.gtb_ltb in H
  | H : (_ >? _) = false |- _ => rewrite Z.gtb_ltb in H
  | H : (_ >=? _) = true |- _ => rewrite Z.geb_leb in H
  | H : (_ >=? _) = false |- _ => rewrite Z.geb_leb in H
  end.

Ltac zdm := Z.div_mod_to_equations; lia.

Section Utf8Facts.
Import Utf8.

Lemma decode_encode_cp c b rest :
  encode_cp c = ok b -> decode_ignore (b ++ rest) = c :: decode_ignore rest.
Proof.
  unfold encode_cp.
  destruct (c <? 0) eqn:E0; [discriminate|].
  destruct (c <? 128) eqn:E1.
  { intros [= <-]. zbool. cbn [app decode_ignore]. unfold between.
    replace (0 <=? c) with true by (symmetry; apply Z.leb_le; lia).
    replace (c <=? 127) with true by (symmetry; apply Z.leb_le; lia).
    reflexivity. }
  destruct (c <? 2048) eqn:E2.
  { intros [= <-]. zbool. cbn [app decode_ignore]. unfold is_cont, between.
    replace (0 <=? 192 + c / 64) with true by (symmetry; apply Z.leb_le; zdm).
    replace (192 + c / 64 <=? 127) with false by (symmetry; apply Z.leb_gt; zdm).
    replace (194 <=? 192 + c / 64) with true by (symmetry; apply Z.leb_le; zdm).
    replace (192 + c / 64 <=? 223) with true by (symmetry; apply Z.leb_le; zdm).
    replace (128 <=? 128 + c mod 64) with true by (symmetry; apply Z.leb_le; zdm).
    replace (128 + c mod 64 <=? 191) with true by (symmetry; apply Z.leb_le; zdm).
    cbn [andb]. f_equal. zdm. }
  destruct (c <? 65536) eqn:E3.
  { destruct ((55296 <=? c) && (c <=? 57343)) eqn:E4; [discriminate|].
    intros [= <-]. cbn [app decode_ignore]. unfold is_cont, between.
    assert (Hc : 2048 <= c < 65536 /\ (c < 55296 \/ 57343 < c)) by (zbool; lia).
    clear E0 E1 E2 E3 E4.
    replace (0 <=? 224 + c / 4096) with true by (symmetry; apply Z.leb_le; zdm).
    replace (224 + c / 4096 <=? 127) with false by (symmetry; apply Z.leb_gt; zdm).
    replace (194 <=? 224 + c / 4096) with true by (symmetry; apply Z.leb_le; zdm).
    replace (224 + c / 4096 <=? 223) with false by (symmetry; apply Z.leb_gt; zdm).
    replace (224 <=? 224 + c / 4096) with true by (symmetry; apply Z.leb_le; zdm).
    replace (224 + c / 4096 <=? 239) with true by (symmetry; apply Z.leb_le; zdm).
    replace (128 <=? 128 + c mod 64) with true by (symmetry; apply Z.leb_le; zdm).
    replace (128 + c mod 64 <=? 191) with true by (symmetry; apply Z.leb_le; zdm).
    cbn [andb].
    destruct (224 + c / 4096 =? 224) eqn:Ea; destruct (224 + c / 4096 =? 237) eqn:Eb;
      zbool;
      match goal with
      | |- context [(?lo <=? ?x) && (?x <=? ?hi)] =>
          replace (lo <=? x) with true by (symmetry; apply Z.leb_le; zdm);
          replace (x <=? hi) with true by (symmetry; apply Z.leb_le; zdm)
      end; cbn [andb]; f_equal; zdm. }
  destruct (c <? 1114112) eqn:E4; [|discriminate].
  intros [= <-]. cbn [app decode_ignore]. unfold is_cont, between.
  assert (Hc : 65536 <= c < 1114112) by (zbool; lia).
  clear E0 E1 E2 E3 E4.
  replace (0 <=? 240 + c / 262144) with true by (symmetry; apply Z.leb_le; zdm).
  replace (240 + c / 262144 <=? 127) with false by (symmetry; apply Z.leb_gt; zdm).
  replace (194 <=? 240 + c / 262144) with true by (symmetry; apply Z.leb_le; zdm).
  replace (240 + c / 262144 <=? 223) with false by (symmetry; apply Z.leb_gt; zdm).
  replace (224 <=? 240 + c / 262144) with true by (symmetry; apply Z.leb_le; zdm).
  replace (240 + c / 262144 <=? 239) with false by (symmetry; apply Z.leb_gt; zdm).
  replace (240 <=? 240 + c / 262144) with true by (symmetry; apply Z.leb_le; zdm).
  replace (240 + c / 262144 <=? 244) with true by (symmetry; apply Z.leb_le; zdm).
  replace (128 <=? 128 + c mod 64) with true by (symmetry; apply Z.leb_le; zdm).
  replace (128 + c mod 64 <=? 191) with true by (symmetry; apply Z.leb_le; zdm).
  replace (128 <=? 128 + c / 64 mod 64) with true by (symmetry; apply Z.leb_le; zdm).
  replace (128 + c / 64 mod 64 <=? 191) with true by (symmetry; apply Z.leb_le; zdm).
  cbn [andb].
  destruct (240 + c / 262144 =? 240) eqn:Ea; destruct (240 + c / 262144 =? 244) eqn:Eb;
    zbool;
    match goal with
    | |- context [(?lo <=? ?x) && (?x <=? ?hi)] =>
        replace (lo <=? x) with true by (symmetry; apply Z.leb_le; zdm);
        replace (x <=? hi) with true by (symmetry; apply Z.leb_le; zdm)
    end; cbn [andb]; f_equal; zdm.
Qed.
End Utf8Facts.

(** ** Strings *)

Section Utf8String.
Import Utf8.

Lemma decode_encode s e : encode s = ok e -> decode_ignore e = s.
Proof.
  revert e. induction s as [|c s IH]; intros e; cbn [encode].
  - intros [= <-]. reflexivity.
  - destruct (encode_cp c) as [b []|] eqn:Ec; cbn [rbind]; [|discriminate].
    destruct (encode s) as [bs []|] eqn:Es; cbn [rbind]; [|discriminate].
    intros [= <-]. rewrite (decode_encode_cp c b bs Ec). f_equal. auto.
Qed.

Lemma encode_cp_last c b : encode_cp c = ok b -> c <> 0 -> exists b' x, b = b' ++ [x] /\ x <> 0.
Proof.
  unfold encode_cp. intros H Hc.
  repeat match type of H with
  | (if ?g then _ else _) = _ => destruct g eqn:?; try discriminate
  end; injection H as <-; zbool.
  - exists [], c. split; [reflexivity|lia].
  - exists [192 + c / 64], (128 + c mod 64). split; [reflexivity|zdm].
  - exists [224 + c / 4096; 128 + c / 64 mod 64], (128 + c mod 64). split; [reflexivity|zdm].
  - exists [224 + c / 4096; 128 + c / 64 mod 64], (128 + c mod 64). split; [reflexivity|zdm].
  - exists [240 + c / 262144; 128 + c / 4096 mod 64; 128 + c / 64 mod 64], (128 + c mod 64).
    split; [reflexivity|zdm].
Qed.

End Utf8String.

(** ** Slices and padding *)

Section ByteStrings.

Lemma rstrip0_zeros k : rstrip0 (replicate k 0) = [].
Proof. induction k as [|k IH]; cbn; [reflexivity|]. rewrite IH. reflexivity. Qed.

Lemma rstrip0_app_zeros l k : rstrip0 (l ++ replicate k 0) = rstrip0 l.
Proof.
  induction l as [|b l IH]; cbn [app rstrip0].
  - apply rstrip0_zeros.
  - rewrite IH. reflexivity.
Qed.

Lemma rstrip0_last l x : x <> 0 -> rstrip0 (l ++ [x]) = l ++ [x].
Proof.
  intros Hx. induction l as [|b l IH]; cbn [app rstrip0].
  - destruct (x =? 0) eqn:E; [apply Z.eqb_eq in E; lia|reflexivity].
  - rewrite IH. destruct (l ++ [x]) eqn:E; [|reflexivity].
    destruct l; discriminate.
Qed.

Lemma len_app {A} (l1 l2 : list A) : len (l1 ++ l2) = len l1 + len l2.
Proof. unfold len. rewrite length_app. lia. Qed.

Lemma slice_0_ge {A} (n : Z) (l : list A) : len l <= n -> slice 0 n l = l.
Proof.
  intros H. unfold slice. cbn [Z.to_nat drop]. apply take_ge. unfold len in H. lia.
Qed.

Lemma slice_skip {A} (pre rest : list A) a b :
  len pre <= a -> slice a b (pre ++ rest) = slice (a - len pre) (b - len pre) rest.
Proof.
  intros H. unfold slice, len in *.
  replace (b - Z.of_nat (length pre) - (a - Z.of_nat (length pre))) with (b - a) by lia.
  f_equal. replace (Z.to_nat a) with (length pre + Z.to_nat (a - Z.of_nat (length pre)))%nat by lia.
  rewrite <- drop_drop. rewrite drop_app_length. reflexivity.
Qed.

Lemma slice_prefix {A} (pre rest : list A) : slice 0 (len pre) (pre ++ rest) = pre.
Proof.
  unfold slice, len. cbn [Z.to_nat drop]. rewrite Z.sub_0_r, Nat2Z.id.
  apply take_app_length.
Qed.

Lemma len_ljust n l : len l <= n -> len (ljust n l) = n.
Proof. intros H. unfold ljust. rewrite len_app. unfold len in *. rewrite length_replicate. lia. Qed.

End ByteStrings.

(** * The inode record *)

Section INodeRoundTrip.
Import INodeCodec Struct INodeSpec.

Lemma pack_h_ok v :
  - 2 ^ 15 <= v < 2 ^ 15 -> pack_h v = ok [v mod 256; (v / 2 ^ 8) mod 256].
Proof.
  intros H. unfold pack_h.
  replace (- 2 ^ 15 <=? v) with true by (symmetry; apply Z.leb_le; lia).
  replace (v <? 2 ^ 15) with true by (symmetry; apply Z.ltb_lt; lia).
  reflexivity.
Qed.

Lemma unpack_pack_h v :
  - 2 ^ 15 <= v < 2 ^ 15 -> unpack_h [v mod 256; (v / 2 ^ 8) mod 256] = ok v.
Proof.
  intros H. unfold unpack_h. cbv zeta.
  change (2 ^ 8) with 256. change (2 ^ 15) with 32768 in *. change (2 ^ 16) with 65536.
  f_equal. destruct (_ <? _) eqn:E; zbool; zdm.
Qed.

Lemma unpack_pack_I v :
  0 <= v < 2 ^ 32 ->
  unpack_I [v mod 256; (v / 2 ^ 8) mod 256; (v / 2 ^ 16) mod 256; (v / 2 ^ 24) mod 256]
  = ok v.
Proof.
  intros H. unfold unpack_I.
  change (2 ^ 8) with 256. change (2 ^ 16) with 65536. change (2 ^ 24) with 16777216.
  change (2 ^ 32) with 4294967296 in H.
  f_equal. zdm.
Qed.

Lemma small_cases p : 0 <= p <= 7 ->
  p = 0 \/ p = 1 \/ p = 2 \/ p = 3 \/ p = 4 \/ p = 5 \/ p = 6 \/ p = 7.
Proof. lia. Qed.

Lemma flags_roundtrip n :
  0 <= permission n <= 7 -> 0 <= ref_count n <= 7 ->
  let f := flags_of n in
  0 <= f <= 255
  /\ negb (Z.land f 0x80 =? 0) = is_used n
  /\ negb (Z.land f 0x40 =? 0) = is_directory n
  /\ Z.land (Z.shiftr f 3) 0x07 = permission n
  /\ Z.land f 0x07 = ref_count n.
Proof.
  destruct n as [i nm sz ct mt p u d r db ib]. cbn [permission ref_count is_used is_directory].
  intros Hp Hr. unfold flags_of. cbn [permission ref_count is_used is_directory].
  apply small_cases in Hp. apply small_cases in Hr.
  destruct u, d;
    repeat (destruct Hp as [-> | Hp]); try subst p;
    repeat (destruct Hr as [-> | Hr]); try subst r;
    vm_compute; repeat split; congruence.
Qed.

End INodeRoundTrip.

(** ** The name field *)

Section NameField.
Import INodeCodec Struct INodeSpec.

Lemma fits_record_spec n :
  fits_record n = true ->
  0 <= inode_id n <= 255
  /\ (exists e, Utf8.encode (filename n) = ok e /\ len e <= 20)
  /\ list.last (filename n) <> Some 0
  /\ 0 <= file_size n < 2 ^ 32
  /\ 0 <= permission n <= 7
  /\ 0 <= ref_count n <= 7
  /\ length (direct_blocks n) = 10%nat
  /\ Forall (fun b => - 2 ^ 15 <= b < 2 ^ 15) (direct_blocks n)
  /\ - 2 ^ 15 <= indirect_block n < 2 ^ 15.
Proof.
  unfold fits_record. intros H.
  repeat (apply andb_true_iff in H; destruct H as [H ?]).
  destruct (Utf8.encode (filename n)) as [e []|] eqn:Ee; [|discriminate].
  repeat match goal with
  | H : bool_decide _ = true |- _ => apply bool_decide_eq_true in H
  | H : negb (bool_decide _) = true |- _ =>
      apply negb_true_iff, bool_decide_eq_false in H
  | H : forallb _ _ = true |- _ => rewrite forallb_forall, <- Forall_forall in H
  end.
  zbool. unfold MAX_FILENAME in *. split; [lia|]. split; [exists e; split; [reflexivity|assumption]|].
  split; [assumption|]. repeat (split; [lia|]).
  split; [|lia].
  match goal with H : Forall _ _ |- _ => revert H end.
  apply Forall_impl. cbn. intros b Hb.
  apply andb_true_iff in Hb. destruct Hb. zbool. lia.
Qed.

Lemma encode_snoc s c e :
  Utf8.encode (s ++ [c]) = ok e ->
  exists e1 b, Utf8.encode s = ok e1 /\ Utf8.encode_cp c = ok b /\ e = e1 ++ b.
Proof.
  revert e. induction s as [|c' s IH]; intros e; cbn [app Utf8.encode].
  - destruct (Utf8.encode_cp c) as [b []|]; cbn [rbind]; [|discriminate].
    intros [= <-]. exists [], b. rewrite app_nil_r. auto.
  - destruct (Utf8.encode_cp c') as [b' []|]; cbn [rbind]; [|discriminate].
    destruct (Utf8.encode (s ++ [c])) as [bs []|]; cbn [rbind]; [|discriminate].
    intros [= <-]. destruct (IH bs eq_refl) as (e1 & b & -> & Hb & ->).
    cbn [rbind]. exists (b' ++ e1), b. rewrite app_assoc. auto.
Qed.

Lemma rstrip0_encode s e :
  Utf8.encode s = ok e -> list.last s <> Some 0 -> rstrip0 e = e.
Proof.
  destruct s as [|c s _] using rev_ind; intros He Hs.
  - injection He as <-. reflexivity.
  - rewrite list.last_snoc in Hs.
    destruct (encode_snoc s c e He) as (e1 & b & _ & Hb & ->).
    destruct (encode_cp_last c b Hb) as (b' & x & -> & Hx); [congruence|].
    rewrite app_assoc. apply rstrip0_last. assumption.
Qed.

Lemma name_field_roundtrip s e :
  Utf8.encode s = ok e -> len e <= 20 -> list.last s <> Some 0 ->
  Utf8.decode_ignore (rstrip0 (ljust MAX_FILENAME (slice 0 MAX_FILENAME e))) = s.
Proof.
  intros He Hl Hs. rewrite slice_0_ge by (unfold MAX_FILENAME; lia).
  unfold ljust. rewrite rstrip0_app_zeros, (rstrip0_encode s e He Hs).
  apply decode_encode. assumption.
Qed.

End NameField.

(** ** Packing an inode and reading it back *)

Section INodeRecord.
Import INodeCodec Struct INodeSpec.

Lemma pack_B_ok v : 0 <= v <= 255 -> pack_B v = ok [v].
Proof.
  intros H. unfold pack_B.
  replace (0 <=? v) with true by (symmetry; apply Z.leb_le; lia).
  replace (v <=? 255) with true by (symmetry; apply Z.leb_le; lia).
  reflexivity.
Qed.

Lemma pack_I_ok v :
  0 <= v < 2 ^ 32 ->
  pack_I v = ok [v mod 256; (v / 2 ^ 8) mod 256; (v / 2 ^ 16) mod 256; (v / 2 ^ 24) mod 256].
Proof.
  intros H. unfold pack_I.
  replace (0 <=? v) with true by (symmetry; apply Z.leb_le; lia).
  replace (v <? 2 ^ 32) with true by (symmetry; apply Z.ltb_lt; lia).
  reflexivity.
Qed.

(** C3 (as the code has it): an inode whose fields fit the 64-byte
    record (id in one byte, name of at most 20 encoded bytes that does
    not end in NUL, size in 32 bits, permission and reference count in
    three bits each, ten direct entries and the index entry in 16 bits)
    is packed without error, and reading the record back in slot [slot]
    gives the same inode with the id replaced by [slot] and both times
    reset. *)
Theorem inode_roundtrip (n : INode) (slot : Z) :
  fits_record n = true ->
  exists d, to_bytes n = ok d /\ from_bytes d slot = reloaded slot n.
Proof.
  intros Hfit. apply fits_record_spec in Hfit.
  destruct Hfit as (Hid & (e & He & Hle) & Hlast & Hsz & Hp & Hr & Hlen & Hdb & Hib).
  pose proof (flags_roundtrip n Hp Hr) as Hfl. cbv zeta in Hfl.
  destruct Hfl as (Hf & Hu & Hd & Hfp & Hfr).
  pose proof (name_field_roundtrip _ _ He Hle Hlast) as Hname.
  destruct n as [i nm sz ct mt p u d r db ib].
  cbn [inode_id filename file_size permission is_used is_directory ref_count
       direct_blocks indirect_block] in *.
  do 11 (destruct db as [|? db]; try discriminate Hlen). clear Hlen.
  repeat match goal with
  | H : Forall _ (_ :: _) |- _ => inversion_clear H
  end.
  unfold to_bytes, reloaded.
  cbn [inode_id filename file_size permission is_used is_directory ref_count
       direct_blocks indirect_block].
  set (fl := flags_of _) in *.
  rewrite He. cbn [rbind ok]. rewrite (pack_B_ok i Hid). cbn [rbind ok].
  rewrite (pack_I_ok sz Hsz). cbn [rbind ok]. rewrite (pack_B_ok _ Hf). cbn [rbind ok].
  change (range 0 DIRECT_BLOCKS) with [0; 1; 2; 3; 4; 5; 6; 7; 8; 9].
  cbn [pack_direct direct_blocks].
  change (len [z; z0; z1; z2; z3; z4; z5; z6; z7; z8]) with 10.
  cbn [Z.ltb Z.compare Pos.compare Pos.compare_cont].
  repeat match goal with
  | |- context [default ?d (?l !! ?k)] =>
      let v := eval cbv in (default d (l !! k)) in
      change (default d (l !! k)) with v
  end.
  rewrite !pack_h_ok by assumption. cbn [rbind ok app].
  set (name := ljust MAX_FILENAME (slice 0 MAX_FILENAME e)) in *.
  assert (Hn : len name = 20).
  { apply len_ljust. rewrite slice_0_ge; unfold MAX_FILENAME; lia. }
  rewrite <- !app_assoc. cbn [app].
  change (2 ^ 8) with 256 in *. change (2 ^ 16) with 65536 in *.
  change (2 ^ 24) with 16777216 in *.
  pose proof (unpack_pack_I sz Hsz) as HI.
  change (2 ^ 8) with 256 in HI. change (2 ^ 16) with 65536 in HI.
  change (2 ^ 24) with 16777216 in HI.
  repeat match goal with
  | H : - 2 ^ 15 <= ?v < 2 ^ 15 |- _ =>
      apply unpack_pack_h in H; change (2 ^ 8) with 256 in H
  end.
  repeat match goal with
  | |- context [?x `mod` 256] =>
      let v := fresh "byte" in
      generalize dependent (x `mod` 256); intros v
  end.
  match goal with
  | |- context [ljust 64 (i :: name ++ ?l)] =>
      replace (ljust 64 (i :: name ++ l)) with (i :: name ++ l ++ replicate 16 0)
  end.
  2:{ unfold ljust.
      match goal with
      | |- context [Z.to_nat ?k] => replace (Z.to_nat k) with 16%nat
      end.
      - cbn [app]. rewrite <- app_assoc. reflexivity.
      - unfold len in *. cbn [length]. rewrite length_app. cbn [length]. lia. }
  cbn [app replicate].
  match goal with
  | |- context [slice 0 64 ?l] => replace (slice 0 64 l) with l
  end.
  2:{ symmetry. apply slice_0_ge. unfold len. cbn [length]. rewrite length_app.
      unfold len in Hn. cbn [length]. lia. }
  eexists. split; [reflexivity|].
  clearbody name fl.
  assert (Hn' : length name = 20%nat) by (unfold len in Hn; lia).
  match goal with |- from_bytes (i :: name ++ ?l) _ = _ => set (tail := l) end.
  assert (Hslice : forall a b, 21 <= a ->
            slice a b (i :: name ++ tail) = slice (a - 21) (b - 21) tail).
  { intros a b Ha. change (i :: name ++ tail) with ((i :: name) ++ tail).
    rewrite slice_skip; unfold len; cbn [length]; rewrite Hn'; [|lia].
    do 2 f_equal; lia. }
  assert (Hget : getitem (i :: name ++ tail) 25 = ok fl).
  { unfold getitem. change (i :: name ++ tail) with ((i :: name) ++ tail).
    rewrite lookup_app_r; cbn [length]; rewrite Hn'; [|lia].
    reflexivity. }
  assert (Hnm : slice 1 21 (i :: name ++ tail) = name).
  { change (i :: name ++ tail) with ([i] ++ name ++ tail).
    rewrite slice_skip by (unfold len; cbn [length]; lia). change (1 - len [i]) with 0.
    change (21 - len [i]) with 20. rewrite <- Hn. apply slice_prefix. }
  unfold from_bytes.
  replace (len (i :: name ++ tail) <? 64) with false.
  2:{ symmetry. apply Z.ltb_ge. unfold len. cbn [length].
      rewrite length_app, Hn'. subst tail. cbn [length]. lia. }
  change (getitem (i :: name ++ tail) 0) with (ok i).
  rewrite Hnm, Hname, Hget. cbn [rbind ok unpack_direct Z.to_nat Pos.to_nat
    Pos.iter_op Nat.add DIRECT_BLOCKS].
  change (Z.to_nat DIRECT_BLOCKS) with 10%nat. cbn [unpack_direct].
  rewrite !Hslice by lia.
  subst tail.
  repeat match goal with
  | |- context [slice ?a ?b ?l] =>
      let v := eval vm_compute in (slice a b l) in
      change (slice a b l) with v
  end.
  rewrite HI. cbn [rbind ok].
  rewrite H, H1, H0, H2, H3, H4, H5, H6, H7, H8. cbn [rbind ok app].
  rewrite Hslice by lia.
  match goal with
  | |- context [slice ?a ?b ?l] =>
      let v := eval vm_compute in (slice a b l) in
      change (slice a b l) with v
  end.
  rewrite Hib. cbn [rbind ok].
  rewrite Hu, Hd, Hfp, Hfr.
  destruct (i =? slot) eqn:E; [apply Z.eqb_eq in E; subst i|]; reflexivity.
Qed.

Lemma inode_roundtrip_witness :
  let n := {| inode_id := 3; filename := [97; 46; 116; 120; 116]; file_size := 100;
              create_time := 17; modify_time := 18; permission := 6;
              is_used := true; is_directory := false; ref_count := 7;
              direct_blocks := [35; 36; -1; -1; -1; -1; -1; -1; -1; -1];
              indirect_block := -1 |} in
  fits_record n = true
  /\ exists d, to_bytes n = ok d /\ from_bytes d 5 = reloaded 5 n.
Proof.
  intros n. split; [reflexivity|]. apply (inode_roundtrip n 5). reflexivity.
Defined.

(** C3 fails as stated: a reference count of 8 is stored as 0, so the
    inode read back differs from the one written. *)
Lemma inode_roundtrip_drops_high_ref_count :
  let n := {| inode_id := 3; filename := [97; 46; 116; 120; 116]; file_size := 100;
              create_time := 0; modify_time := 0; permission := 6;
              is_used := true; is_directory := false; ref_count := 8;
              direct_blocks := [35; 36; -1; -1; -1; -1; -1; -1; -1; -1];
              indirect_block := -1 |} in
  exists d, to_bytes n = ok d
    /\ ref_count (from_bytes d 3) = 0
    /\ from_bytes d 3 <> n.
Proof.
  intros n. eexists. split; [vm_compute; reflexivity|].
  split; [vm_compute; reflexivity|].
  intros H. apply (f_equal ref_count) in H. vm_compute in H. discriminate H.
Qed.

End INodeRecord.

(** * The monad *)

Section MonadFacts.
Context {S : Type}.

Lemma wp_bind {A B} (m : M S A) (k : A -> M S B) Q E s :
  wp m (fun a s' => wp (k a) Q E s') E s -> wp (bind m k) Q E s.
Proof. unfold wp, bind. destruct (m s); auto. Qed.

Lemma wp_mono {A} (m : M S A) (Q Q' : A -> S -> Prop) (E E' : S -> Prop) s :
  wp m Q E s ->
  (forall a s', Q a s' -> Q' a s') -> (forall s', E s' -> E' s') ->
  wp m Q' E' s.
Proof. unfold wp. destruct (m s); auto. Qed.

Lemma wp_ret {A} (a : A) (Q : A -> S -> Prop) E s : Q a s -> wp (ret a) Q E s.
Proof. auto. Qed.

Lemma wp_raise {A} e (Q : A -> S -> Prop) (E : S -> Prop) s : E s -> wp (raise e) Q E s.
Proof. auto. Qed.

Lemma wp_get (Q : S -> S -> Prop) E s : Q s s -> wp get Q E s.
Proof. auto. Qed.

Lemma wp_put s0 (Q : unit -> S -> Prop) E s : Q tt s0 -> wp (put s0) Q E s.
Proof. auto. Qed.

Lemma wp_modify f (Q : unit -> S -> Prop) E s : Q tt (f s) -> wp (modify f) Q E s.
Proof. auto. Qed.

Lemma wp_lift_result {A} (r : result A) (Q : A -> S -> Prop) (E : S -> Prop) s :
  match r with Ret a _ => Q a s | Raise _ _ => E s end -> wp (lift_result r) Q E s.
Proof. unfold wp, lift_result. destruct r; auto. Qed.

Lemma wp_zoom {T A} (proj : S -> T) (upd : T -> S -> S) (m : M T A)
    (Q : A -> S -> Prop) (E : S -> Prop) s :
  wp m (fun a t => Q a (upd t s)) (fun t => E (upd t s)) (proj s) ->
  wp (zoom proj upd m) Q E s.
Proof. unfold wp, zoom. destruct (m (proj s)); auto. Qed.

Lemma wp_for_each {A} (I : S -> Prop) (l : list A) (body : A -> M S unit) E s :
  I s ->
  (forall x s', x ∈ l -> I s' -> wp (body x) (fun _ => I) E s') ->
  wp (for_each l body) (fun _ => I) E s.
Proof.
  revert s. induction l as [|x l IH]; intros s Hs Hbody; cbn [for_each].
  - apply wp_ret. assumption.
  - apply wp_bind. eapply wp_mono.
    + apply Hbody; [left|assumption].
    + cbn beta. intros _ s' Hs'. apply IH; [assumption|].
      intros y s'' Hy. apply Hbody. right. assumption.
    + auto.
Qed.

Lemma wp_for_each_rem {A} (I : list A -> S -> Prop) (l : list A)
    (body : A -> M S unit) E s :
  I l s ->
  (forall x rest s', I (x :: rest) s' -> wp (body x) (fun _ => I rest) E s') ->
  wp (for_each l body) (fun _ => I []) E s.
Proof.
  revert s. induction l as [|x l IH]; intros s Hs Hbody; cbn [for_each].
  - apply wp_ret. assumption.
  - apply wp_bind. eapply wp_mono; [apply Hbody; eassumption| |auto].
    cbn beta. intros _ s' Hs'. apply IH; assumption.
Qed.

Lemma wp_returns {A} (m : M S A) (Q : A -> S -> Prop) s :
  wp m Q (fun _ => False) s -> exists a s', m s = Ret a s' /\ Q a s'.
Proof. unfold wp. destruct (m s) as [a s'|]; [eauto|contradiction]. Qed.

End MonadFacts.

Ltac wp_step :=
  idtac;
  lazymatch goal with
  | |- wp (bind _ _) _ _ _ => apply wp_bind
  | |- wp (ret _) _ _ _ => apply wp_ret
  | |- wp (raise _) _ _ _ => apply wp_raise
  | |- wp get _ _ _ => apply wp_get
  | |- wp (put _) _ _ _ => apply wp_put
  | |- wp (modify _) _ _ _ => apply wp_modify
  | |- wp (lift_result _) _ _ _ => apply wp_lift_result
  | |- wp (zoom _ _ _) _ _ _ => apply wp_zoom
  end; cbv beta.

(** * Lists *)

Section ListFacts.

Lemma alter_as_insert {A} (f : A -> A) i (l : list A) x :
  l !! i = Some x -> alter f i l = <[i := f x]> l.
Proof.
  intros Hx. apply list_eq. intros j. destruct (decide (j = i)) as [->|Hji].
  - rewrite list_lookup_alter_eq, Hx, list_lookup_insert_eq; [reflexivity|].
    eapply lookup_lt_Some; eassumption.
  - rewrite list_lookup_alter_ne, list_lookup_insert_ne by congruence. reflexivity.
Qed.

Lemma length_range_from a k : length (range_from a k) = k.
Proof.
  revert a. induction k as [|k IH]; intros a; cbn; [reflexivity|].
  rewrite IH. reflexivity.
Qed.

Lemma elem_of_range_from a k x :
  x ∈ range_from a k <-> a <= x < a + Z.of_nat k.
Proof.
  revert a. induction k as [|k IH]; intros a; cbn [range_from].
  - rewrite elem_of_nil. lia.
  - rewrite elem_of_cons, IH. lia.
Qed.

Lemma elem_of_range a b x : x ∈ range a b <-> a <= x < b.
Proof. unfold range. rewrite elem_of_range_from. lia. Qed.

Lemma NoDup_range_from a k : NoDup (range_from a k).
Proof.
  revert a. induction k as [|k IH]; intros a; cbn [range_from]; constructor.
  - rewrite elem_of_range_from. lia.
  - apply IH.
Qed.

Lemma NoDup_range a b : NoDup (range a b).
Proof. apply NoDup_range_from. Qed.

End ListFacts.

(** * Bits of a byte *)

Section Bits.

Lemma land_bit_eqb x k : 0 <= k -> (Z.land x (Z.shiftl 1 k) =? 0) = negb (Z.testbit x k).
Proof.
  intros Hk. rewrite Z.shiftl_1_l.
  destruct (Z.testbit x k) eqn:E; cbn [negb].
  - apply Z.eqb_neq. intros H. apply (f_equal (fun z => Z.testbit z k)) in H.
    rewrite Z.land_spec, E, Z.pow2_bits_true, Z.bits_0 in H by assumption. discriminate.
  - apply Z.eqb_eq. apply Z.bits_inj'. intros n Hn.
    rewrite Z.land_spec, Z.pow2_bits_eqb, Z.bits_0 by assumption.
    destruct (Z.eqb_spec k n) as [->|]; [rewrite E|]; btauto.
Qed.

Lemma lor_bit x k j :
  0 <= k -> Z.testbit (Z.lor x (Z.shiftl 1 k)) j = Z.testbit x j || (k =? j).
Proof. intros Hk. rewrite Z.shiftl_1_l, Z.lor_spec, Z.pow2_bits_eqb by assumption. reflexivity. Qed.

Lemma land_lnot_bit x k j :
  0 <= k -> 0 <= j ->
  Z.testbit (Z.land x (Z.lnot (Z.shiftl 1 k))) j = Z.testbit x j && negb (k =? j).
Proof.
  intros Hk Hj.
  rewrite Z.shiftl_1_l, Z.land_spec, Z.lnot_spec, Z.pow2_bits_eqb by assumption.
  reflexivity.
Qed.

End Bits.

(** * The virtual disk *)

Section DiskBounds.
Import VirtualDisk DiskSpec.

Ltac seek_cases :=
  unfold seek, BLOCK_SIZE;
  change (2 ^ 57) with 144115188075855872 in *;
  change (2 ^ 63) with 9223372036854775808;
  repeat match goal with
         | |- context [?a <? ?b] => destruct (Z.ltb_spec a b)
         | |- context [?a <=? ?b] => destruct (Z.leb_spec a b)
         end;
  cbn [orb]; try reflexivity; exfalso; lia.

Lemma seek_negative n :
  - 2 ^ 57 <= n < 0 -> seek (n * BLOCK_SIZE) = err OSError.
Proof. intros H. seek_cases. Qed.

Lemma seek_unrepresentable n :
  n < - 2 ^ 57 \/ 2 ^ 57 <= n -> seek (n * BLOCK_SIZE) = err ValueError.
Proof. intros H. seek_cases. Qed.

Lemma seek_ok n : 0 <= n < 2 ^ 57 -> seek (n * BLOCK_SIZE) = ok (n * BLOCK_SIZE).
Proof. intros H. seek_cases. Qed.

Lemma read_block_ok n f :
  0 <= n < 2 ^ 57 -> read_block n f = Ret (default [] (f !! Z.to_nat n)) f.
Proof.
  intros H. unfold read_block, bind, lift_result. rewrite seek_ok by assumption.
  cbn. unfold file_read, BLOCK_SIZE. rewrite Z.div_mul by lia. reflexivity.
Qed.

Lemma write_block_ok n data f :
  0 <= n < 2 ^ 57 ->
  write_block n data f
  = Ret tt (file_write f (n * BLOCK_SIZE) (ljust BLOCK_SIZE (slice 0 BLOCK_SIZE data))).
Proof.
  intros H. unfold write_block, bind, lift_result. rewrite seek_ok by assumption.
  reflexivity.
Qed.

Lemma well_formed_spec f :
  well_formed f = true ->
  length f = 1024%nat /\ forall k b, f !! k = Some b -> len b = BLOCK_SIZE.
Proof.
  unfold well_formed. intros H. apply andb_true_iff in H. destruct H as [Hl Hb].
  apply Z.eqb_eq in Hl. unfold len, TOTAL_BLOCKS in Hl. split; [lia|].
  intros k b Hk. rewrite forallb_forall in Hb.
  apply Z.eqb_eq, Hb, list_elem_of_In, list_elem_of_lookup. eauto.
Qed.

Lemma file_image_spec f :
  file_image f = true
  <-> forall k b, f !! k = Some b ->
        len b <= BLOCK_SIZE /\ ((S k < length f)%nat -> len b = BLOCK_SIZE).
Proof.
  induction f as [|b rest IH].
  - split; [|reflexivity]. intros _ k b Hk. rewrite lookup_nil in Hk. discriminate.
  - destruct rest as [|b' rest'].
    + cbn [file_image]. rewrite Z.leb_le. split.
      * intros Hb [|k] b0 Hk; [|rewrite lookup_cons, lookup_nil in Hk; discriminate].
        injection Hk as <-. split; [assumption|]. cbn [length]. lia.
      * intros H. apply (H 0%nat b). reflexivity.
    + change (file_image (b :: b' :: rest'))
        with ((len b =? BLOCK_SIZE) && file_image (b' :: rest')).
      rewrite andb_true_iff, Z.eqb_eq, IH. split.
      * intros [Hb Hrest] [|k] b0 Hk.
        -- injection Hk as <-. split; [lia|auto].
        -- destruct (Hrest k b0 Hk) as [H1 H2]. split; [assumption|].
           intros Hlt. apply H2. cbn [length] in *. lia.
      * intros H. split.
        -- apply (H 0%nat b eq_refl). cbn [length]. lia.
        -- intros k b0 Hk. destruct (H (S k) b0 Hk) as [H1 H2]. split; [assumption|].
           intros Hlt. apply H2. cbn [length] in *. lia.
Qed.

(** Writing a whole block keeps a file a file. *)
Lemma file_image_write f n dt :
  0 <= n -> file_image f = true -> len dt = BLOCK_SIZE ->
  file_image (file_write f (n * BLOCK_SIZE) dt) = true.
Proof.
  intros Hn Hf Hdt. rewrite file_image_spec in Hf. apply file_image_spec.
  unfold file_write. replace (n * BLOCK_SIZE / BLOCK_SIZE) with n
    by (unfold BLOCK_SIZE; rewrite Z.div_mul by lia; reflexivity).
  destruct (decide _) as [Hlt|Hge]; intros k b Hk.
  - rewrite length_insert. destruct (decide (k = Z.to_nat n)) as [->|Hne].
    + rewrite list_lookup_insert_eq in Hk by assumption. injection Hk as <-. lia.
    + rewrite list_lookup_insert_ne in Hk by congruence. apply Hf. assumption.
  - assert (Hb : len b = BLOCK_SIZE); [|lia].
    apply lookup_app_Some in Hk. destruct Hk as [Hk|[_ Hk]].
    + apply list_lookup_fmap_Some in Hk. destruct Hk as (b0 & -> & Hb0).
      apply len_ljust. apply (Hf k b0 Hb0).
    + apply lookup_app_Some in Hk. destruct Hk as [Hk|[_ Hk]].
      * apply lookup_replicate in Hk. destruct Hk as [-> _]. reflexivity.
      * apply list_lookup_singleton_Some in Hk. destruct Hk as [_ <-]. assumption.
Qed.

(** C4 (as the code has it): no bounds check guards the disk.  A
    block number whose byte offset does not fit a signed 64-bit integer
    makes both operations raise [ValueError], any other negative block
    number makes them raise [OSError], and the file is left alone.  A
    block number from [TOTAL_BLOCKS] up to the largest an index block
    entry holds reads no bytes without any error, and a write there
    extends the file to that block.  Inside the range a read of a
    well-formed disk returns exactly [BLOCK_SIZE] bytes. *)
Theorem disk_access_by_range (f : disk_file) (n : Z) (data : list Z) :
  well_formed f = true ->
  (n < - 2 ^ 57 \/ 2 ^ 57 <= n ->
     read_block n f = Raise ValueError f /\ write_block n data f = Raise ValueError f)
  /\ (- 2 ^ 57 <= n < 0 ->
     read_block n f = Raise OSError f /\ write_block n data f = Raise OSError f)
  /\ (TOTAL_BLOCKS <= n < 2 ^ 31 ->
     read_block n f = Ret [] f
     /\ exists f', write_block n data f = Ret tt f' /\ len f' = n + 1)
  /\ (0 <= n < TOTAL_BLOCKS ->
     exists b, read_block n f = Ret b f /\ len b = BLOCK_SIZE).
Proof.
  intros Hwf. destruct (well_formed_spec f Hwf) as [Hlen Hblk].
  split; [|split; [|split]].
  - intros Hn. unfold read_block, write_block, bind, lift_result.
    rewrite seek_unrepresentable by assumption. split; reflexivity.
  - intros Hn. unfold read_block, write_block, bind, lift_result.
    rewrite seek_negative by assumption. split; reflexivity.
  - unfold TOTAL_BLOCKS. change (2 ^ 31) with 2147483648. intros Hn.
    assert (Hn' : 0 <= n < 2 ^ 57) by (change (2 ^ 57) with 144115188075855872; lia).
    split.
    + rewrite read_block_ok by assumption.
      rewrite (lookup_ge_None_2 f (Z.to_nat n)) by lia. reflexivity.
    + eexists. split; [apply write_block_ok; assumption|].
      unfold file_write, BLOCK_SIZE. rewrite Z.div_mul by lia.
      destruct (decide _) as [Hlt|_]; [lia|].
      unfold len. rewrite !length_app, length_fmap, length_replicate. cbn [length]. lia.
  - unfold TOTAL_BLOCKS. intros Hn.
    destruct (lookup_lt_is_Some_2 f (Z.to_nat n)) as [b Hb]; [lia|].
    exists b. split; [|eapply Hblk; eassumption].
    rewrite read_block_ok by (change (2 ^ 57) with 144115188075855872; lia).
    rewrite Hb. reflexivity.
Qed.

Lemma disk_access_by_range_witness :
  well_formed blank = true
  /\ read_block (-1) blank = Raise OSError blank
  /\ read_block 1024 blank = Ret [] blank
  /\ (exists b, read_block 5 blank = Ret b blank /\ len b = BLOCK_SIZE).
Proof.
  split; [reflexivity|].
  pose proof (disk_access_by_range blank (-1) [] eq_refl) as (_ & Hneg & _ & _).
  pose proof (disk_access_by_range blank 1024 [] eq_refl) as (_ & _ & Hhi & _).
  pose proof (disk_access_by_range blank 5 [] eq_refl) as (_ & _ & _ & Hin).
  split; [|split].
  - apply Hneg. change (2 ^ 57) with 144115188075855872. lia.
  - apply Hhi. unfold TOTAL_BLOCKS. change (2 ^ 31) with 2147483648. lia.
  - apply Hin. unfold TOTAL_BLOCKS. lia.
Defined.

(** C4 fails as stated: block [TOTAL_BLOCKS] is outside the range, yet
    reading it returns the empty byte string and writing it succeeds. *)
Lemma disk_out_of_range_no_error :
  read_block TOTAL_BLOCKS blank = Ret [] blank
  /\ exists f', write_block TOTAL_BLOCKS [1; 2; 3] blank = Ret tt f'
                /\ len f' = TOTAL_BLOCKS + 1.
Proof.
  split; [reflexivity|]. eexists. split; [reflexivity|]. reflexivity.
Qed.

End DiskBounds.

(** * [create_file] and [write_file] where they fail *)

Section CreateFailures.
Import Scenario BitmapSpec.

Lemma fresh_formatted : exists fs, FS.format_disk (FS.new 0) = Ret tt fs /\ fresh = fs.
Proof. eexists. split; vm_compute; reflexivity. Qed.

Lemma create_no_space_any_content content :
  len content = 64000 ->
  exists fs',
    FS.create_file name_big content 6 fresh = Ret (false, MsgNoSpace) fs'
    /\ bitmap fs' = bitmap fresh
    /\ is_used <$> inodes fresh !! 0%nat = Some false
    /\ is_used <$> inodes fs' !! 0%nat = Some true
    /\ free_inodes (superblock fresh) = 32
    /\ free_inodes (superblock fs') = 31.
Proof.
  intros H. unfold FS.create_file, FS.blocks_for. rewrite H.
  eexists. split; [vm_compute; reflexivity|].
  repeat split; vm_compute; reflexivity.
Qed.

(** C1 (the code at the failing input): on the freshly formatted
    volume, creating a file of 64000 bytes fails with "insufficient
    space" and gives every block back to the bitmap, but the inode
    taken for the file stays marked used and the free-inode counter
    stays decremented. *)
Theorem create_no_space_leaks_inode :
  exists fs',
    FS.create_file name_big (replicate (Z.to_nat 64000) 0) 6 fresh
      = Ret (false, MsgNoSpace) fs'
    /\ bitmap fs' = bitmap fresh
    /\ is_used <$> inodes fresh !! 0%nat = Some false
    /\ is_used <$> inodes fs' !! 0%nat = Some true
    /\ free_inodes (superblock fresh) = 32
    /\ free_inodes (superblock fs') = 31.
Proof.
  apply create_no_space_any_content.
  unfold len. rewrite length_replicate. apply Z2Nat.id. lia.
Qed.

(** C2 (the code at the failing input): on the freshly formatted
    volume, creating a file of 27 blocks returns no result at all: the
    index block refuses its seventeenth entry with [struct.error], after
    28 blocks and an inode were taken, and they stay taken.  Overwriting
    an existing one-block file with the same content raises the same
    way. *)
Theorem oversize_content_raises :
  let big := replicate (Z.to_nat (27 * BLOCK_SIZE)) 65 in
  (exists fs',
     FS.create_file name_big big 6 fresh = Raise StructError fs'
     /\ free_count (bitmap fresh) = 989
     /\ free_count (bitmap fs') = 961
     /\ is_used <$> inodes fs' !! 0%nat = Some true
     /\ filename <$> inodes fs' !! 0%nat = Some [])
  /\ (exists fs1 fs2,
     FS.create_file name_a [104; 105] 6 fresh = Ret (true, MsgCreated name_a 1) fs1
     /\ FS.write_file name_a big fs1 = Raise StructError fs2
     /\ free_count (bitmap fs1) = 988
     /\ free_count (bitmap fs2) = 961
     /\ file_size <$> inodes fs2 !! 0%nat = Some 2).
Proof.
  intros big. split.
  - eexists. split; [vm_compute; reflexivity|].
    repeat split; vm_compute; reflexivity.
  - eexists. eexists. split; [vm_compute; reflexivity|].
    split; [vm_compute; reflexivity|].
    repeat split; vm_compute; reflexivity.
Qed.

End CreateFailures.

(** * The buffer pool invariant *)

Section PoolInvariant.
Import Buffer BufferSpec.

Lemma pool_ok_alter l i F :
  pool_ok l ->
  (forall p, l !! i = Some p ->
     page_ok (F p)
     /\ (is_valid (F p) = true ->
         (is_valid p = true /\ filename (F p) = filename p
          /\ block_num (F p) = block_num p)
         \/ (forall j q, j <> i -> l !! j = Some q -> is_valid q = true ->
             filename q = filename (F p) -> block_num q = block_num (F p) -> False))) ->
  pool_ok (alter F i l).
Proof.
  intros [Hu Hp] HF. split.
  - intros a b p q Ha Hb Hvp Hvq Hn Hbk.
    destruct (decide (a = b)) as [|Hab]; [assumption|exfalso].
    destruct (decide (a = i)) as [->|Hai]; destruct (decide (b = i)) as [->|Hbi];
      try congruence.
    + rewrite list_lookup_alter_eq in Ha.
      rewrite list_lookup_alter_ne in Hb by congruence.
      destruct (l !! i) as [p0|] eqn:Ei; [|discriminate]. injection Ha as <-.
      destruct (HF p0 eq_refl) as [_ Hk]. destruct (Hk Hvp) as [(Hv & Hfn & Hbn)|Hno].
      * apply Hab. symmetry. eapply (Hu b i q p0); eauto; congruence.
      * eapply (Hno b q); eauto.
    + rewrite list_lookup_alter_ne in Ha by congruence.
      rewrite list_lookup_alter_eq in Hb.
      destruct (l !! i) as [q0|] eqn:Ei; [|discriminate]. injection Hb as <-.
      destruct (HF q0 eq_refl) as [_ Hk]. destruct (Hk Hvq) as [(Hv & Hfn & Hbn)|Hno].
      * apply Hab. eapply (Hu a i p q0); eauto; congruence.
      * eapply (Hno a p); eauto.
    + rewrite list_lookup_alter_ne in Ha, Hb by congruence. eauto.
  - apply Forall_lookup. intros k p Hk.
    destruct (decide (k = i)) as [->|Hki].
    + rewrite list_lookup_alter_eq in Hk.
      destruct (l !! i) as [p0|] eqn:Ei; [|discriminate]. injection Hk as <-.
      apply (HF p0 eq_refl).
    + rewrite list_lookup_alter_ne in Hk by congruence.
      eapply Forall_lookup in Hp; eauto.
Qed.

End PoolInvariant.

(** ** Every operation keeps the invariant *)

(** Unfold the small steps of the buffer manager and run them. *)
Ltac bstep :=
  unfold Buffer.update_page, Buffer.time_time, Buffer.count_writeback,
    Buffer._update_lru, Buffer._remove_from_lru, Buffer.page_at,
    Buffer._find_free_page, Buffer._find_lru_page;
  repeat wp_step.

Ltac bsimpl :=
  cbn [Buffer.set_pages Buffer.set_lru_order Buffer.set_hit_count Buffer.set_miss_count
       Buffer.set_writeback_count Buffer.set_fs_disk Buffer.set_clock
       Buffer.pages Buffer.lru_order Buffer.hit_count Buffer.miss_count
       Buffer.writeback_count Buffer.fs_disk Buffer.clock Buffer.buffer_size
       fst snd] in *.

Section PoolSteps.
Import Buffer BufferSpec.

(** Changing a page without making it valid or dirty anew keeps the pool
    invariant. *)
Lemma pool_ok_alter_same l i F :
  pool_ok l ->
  (forall p, page_ok p ->
     (is_valid (F p) = true ->
      is_valid p = true /\ filename (F p) = filename p /\ block_num (F p) = block_num p)
     /\ (is_dirty (F p) = true -> is_valid (F p) = true)) ->
  pool_ok (alter F i l).
Proof.
  intros Hok HF. apply pool_ok_alter; [assumption|].
  intros p Hp. destruct Hok as [_ Hall].
  pose proof (proj1 (Forall_lookup _ _) Hall i p Hp) as Hpok.
  destruct (HF p Hpok) as [Hv Hd]. split.
  - split; [|assumption].
    destruct (is_valid (F p)) eqn:E; [right|left; reflexivity].
    destruct (Hv eq_refl) as (Hvp & _ & Hb). split; [reflexivity|].
    rewrite Hb. destruct Hpok as [[Hn|[_ Hr]] _]; [congruence|assumption].
  - intros Hvalid. left. apply Hv. assumption.
Qed.

(** Making page [i] valid for a key no other valid page caches keeps the
    pool invariant. *)
Lemma pool_ok_alter_install l i F name block :
  pool_ok l ->
  list_find (fun page => caches name block page = true) l = None ->
  0 <= block < 2 ^ 57 ->
  (forall p, is_valid (F p) = true /\ filename (F p) = name
             /\ block_num (F p) = block) ->
  pool_ok (alter F i l).
Proof.
  intros Hok Hfind Hb HF. apply pool_ok_alter; [assumption|].
  intros p Hp. destruct (HF p) as (Hv & Hn & Hbn). split.
  - split; [right; split; [assumption|rewrite Hbn; assumption]|auto].
  - intros _. right. intros j q Hj Hq Hvq Hnq Hbq.
    rewrite list_find_None, Forall_lookup in Hfind.
    apply (Hfind j q Hq). unfold caches.
    rewrite Hvq, Hbq, Hbn, Z.eqb_refl. cbn [andb].
    apply bool_decide_eq_true. congruence.
Qed.

Lemma read_block_returns block d r d' :
  VirtualDisk.read_block block d = Ret r d' -> 0 <= block < 2 ^ 57 /\ d' = d.
Proof.
  unfold VirtualDisk.read_block, VirtualDisk.seek, bind, lift_result, BLOCK_SIZE.
  change (2 ^ 57) with 144115188075855872. change (2 ^ 63) with 9223372036854775808.
  destruct (_ || _) eqn:E0; [discriminate|].
  destruct (block * 64 <? 0) eqn:E1; [discriminate|].
  apply orb_false_iff in E0. destruct E0 as [_ E2].
  cbn. intros [= _ <-]. zbool. split; [lia|reflexivity].
Qed.

Ltac same_page := intros [] Hp; cbn; split; [auto|destruct Hp as [_ Hd]; auto].

Lemma wp_disk_write bn dt (Q : unit -> BufferManager -> Prop) E s :
  (forall d', Q tt (set_fs_disk d' s)) -> (forall d', E (set_fs_disk d' s)) ->
  wp (on_disk (VirtualDisk.write_block bn dt)) Q E s.
Proof.
  intros HQ HE. unfold on_disk. apply wp_zoom. unfold wp.
  destruct (VirtualDisk.write_block bn dt (fs_disk s)) as [[] d'|e d']; auto.
Qed.

Lemma evict_page_inv i s :
  Pool s ->
  wp (_evict_page i)
     (fun _ s' => Pool s'
        /\ (forall nm bk,
              list_find (fun page => caches nm bk page = true) (pages s) = None ->
              list_find (fun page => caches nm bk page = true) (pages s') = None)
        /\ length (pages s') = length (pages s))
     Pool s.
Proof.
  intros Hok. unfold _evict_page. bstep.
  destruct (pages s !! i) as [p|] eqn:Hp; [|wp_step; assumption].
  repeat wp_step.
  destruct (negb (is_valid p)) eqn:Hv; [wp_step; auto|].
  repeat wp_step.
  assert (Hpost : forall s1 : BufferManager, pages s1 = pages s ->
    wp (update_page i (with_is_valid false);;
        update_page i (with_is_dirty false);;
        update_page i (with_block_num (-1));;
        update_page i (with_filename []);;
        update_page i (with_owner_pid (-1));;
        update_page i (with_data (replicate (Z.to_nat BLOCK_SIZE) 0));;
        _remove_from_lru i;; ret true)
       (fun _ s' => Pool s'
          /\ (forall nm bk,
                list_find (fun page => caches nm bk page = true) (pages s) = None ->
                list_find (fun page => caches nm bk page = true) (pages s') = None)
          /\ length (pages s') = length (pages s))
       Pool s1).
  { intros s1 Hs1. bstep. unfold Pool.
    assert (Hpg : forall X, pages (if bool_decide (i ∈ lru_order X)
                                   then set_lru_order (remove_key i (lru_order X)) X
                                   else X) = pages X).
    { intros X. destruct (bool_decide _); reflexivity. }
    rewrite Hpg. bsimpl. rewrite Hs1, !list_alter_alter_eq.
    split; [|split].
    - apply pool_ok_alter_same; [assumption|]. intros [] _. cbn. split; discriminate.
    - intros nm bk Hnone. rewrite list_find_None, Forall_lookup in *.
      intros k q Hk. destruct (decide (k = i)) as [->|Hki].
      + rewrite list_lookup_alter_eq in Hk.
        destruct (pages s !! i) as [[]|]; [|discriminate]. injection Hk as <-.
        cbn. discriminate.
      + rewrite list_lookup_alter_ne in Hk by congruence. eauto.
    - apply length_alter. }
  destruct (is_dirty p).
  - repeat wp_step. apply wp_disk_write.
    + intros d'. repeat wp_step. apply Hpost. reflexivity.
    + intros d'. exact Hok.
  - repeat wp_step. apply Hpost. reflexivity.
Qed.

Lemma pages_if (b : bool) (X Y : BufferManager) :
  pages (if b then X else Y) = if b then pages X else pages Y.
Proof. destruct b; reflexivity. Qed.

Lemma load_into_inv i name block pid s :
  Pool s ->
  list_find (fun page => caches name block page = true) (pages s) = None ->
  wp (load_into i name block pid)
     (fun r s' => Pool s' /\ length (pages s') = length (pages s)
        /\ exists p, fst r = Some i /\ pages s' !! i = Some p /\ is_valid p = true)
     Pool s.
Proof.
  intros Hok Hnone. unfold load_into. wp_step. unfold on_disk. wp_step.
  unfold wp at 1.
  destruct (VirtualDisk.read_block block (fs_disk s)) as [d d'|e d'] eqn:Hr;
    [|exact Hok].
  apply read_block_returns in Hr. destruct Hr as [Hb ->].
  bstep. bsimpl.
  destruct (pages s !! i) as [p|] eqn:Hp; [|wp_step; exact Hok].
  bstep. unfold Pool. rewrite pages_if. bsimpl. rewrite !list_alter_alter_eq.
  assert (Hsame : forall b0 : bool, (if b0 then
      alter (with_access_count 1 ∘ with_load_time (clock s + 1)
             ∘ with_access_time (clock s) ∘ with_owner_pid pid ∘ with_is_dirty false
             ∘ with_is_valid true ∘ with_data d ∘ with_filename name
             ∘ with_block_num block) i (pages s)
    else alter (with_access_count 1 ∘ with_load_time (clock s + 1)
             ∘ with_access_time (clock s) ∘ with_owner_pid pid ∘ with_is_dirty false
             ∘ with_is_valid true ∘ with_data d ∘ with_filename name
             ∘ with_block_num block) i (pages s))
    = alter (with_access_count 1 ∘ with_load_time (clock s + 1)
             ∘ with_access_time (clock s) ∘ with_owner_pid pid ∘ with_is_dirty false
             ∘ with_is_valid true ∘ with_data d ∘ with_filename name
             ∘ with_block_num block) i (pages s)).
  { intros []; reflexivity. }
  rewrite Hsame. split; [|split].
  - eapply pool_ok_alter_install; eauto.
  - apply length_alter.
  - eexists. split; [reflexivity|]. rewrite list_lookup_alter_eq, Hp. cbn.
    split; reflexivity.
Qed.

Lemma choose_page_inv name block s :
  Pool s ->
  list_find (fun page => caches name block page = true) (pages s) = None ->
  wp choose_page
     (fun _ s' => Pool s' /\ length (pages s') = length (pages s)
        /\ list_find (fun page => caches name block page = true) (pages s') = None)
     Pool s.
Proof.
  intros Hok Hnone. unfold choose_page. bstep.
  destruct (list_find (fun page => is_valid page = false) (pages s)) as [[i p]|].
  - change (fst <$> Some (i, p)) with (Some i). cbv iota. wp_step. auto.
  - change (fst <$> @None (nat * BufferPage)) with (@None nat). cbv iota.
    bstep. destruct (list.head (lru_order s)) as [i|]; [|wp_step; auto].
    wp_step. eapply wp_mono; [apply evict_page_inv; assumption| |auto].
    cbv beta. intros _ s' (Hok' & Hkeep & Hlen). wp_step. auto.
Qed.

Lemma load_block_inv name block pid s :
  Pool s ->
  wp (load_block name block pid)
     (fun r s' => Pool s' /\ length (pages s') = length (pages s)
        /\ forall i, fst r = Some i ->
             exists p, pages s' !! i = Some p /\ is_valid p = true)
     Pool s.
Proof.
  intros Hok. unfold load_block. wp_step. wp_step.
  destruct (list_find _ (pages s)) as [[i page]|] eqn:Hfind.
  - apply list_find_Some in Hfind. destruct Hfind as (Hi & Hc & _).
    bstep. unfold Pool. rewrite pages_if. bsimpl. rewrite !list_alter_alter_eq.
    match goal with
    | |- context [if ?b then ?X else ?X] =>
        replace (if b then X else X) with X by (destruct b; reflexivity)
    end.
    split; [|split].
    + apply pool_ok_alter_same; [assumption|]. same_page.
    + apply length_alter.
    + intros j [= <-]. eexists. rewrite list_lookup_alter_eq, Hi. cbn.
      split; [reflexivity|]. destruct page. cbn in *.
      unfold caches in Hc. cbn in Hc. destruct is_valid0; [reflexivity|discriminate].
  - wp_step. wp_step. wp_step.
    eapply wp_mono; [apply (choose_page_inv name block); assumption| |auto].
    cbv beta. intros [i|] s' (Hok' & Hlen & Hnone); bsimpl.
    + eapply wp_mono; [apply load_into_inv; assumption| |auto].
      cbv beta. intros r s'' (Hok'' & Hlen' & p & Hr & Hp & Hv).
      split; [assumption|]. split; [congruence|].
      intros j Hj. rewrite Hr in Hj. injection Hj as <-. eauto.
    + wp_step. split; [assumption|]. split; [assumption|]. intros j [=].
Qed.

Lemma write_block_inv name block d pid s :
  Pool s ->
  wp (write_block name block d pid)
     (fun _ s' => Pool s' /\ length (pages s') = length (pages s)) Pool s.
Proof.
  intros Hok. unfold write_block. wp_step.
  eapply wp_mono; [apply load_block_inv; assumption| |auto].
  cbv beta. intros [[i|] r] s' (Hok' & Hlen & Hval); cbn [fst].
  - destruct (Hval i eq_refl) as (p & Hp & Hv).
    bstep. rewrite Hp. bstep. unfold Pool. bsimpl. rewrite !list_alter_alter_eq.
    split; [|rewrite length_alter; assumption].
    apply pool_ok_alter; [assumption|]. intros p' Hp'.
    assert (p' = p) by congruence. subst p'. destruct p. cbn in *. subst.
    destruct Hok' as [_ Hall].
    pose proof (proj1 (Forall_lookup _ _) Hall i _ Hp) as [Hpv _]. cbn in Hpv.
    split; [split; [assumption|auto]|]. intros _. left. auto.
  - wp_step. auto.
Qed.

Lemma flush_page_inv i s :
  Pool s -> wp (flush_page i) (fun _ => Pool) Pool s.
Proof.
  intros Hok. unfold flush_page. bstep.
  destruct (pages s !! i) as [p|]; [|wp_step; exact Hok].
  repeat wp_step. apply wp_disk_write; [|intros; exact Hok].
  intros d'. bstep. unfold Pool. bsimpl.
  apply pool_ok_alter_same; [assumption|]. intros [] Hp. cbn. split; [auto|discriminate].
Qed.

Lemma flush_all_inv s : Pool s -> wp flush_all (fun _ => Pool) Pool s.
Proof.
  intros Hok. unfold flush_all. wp_step. wp_step.
  apply wp_for_each; [assumption|]. intros i s' _ Hok'.
  bstep. destruct (pages s' !! i) as [p|]; [|wp_step; exact Hok'].
  repeat wp_step. destruct (is_valid p && is_dirty p).
  - apply flush_page_inv. assumption.
  - wp_step. assumption.
Qed.

Lemma flush_file_inv name s : Pool s -> wp (flush_file name) (fun _ => Pool) Pool s.
Proof.
  intros Hok. unfold flush_file. wp_step. wp_step.
  apply wp_for_each; [assumption|]. intros i s' _ Hok'.
  bstep. destruct (pages s' !! i) as [p|]; [|wp_step; exact Hok'].
  repeat wp_step. destruct (is_valid p && is_dirty p && bool_decide (filename p = name)).
  - apply flush_page_inv. assumption.
  - wp_step. assumption.
Qed.

Lemma invalidate_file_inv name s :
  Pool s -> wp (invalidate_file name) (fun _ => Pool) Pool s.
Proof.
  intros Hok. unfold invalidate_file. wp_step. wp_step.
  apply wp_for_each; [assumption|]. intros i s' _ Hok'.
  bstep. destruct (pages s' !! i) as [p|]; [|wp_step; exact Hok'].
  repeat wp_step. destruct (is_valid p && bool_decide (filename p = name));
    [|wp_step; assumption].
  assert (Hpost : forall s1 : BufferManager, pages s1 = pages s' ->
    wp (update_page i (with_is_valid false);;
        update_page i (with_is_dirty false);;
        _remove_from_lru i) (fun _ => Pool) Pool s1).
  { intros s1 Hs1. bstep. unfold Pool. rewrite pages_if. bsimpl.
    rewrite Hs1, !list_alter_alter_eq.
    match goal with
    | |- context [if ?b then ?X else ?X] =>
        replace (if b then X else X) with X by (destruct b; reflexivity)
    end.
    apply pool_ok_alter_same; [assumption|]. intros [] _. cbn. split; discriminate. }
  wp_step. destruct (is_dirty p).
  - wp_step. apply wp_disk_write; [|intros; exact Hok'].
    intros d'. bstep. apply Hpost. reflexivity.
  - wp_step. apply Hpost. reflexivity.
Qed.

Lemma new_pool_ok d size now : Pool (new d size now).
Proof.
  unfold Pool, new. cbn [pages]. split.
  - intros i j p q Hi _ Hv. exfalso.
    apply list_lookup_fmap_Some in Hi. destruct Hi as (k & -> & _). discriminate.
  - apply Forall_fmap, Forall_forall. intros k _. split; [left; reflexivity|discriminate].
Qed.

Lemma step_pool_ok o s : Pool s -> Pool (step o s).
Proof.
  intros Hok. unfold step.
  assert (H : wp (run o) (fun _ => Pool) Pool s).
  { destruct o; cbn [run].
    - wp_step. eapply wp_mono; [apply load_block_inv; assumption| |auto].
      cbv beta. intros r s' [H _]. wp_step. assumption.
    - wp_step. eapply wp_mono; [apply write_block_inv; assumption| |auto].
      cbv beta. intros r s' [H _]. wp_step. assumption.
    - apply flush_all_inv. assumption.
    - apply flush_file_inv. assumption.
    - apply invalidate_file_inv. assumption. }
  unfold wp in H. destruct (run o s); assumption.
Qed.

Lemma reachable_pool_ok s : reachable s -> Pool s.
Proof.
  induction 1 as [d size now|o s _ IH]; [apply new_pool_ok|apply step_pool_ok, IH].
Qed.

(** C6: in every state the buffer manager can reach by [load_block],
    [write_block], [flush_all], [flush_file] and [invalidate_file]
    (returning or raising), no two valid pages cache the same (filename,
    block number) pair, and every page is either free or valid for one
    block of a non-negative number. *)
Theorem buffer_pool_invariant (s : BufferManager) :
  reachable s ->
  unique_mapping (pages s)
  /\ forall i p, pages s !! i = Some p ->
       is_valid p = false \/ (is_valid p = true /\ 0 <= block_num p < 2 ^ 57).
Proof.
  intros Hr. destruct (reachable_pool_ok s Hr) as [Hu Hall]. split; [assumption|].
  intros i p Hp. apply (proj1 (Forall_lookup _ _) Hall i p Hp).
Qed.

Lemma buffer_pool_invariant_witness :
  let s := step (OpWrite [102] 36 [1; 2] 7)
             (step (OpLoad [102] 35 7) (new DiskSpec.blank 16 0)) in
  reachable s
  /\ unique_mapping (pages s)
  /\ forall i p, pages s !! i = Some p ->
       is_valid p = false \/ (is_valid p = true /\ 0 <= block_num p < 2 ^ 57).
Proof.
  intros s.
  assert (Hr : reachable s) by (apply reach_step, reach_step, reach_new).
  split; [exact Hr|]. exact (buffer_pool_invariant s Hr).
Defined.

End PoolSteps.

(** * Flushing *)

Section FlushTwice.
Import Buffer BufferSpec FlushSpec.

Lemma wp_disk_write_ok bn dt (Q : unit -> BufferManager -> Prop) E s :
  0 <= bn < 2 ^ 57 ->
  (forall d', Q tt (set_fs_disk d' s)) ->
  wp (on_disk (VirtualDisk.write_block bn dt)) Q E s.
Proof.
  intros Hbn HQ. unfold on_disk. apply wp_zoom. unfold wp.
  rewrite write_block_ok by assumption. apply HQ.
Qed.

Lemma flush_all_returns_clean s :
  pool_ok (pages s) ->
  exists s1, flush_all s = Ret tt s1
    /\ Forall (fun p => is_dirty p = false) (pages s1).
Proof.
  intros Hok.
  assert (H : wp flush_all (fun _ => flushing (length (pages s)) []) (fun _ => False) s).
  { unfold flush_all. wp_step. wp_step.
    apply (wp_for_each_rem (flushing (length (pages s)))).
    - split; [assumption|]. split; [reflexivity|]. unfold page_keys. split.
      + intros j Hj. apply elem_of_seq in Hj. lia.
      + intros j p Hj _. apply elem_of_seq. apply lookup_lt_Some in Hj. lia.
    - intros i rest s' (Hok' & Hlen & Hin & Hdirty).
      assert (Hi : (i < length (pages s'))%nat) by (rewrite Hlen; apply Hin; left).
      destruct (lookup_lt_is_Some_2 _ _ Hi) as [p Hp].
      bstep. rewrite Hp. repeat wp_step.
      pose proof (proj1 (Forall_lookup _ _) (proj2 Hok') i p Hp) as [Hpv Hpd].
      destruct (is_valid p && is_dirty p) eqn:Hvd.
      + apply andb_true_iff in Hvd. destruct Hvd as [Hv Hd].
        destruct Hpv as [Hpv|[_ Hrange]]; [congruence|].
        unfold flush_page. bstep. rewrite Hp. repeat wp_step.
        apply wp_disk_write_ok; [assumption|]. intros d'. bstep.
        unfold flushing. bsimpl. split; [|split; [|split]].
        * apply pool_ok_alter_same; [assumption|].
          intros [] Hq. cbn. split; [auto|discriminate].
        * rewrite length_alter. assumption.
        * intros j Hj. apply Hin. right. assumption.
        * intros j q Hj Hq. destruct (decide (j = i)) as [->|Hji].
          -- rewrite list_lookup_alter_eq, Hp in Hj. injection Hj as <-.
             destruct p; discriminate.
          -- rewrite list_lookup_alter_ne in Hj by congruence.
             pose proof (Hdirty j q Hj Hq) as Hmem.
             apply elem_of_cons in Hmem. destruct Hmem; [congruence|assumption].
      + wp_step. split; [assumption|]. split; [assumption|]. split.
        * intros j Hj. apply Hin. right. assumption.
        * intros j q Hj Hq. pose proof (Hdirty j q Hj Hq) as Hmem.
          apply elem_of_cons in Hmem. destruct Hmem as [->|]; [|assumption].
          assert (q = p) by congruence. subst q. exfalso.
          rewrite Hq, (Hpd Hq) in Hvd. discriminate. }
  apply wp_returns in H. destruct H as ([] & s1 & Hrun & _ & _ & _ & Hclean).
  exists s1. split; [assumption|]. apply Forall_lookup. intros j p Hj.
  destruct (is_dirty p) eqn:Hd; [|reflexivity].
  exfalso. pose proof (Hclean j p Hj Hd) as Hmem. inversion Hmem.
Qed.

Lemma flush_all_clean_noop s :
  Forall (fun p => is_dirty p = false) (pages s) -> flush_all s = Ret tt s.
Proof.
  intros Hclean.
  assert (H : wp flush_all (fun _ s' => s' = s) (fun _ => False) s).
  { unfold flush_all. wp_step. wp_step.
    apply wp_for_each; [reflexivity|]. intros i s' Hi ->.
    unfold page_keys in Hi. apply elem_of_seq in Hi.
    destruct (lookup_lt_is_Some_2 (pages s) i) as [p Hp]; [lia|].
    bstep. rewrite Hp. repeat wp_step.
    rewrite (proj1 (Forall_lookup _ _) Hclean i p Hp), andb_false_r.
    wp_step. reflexivity. }
  apply wp_returns in H. destruct H as ([] & s' & Hrun & ->). assumption.
Qed.

(** C8: in every reachable buffer state, [flush_all] returns and leaves
    no page dirty, and a second [flush_all] right after it returns the
    very same state: no write-back is counted and no page, nor the disk,
    changes. *)
Theorem flush_all_twice (s : BufferManager) :
  reachable s ->
  exists s1,
    flush_all s = Ret tt s1
    /\ Forall (fun p => is_dirty p = false) (pages s1)
    /\ flush_all s1 = Ret tt s1.
Proof.
  intros Hr. destruct (flush_all_returns_clean s (reachable_pool_ok s Hr))
    as (s1 & Hrun & Hclean).
  exists s1. split; [assumption|]. split; [assumption|].
  apply flush_all_clean_noop. assumption.
Qed.

Lemma flush_all_twice_witness :
  let s := step (OpWrite [102] 36 [1; 2] 7)
             (step (OpLoad [102] 35 7) (new DiskSpec.blank 16 0)) in
  reachable s
  /\ exists s1,
       flush_all s = Ret tt s1
       /\ Forall (fun p => is_dirty p = false) (pages s1)
       /\ flush_all s1 = Ret tt s1.
Proof.
  intros s.
  assert (Hr : reachable s) by (apply reach_step, reach_step, reach_new).
  split; [exact Hr|]. exact (flush_all_twice s Hr).
Defined.

End FlushTwice.

(** * LRU eviction *)

Section LruEviction.
Import Buffer BufferSpec LruSpec.

Lemma wp_disk_read bn (Q : list Z -> BufferManager -> Prop) E s :
  0 <= bn < 2 ^ 57 ->
  Q (default [] (fs_disk s !! Z.to_nat bn)) s ->
  wp (on_disk (VirtualDisk.read_block bn)) Q E s.
Proof.
  intros Hbn HQ. unfold on_disk. apply wp_zoom. unfold wp.
  rewrite read_block_ok by assumption. destruct s. exact HQ.
Qed.

(** The page [load_into] leaves in slot [i], and the rest of the state. *)
Lemma load_into_exact i p name block pid s E :
  pages s !! i = Some p -> 0 <= block < 2 ^ 57 ->
  wp (load_into i name block pid)
     (fun r s' => exists p',
        r = (Some i, data p') /\ pages s' = <[i := p']> (pages s)
        /\ is_valid p' = true /\ filename p' = name /\ block_num p' = block
        /\ is_dirty p' = false
        /\ lru_order s' = (if bool_decide (i ∈ lru_order s)
                           then remove_key i (lru_order s) ++ [i]
                           else lru_order s ++ [i])
        /\ fs_disk s' = fs_disk s /\ writeback_count s' = writeback_count s
        /\ data p' = default [] (fs_disk s !! Z.to_nat block))
     E s.
Proof.
  intros Hp Hb. unfold load_into. wp_step. apply wp_disk_read; [assumption|].
  bstep. rewrite Hp. bstep. bsimpl.
  destruct (bool_decide (i ∈ lru_order s)); bsimpl;
    rewrite !list_alter_alter_eq, (alter_as_insert _ _ _ _ Hp);
    (eexists; split; [|split; [reflexivity|]]);
    destruct p; cbn; repeat split.
Qed.

Lemma load_miss_free name block pid s i p E :
  list_find (fun page => caches name block page = true) (pages s) = None ->
  list_find (fun page => is_valid page = false) (pages s) = Some (i, p) ->
  0 <= block < 2 ^ 57 ->
  wp (load_block name block pid)
     (fun r s' => exists p',
        r = (Some i, data p') /\ pages s' = <[i := p']> (pages s)
        /\ is_valid p' = true /\ filename p' = name /\ block_num p' = block
        /\ is_dirty p' = false
        /\ lru_order s' = (if bool_decide (i ∈ lru_order s)
                           then remove_key i (lru_order s) ++ [i]
                           else lru_order s ++ [i])
        /\ fs_disk s' = fs_disk s /\ writeback_count s' = writeback_count s
        /\ data p' = default [] (fs_disk s !! Z.to_nat block))
     E s.
Proof.
  intros Hfind Hfree Hb. unfold load_block. wp_step. wp_step. rewrite Hfind.
  wp_step. wp_step. wp_step. unfold choose_page. bstep. bsimpl. rewrite Hfree.
  change (fst <$> Some (i, p)) with (Some i). cbv iota. wp_step.
  apply list_find_Some in Hfree. destruct Hfree as (Hp & _).
  eapply wp_mono; [apply (load_into_exact i p); eassumption| |intros ? HE; exact HE].
  cbv beta. intros r s' H. bsimpl. exact H.
Qed.

Lemma remove_key_notin i l : i ∉ l -> remove_key i l = l.
Proof.
  intros Hi. unfold remove_key. induction l as [|x l IH]; [reflexivity|].
  rewrite filter_cons. apply not_elem_of_cons in Hi. destruct Hi as [Hx Hl].
  destruct (decide (x <> i)) as [_|Hn]; [rewrite IH by assumption; reflexivity|].
  exfalso. apply Hn. congruence.
Qed.

Lemma remove_key_head i l : i ∉ l -> remove_key i (i :: l) = l.
Proof.
  intros Hi. unfold remove_key. rewrite filter_cons.
  destruct (decide (i <> i)) as [Hn|_]; [congruence|]. apply remove_key_notin. assumption.
Qed.

Lemma wp_disk_write_exact bn dt (Q : unit -> BufferManager -> Prop) E s :
  0 <= bn < 2 ^ 57 ->
  Q tt (set_fs_disk (VirtualDisk.file_write (fs_disk s) (bn * BLOCK_SIZE)
                       (ljust BLOCK_SIZE (slice 0 BLOCK_SIZE dt))) s) ->
  wp (on_disk (VirtualDisk.write_block bn dt)) Q E s.
Proof.
  intros Hbn HQ. unfold on_disk. apply wp_zoom. unfold wp.
  rewrite write_block_ok by assumption. exact HQ.
Qed.

Lemma evict_exact i p rest s E :
  pages s !! i = Some p -> is_valid p = true -> 0 <= block_num p < 2 ^ 57 ->
  lru_order s = i :: rest -> i ∉ rest ->
  wp (_evict_page i)
     (fun _ s' => exists p',
        pages s' = <[i := p']> (pages s) /\ is_valid p' = false
        /\ lru_order s' = rest
        /\ (if is_dirty p
            then fs_disk s' = VirtualDisk.file_write (fs_disk s)
                   (block_num p * BLOCK_SIZE)
                   (ljust BLOCK_SIZE (slice 0 BLOCK_SIZE (data p)))
                 /\ writeback_count s' = writeback_count s + 1
            else fs_disk s' = fs_disk s /\ writeback_count s' = writeback_count s))
     E s.
Proof.
  intros Hp Hv Hbn Hlru Hni. unfold _evict_page. bstep. rewrite Hp. repeat wp_step.
  rewrite Hv. cbn [negb]. repeat wp_step.
  assert (Hmem : bool_decide (i ∈ i :: rest) = true)
    by (apply bool_decide_eq_true; left).
  destruct (is_dirty p).
  - repeat wp_step. apply wp_disk_write_exact; [assumption|].
    bstep. bsimpl. rewrite Hlru, Hmem. bsimpl.
    rewrite !list_alter_alter_eq, (alter_as_insert _ _ _ _ Hp), remove_key_head by assumption.
    eexists. split; [reflexivity|]. destruct p; cbn. repeat split.
  - repeat wp_step. bsimpl. rewrite Hlru, Hmem. bsimpl.
    rewrite !list_alter_alter_eq, (alter_as_insert _ _ _ _ Hp), remove_key_head by assumption.
    eexists. split; [reflexivity|]. destruct p; cbn. repeat split.
Qed.

Lemma load_miss_evict name block pid s i p rest E :
  list_find (fun page => caches name block page = true) (pages s) = None ->
  list_find (fun page => is_valid page = false) (pages s) = None ->
  lru_order s = i :: rest -> i ∉ rest ->
  pages s !! i = Some p -> 0 <= block_num p < 2 ^ 57 ->
  0 <= block < 2 ^ 57 ->
  wp (load_block name block pid)
     (fun r s' => exists p',
        r = (Some i, data p') /\ pages s' = <[i := p']> (pages s)
        /\ is_valid p' = true /\ filename p' = name /\ block_num p' = block
        /\ is_dirty p' = false
        /\ lru_order s' = rest ++ [i]
        /\ (if is_dirty p
            then fs_disk s' = VirtualDisk.file_write (fs_disk s)
                   (block_num p * BLOCK_SIZE)
                   (ljust BLOCK_SIZE (slice 0 BLOCK_SIZE (data p)))
                 /\ writeback_count s' = writeback_count s + 1
            else fs_disk s' = fs_disk s /\ writeback_count s' = writeback_count s)
        /\ data p' = default [] (fs_disk s' !! Z.to_nat block))
     E s.
Proof.
  intros Hfind Hfree Hlru Hni Hp Hbn Hb.
  assert (Hv : is_valid p = true).
  { rewrite list_find_None, Forall_lookup in Hfree.
    specialize (Hfree i p Hp). destruct (is_valid p); [reflexivity|congruence]. }
  unfold load_block. wp_step. wp_step. rewrite Hfind.
  wp_step. wp_step. wp_step. unfold choose_page. bstep. bsimpl. rewrite Hfree.
  change (fst <$> @None (nat * BufferPage)) with (@None nat). cbv iota.
  bstep. bsimpl. rewrite Hlru. cbn [list.head]. wp_step.
  eapply wp_mono; [apply (evict_exact i p rest); bsimpl; eassumption| |intros ? HE; exact HE].
  cbv beta. intros _ s1 (pc & Hpg & Hvc & Hl1 & Hdisk). bsimpl. wp_step.
  assert (Hpc : pages s1 !! i = Some pc).
  { rewrite Hpg. apply list_lookup_insert_eq. eapply lookup_lt_Some; eassumption. }
  eapply wp_mono; [apply (load_into_exact i pc); eassumption| |intros ? HE; exact HE].
  cbv beta. intros r s2 (p' & Hr & Hpg2 & Hv2 & Hn2 & Hb2 & Hd2 & Hl2 & Hdk2 & Hwb2 & Hdt2).
  exists p'. split; [assumption|]. split.
  { rewrite Hpg2, Hpg. apply list_insert_insert_eq. }
  repeat (split; [assumption|]). split.
  { rewrite Hl2, Hl1. rewrite bool_decide_eq_false_2 by assumption. reflexivity. }
  rewrite Hdk2, Hwb2. split; [exact Hdisk|exact Hdt2].
Qed.

Lemma holds_not_caches a b p :
  holds a p -> key a <> key b -> caches (a_name b) (a_block b) p = false.
Proof.
  intros (_ & Hn & Hb & _) Hk. unfold caches.
  destruct (is_valid p); [|reflexivity]. cbn [andb].
  destruct (Z.eqb_spec (block_num p) (a_block b)) as [He|]; [|reflexivity].
  cbn [andb]. apply bool_decide_eq_false. intros Hf. apply Hk.
  unfold key. congruence.
Qed.

Lemma filled_no_cache n d done s b :
  filled n d done s -> key b ∉ map key done ->
  list_find (fun page => caches (a_name b) (a_block b) page = true) (pages s) = None.
Proof.
  intros (Hlen & _ & _ & _ & Hdone & Hfree) Hb.
  apply list_find_None, Forall_lookup. intros i p Hp.
  destruct (decide (i < length done)%nat) as [Hi|Hi].
  - destruct (lookup_lt_is_Some_2 done i Hi) as [a Ha].
    destruct (Hdone i a Ha) as (p0 & Hp0 & Hh).
    assert (p0 = p) by congruence. subst p0.
    rewrite (holds_not_caches a b p Hh); [discriminate|].
    intros Hk. apply Hb. rewrite <- Hk. apply list_elem_of_fmap_2.
    eapply list_elem_of_lookup_2. eassumption.
  - unfold caches. rewrite (Hfree i p) by (assumption || lia). discriminate.
Qed.

Lemma filled_first_free n d done s :
  filled n d done s -> (length done < n)%nat ->
  exists p, list_find (fun page => is_valid page = false) (pages s)
            = Some (length done, p).
Proof.
  intros (Hlen & _ & _ & _ & Hdone & Hfree) Hk.
  destruct (lookup_lt_is_Some_2 (pages s) (length done)) as [p Hp]; [lia|].
  exists p. apply list_find_Some. split; [assumption|].
  split; [apply (Hfree (length done) p); [lia|assumption]|].
  intros j q Hq Hj. destruct (lookup_lt_is_Some_2 done j Hj) as [a Ha].
  destruct (Hdone j a Ha) as (q0 & Hq0 & Hv & _).
  assert (q0 = q) by congruence. subst q0. congruence.
Qed.

Lemma filled_snoc n d done s a s' p' :
  filled n d done s -> (length done < n)%nat ->
  pages s' = <[length done := p']> (pages s) -> holds a p' ->
  lru_order s' = lru_order s ++ [length done] ->
  fs_disk s' = fs_disk s -> writeback_count s' = writeback_count s ->
  filled n d (done ++ [a]) s'.
Proof.
  intros (Hlen & Hlru & Hd & Hwb & Hdone & Hfree) Hk Hpg Hh Hl' Hd' Hwb'.
  unfold filled. rewrite Hpg, length_insert, length_app. cbn [length].
  split; [assumption|]. split.
  { rewrite Hl', Hlru, Nat.add_1_r, seq_S. reflexivity. }
  split; [congruence|]. split; [congruence|]. split.
  - intros i b Hb. destruct (decide (i = length done)) as [->|Hi].
    + rewrite list_lookup_insert_eq by lia.
      rewrite lookup_app_r, Nat.sub_diag in Hb by lia. injection Hb as <-. eauto.
    + rewrite list_lookup_insert_ne by congruence.
      apply Hdone. rewrite lookup_app_l in Hb; [assumption|].
      apply lookup_lt_Some in Hb. rewrite length_app in Hb. cbn in Hb. lia.
  - intros i p Hi Hp. rewrite list_lookup_insert_ne in Hp by lia.
    apply (Hfree i p); [lia|assumption].
Qed.

Lemma perform_fills n d done s a pid :
  filled n d done s -> (length done < n)%nat ->
  key a ∉ map key done -> in_range a ->
  wp (perform pid a) (fun _ s' => filled n d (done ++ [a]) s') (fun _ => False) s.
Proof.
  intros Hf Hk Hkey Hr.
  pose proof (filled_no_cache n d done s a Hf Hkey) as Hfind.
  destruct (filled_first_free n d done s Hf Hk) as (p & Hfree).
  assert (Hnl : bool_decide (length done ∈ lru_order s) = false).
  { apply bool_decide_eq_false. destruct Hf as (_ & -> & _).
    rewrite elem_of_seq. lia. }
  unfold perform. destruct (a_data a) as [dt|] eqn:Hdata.
  - wp_step. unfold write_block. wp_step.
    eapply wp_mono; [apply (load_miss_free _ _ _ _ _ _ _ Hfind Hfree Hr)| |intros ? HE; exact HE].
    cbv beta.
    intros r s1 (p1 & -> & Hpg & Hv & Hn & Hb & Hdt & Hl & Hdk & Hwb & _). cbn [fst].
    assert (Hp1 : pages s1 !! length done = Some p1).
    { rewrite Hpg. apply list_lookup_insert_eq. destruct Hf as (-> & _). assumption. }
    bstep. rewrite Hp1. bstep.
    eapply (filled_snoc n d done s a); try eassumption; bsimpl.
    + rewrite !list_alter_alter_eq, (alter_as_insert _ _ _ _ Hp1), Hpg.
      apply list_insert_insert_eq.
    + unfold holds. rewrite Hdata. destruct p1; cbn in *. auto.
    + rewrite Hl, Hnl. reflexivity.
  - wp_step.
    eapply wp_mono; [apply (load_miss_free _ _ _ _ _ _ _ Hfind Hfree Hr)| |intros ? HE; exact HE].
    cbv beta.
    intros r s1 (p1 & -> & Hpg & Hv & Hn & Hb & Hdt & Hl & Hdk & Hwb & _).
    wp_step. eapply (filled_snoc n d done s a); try eassumption.
    + unfold holds. rewrite Hdata. auto.
    + rewrite Hl, Hnl. reflexivity.
Qed.

Lemma fill_all n d pid todo :
  forall done s,
    filled n d done s -> (length done + length todo <= n)%nat ->
    NoDup (map key (done ++ todo)) -> Forall in_range todo ->
    wp (for_each todo (perform pid))
       (fun _ s' => filled n d (done ++ todo) s') (fun _ => False) s.
Proof.
  induction todo as [|a todo IH]; intros done s Hf Hlen Hnd Hr; cbn [for_each].
  - wp_step. rewrite app_nil_r. assumption.
  - cbn [length] in Hlen. apply list.Forall_cons in Hr. destruct Hr as [Ha Hr].
    wp_step. eapply wp_mono; [apply (perform_fills n d done s a pid)| |intros ? HE; exact HE].
    + assumption.
    + lia.
    + rewrite fmap_app in Hnd. apply list.NoDup_app in Hnd.
      destruct Hnd as (_ & Hdisj & _). intros Hin.
      apply (Hdisj (key a) Hin). rewrite fmap_cons. left.
    + assumption.
    + cbv beta. intros _ s' Hf'.
      replace (done ++ a :: todo) with ((done ++ [a]) ++ todo)
        by (rewrite <- app_assoc; reflexivity).
      apply IH; try assumption.
      * rewrite length_app. cbn [length]. lia.
      * rewrite <- app_assoc. assumption.
Qed.

Lemma new_filled d n now :
  (0 <= n) -> filled (Z.to_nat n) d [] (new d n now).
Proof.
  intros Hn. unfold filled, new. cbn [pages lru_order fs_disk writeback_count length].
  assert (Hl : forall k a, length (range_from a k) = k).
  { induction k as [|k IH]; intros a; cbn; [reflexivity|]. rewrite IH. reflexivity. }
  split.
  { rewrite length_fmap. unfold range. rewrite Hl. f_equal. lia. }
  repeat split; try reflexivity.
  - intros i a Ha. discriminate.
  - intros i p _ Hp. apply list_lookup_fmap_Some in Hp.
    destruct Hp as (k & -> & _). reflexivity.
Qed.

Lemma file_write_read f n dt :
  0 <= n -> VirtualDisk.file_write f (n * BLOCK_SIZE) dt !! Z.to_nat n = Some dt.
Proof.
  intros Hn. unfold VirtualDisk.file_write, BLOCK_SIZE. rewrite Z.div_mul by lia.
  destruct (decide _) as [Hlt|Hge].
  - apply list_lookup_insert_eq. assumption.
  - rewrite lookup_app_r; rewrite length_fmap; [|lia].
    rewrite lookup_app_r; rewrite length_replicate; [|lia].
    replace (Z.to_nat n - length f - (Z.to_nat n - length f))%nat with 0%nat by lia.
    reflexivity.
Qed.

Lemma len_slice_0 {A} n (l : list A) : 0 <= n -> len (slice 0 n l) <= n.
Proof.
  intros Hn. unfold len, slice. cbn [Z.to_nat drop]. rewrite length_take. lia.
Qed.

Lemma pad_block_idem w :
  ljust BLOCK_SIZE (slice 0 BLOCK_SIZE (ljust BLOCK_SIZE (slice 0 BLOCK_SIZE w)))
  = ljust BLOCK_SIZE (slice 0 BLOCK_SIZE w).
Proof.
  assert (Hb : 0 <= BLOCK_SIZE) by (unfold BLOCK_SIZE; lia).
  pose proof (len_ljust BLOCK_SIZE (slice 0 BLOCK_SIZE w)
                (len_slice_0 BLOCK_SIZE w Hb)) as Hl.
  rewrite (slice_0_ge BLOCK_SIZE (ljust _ _)) by lia.
  unfold ljust at 1. rewrite Hl, Z.sub_diag. cbn. apply app_nil_r.
Qed.

(** C7: over a backing file [d] of any size, after [BUFFER_SIZE]
    accesses (loads or writes) of distinct (filename, block) pairs on a
    new pool, loading one more distinct pair takes page 0, the page of
    the first access and the least recently touched one: that page now
    caches the new block, the other pages are as they were, no page
    caches the first pair any more, and page 0 is the most recent of the
    LRU order.  If the first access wrote (the page was dirty), its
    bytes are on the disk and one write-back is counted, and the new
    page is read from the disk after that write; if it only loaded, the
    disk is untouched and nothing is counted.  The disk is still the
    content of a file. *)
Theorem lru_evicts_first (d : list (list Z)) (now pid : Z)
    (first : access) (rest : list access) (last : access) :
  DiskSpec.file_image d = true ->
  length rest = 15%nat ->
  NoDup (map key (first :: rest ++ [last])) ->
  Forall in_range (first :: rest ++ [last]) ->
  exists s16 s17 p0 p,
    for_each (first :: rest) (perform pid) (new d BUFFER_SIZE now) = Ret tt s16
    /\ pages s16 !! 0%nat = Some p0 /\ holds first p0
    /\ lru_order s16 = seq 0 16
    /\ load_block (a_name last) (a_block last) pid s16 = Ret (Some 0%nat, data p) s17
    /\ pages s17 = <[0%nat := p]> (pages s16)
    /\ is_valid p = true /\ is_dirty p = false
    /\ filename p = a_name last /\ block_num p = a_block last
    /\ data p = default [] (fs_disk s17 !! Z.to_nat (a_block last))
    /\ list_find (fun page => caches (a_name first) (a_block first) page = true)
         (pages s17) = None
    /\ lru_order s17 = seq 1 15 ++ [0%nat]
    /\ match a_data first with
       | None => writeback_count s17 = 0 /\ fs_disk s17 = d
       | Some w =>
           writeback_count s17 = 1
           /\ fs_disk s17
              = VirtualDisk.file_write d (a_block first * BLOCK_SIZE)
                  (ljust BLOCK_SIZE (slice 0 BLOCK_SIZE w))
           /\ VirtualDisk.read_block (a_block first) (fs_disk s17)
              = Ret (ljust BLOCK_SIZE (slice 0 BLOCK_SIZE w)) (fs_disk s17)
       end
    /\ DiskSpec.file_image (fs_disk s17) = true.
Proof.
  intros Himg Hlen Hnd Hr.
  change (first :: rest ++ [last]) with ((first :: rest) ++ [last]) in Hnd, Hr.
  rewrite fmap_app in Hnd. apply list.NoDup_app in Hnd.
  destruct Hnd as (Hnd & Hdisj & _).
  apply Forall_app in Hr. destruct Hr as [Hr Hlast].
  apply Forall_inv in Hlast.
  assert (Hfill : wp (for_each (first :: rest) (perform pid))
                    (fun _ s' => filled 16 d ([] ++ first :: rest) s')
                    (fun _ => False) (new d BUFFER_SIZE now)).
  { apply fill_all.
    - apply (new_filled d 16 now). lia.
    - cbn [length]. lia.
    - exact Hnd.
    - exact Hr. }
  apply wp_returns in Hfill. destruct Hfill as ([] & s16 & Hrun & Hf).
  cbn [app] in Hf.
  assert (Hf' := Hf). destruct Hf' as (Hpl & Hlru & Hdk & Hwb & Hdone & _).
  cbn [length] in Hlru. rewrite Hlen in Hlru.
  destruct (Hdone 0%nat first eq_refl) as (p0 & Hp0 & Hh0).
  assert (Hfind : list_find (fun page => caches (a_name last) (a_block last) page = true)
                    (pages s16) = None).
  { apply (filled_no_cache 16 d (first :: rest) s16 last Hf).
    intros Hin. apply (Hdisj (key last) Hin). left. }
  assert (Hfull : list_find (fun page => is_valid page = false) (pages s16) = None).
  { apply list_find_None, Forall_lookup. intros i q Hq.
    assert (Hi : (i < length (first :: rest))%nat).
    { cbn [length]. rewrite Hlen, <- Hpl. eapply lookup_lt_Some. eassumption. }
    destruct (lookup_lt_is_Some_2 _ _ Hi) as [a Ha].
    destruct (Hdone i a Ha) as (q0 & Hq0 & Hv & _).
    assert (q0 = q) by congruence. subst q0. rewrite Hv. discriminate. }
  assert (Hb0 : 0 <= block_num p0 < 2 ^ 57).
  { destruct Hh0 as (_ & _ & -> & _). apply list.Forall_cons in Hr. apply Hr. }
  assert (Hni : 0%nat ∉ seq 1 15).
  { rewrite elem_of_seq. lia. }
  pose proof (load_miss_evict (a_name last) (a_block last) pid s16 0%nat p0 (seq 1 15)
                (fun _ => False) Hfind Hfull Hlru Hni Hp0 Hb0 Hlast) as Hload.
  apply wp_returns in Hload.
  destruct Hload as (r & s17 & Hrun2 & p & -> & Hpg & Hv & Hn & Hb & Hdt & Hl & Hdisk & Hdata).
  exists s16, s17, p0, p.
  split; [exact Hrun|]. split; [exact Hp0|]. split; [exact Hh0|].
  split; [exact Hlru|]. split; [exact Hrun2|]. split; [exact Hpg|].
  split; [exact Hv|]. split; [exact Hdt|]. split; [exact Hn|]. split; [exact Hb|].
  split; [exact Hdata|]. split.
  { apply list_find_None, Forall_lookup. intros i q Hq. rewrite Hpg in Hq.
    assert (Hc : caches (a_name first) (a_block first) q = false); [|rewrite Hc; discriminate].
    destruct (decide (i = 0%nat)) as [->|Hi].
    - rewrite list_lookup_insert_eq in Hq by (rewrite Hpl; lia). injection Hq as <-.
      apply (holds_not_caches {| a_name := a_name last; a_block := a_block last;
                                 a_data := None |} first p).
      + unfold holds. cbn. auto.
      + intros Hk. apply (Hdisj (key first)); [left|].
        rewrite <- Hk. left.
    - rewrite list_lookup_insert_ne in Hq by congruence.
      assert (Hi' : (i < length (first :: rest))%nat).
      { cbn [length]. rewrite Hlen, <- Hpl. eapply lookup_lt_Some. eassumption. }
      destruct (lookup_lt_is_Some_2 _ _ Hi') as [a Ha].
      destruct (Hdone i a Ha) as (q0 & Hq0 & Hh).
      assert (q0 = q) by congruence. subst q0.
      apply (holds_not_caches a first q Hh). intros Hk.
      apply Hi. apply (NoDup_lookup _ i 0%nat (key a) Hnd).
      * rewrite list_lookup_fmap, Ha. reflexivity.
      * rewrite Hk. reflexivity. }
  split; [exact Hl|].
  destruct Hh0 as (_ & _ & Hblk & Hdirty).
  apply list.Forall_cons in Hr. destruct Hr as [Hfr _].
  destruct (a_data first) as [w|].
  - destruct Hdirty as [Hd1 Hd2]. rewrite Hd1 in Hdisk. destruct Hdisk as [Hdk' Hwb'].
    rewrite Hd2, pad_block_idem, Hblk, Hdk in Hdk'. rewrite Hwb in Hwb'.
    split; [split; [lia|split; [exact Hdk'|]]|].
    + rewrite read_block_ok by exact Hfr. rewrite Hdk' at 1.
      rewrite file_write_read by apply Hfr. reflexivity.
    + rewrite Hdk'. apply file_image_write; [apply Hfr|exact Himg|].
      apply len_ljust. apply len_slice_0. unfold BLOCK_SIZE. lia.
  - rewrite Hdirty in Hdisk. destruct Hdisk as [Hdk' Hwb'].
    split; [split; congruence|]. rewrite Hdk', Hdk. exact Himg.
Qed.

Lemma lru_evicts_first_witness :
  exists s16 s17 p,
    for_each ({| a_name := [102]; a_block := 35; a_data := Some [1; 2; 3] |}
                :: loads [102] (range 36 51))
      (perform 7) (new DiskSpec.blank BUFFER_SIZE 0) = Ret tt s16
    /\ load_block [102] 51 7 s16 = Ret (Some 0%nat, data p) s17
    /\ lru_order s17 = seq 1 15 ++ [0%nat]
    /\ writeback_count s17 = 1
    /\ VirtualDisk.read_block 35 (fs_disk s17)
       = Ret (ljust BLOCK_SIZE [1; 2; 3]) (fs_disk s17).
Proof.
  destruct (lru_evicts_first DiskSpec.blank 0 7
              {| a_name := [102]; a_block := 35; a_data := Some [1; 2; 3] |}
              (loads [102] (range 36 51))
              {| a_name := [102]; a_block := 51; a_data := None |})
    as (s16 & s17 & p0 & p & Hrun & _ & _ & _ & Hload & _ & _ & _ & _ & _ & _ & _
        & Hlru & (Hwb & _ & Hread) & _).
  - vm_compute. reflexivity.
  - reflexivity.
  - apply (bool_decide_unpack _). vm_compute. exact I.
  - apply (bool_decide_unpack _). vm_compute. exact I.
  - exists s16, s17, p. repeat (split; [assumption|]). exact Hread.
Defined.

End LruEviction.

(** * Reference counts *)

Ltac fsimpl :=
  cbn [FS.set_disk FS.set_superblock FS.set_bitmap FS.set_inodes FS.set_clock
       disk superblock bitmap inodes clock fst snd] in *.

Section RefCounts.
Import FS FsSpec.

Lemma keeps_bind {A B} (m : M FileSystem A) (k : A -> M FileSystem B) P Q :
  keeps m P -> (forall a, P a -> keeps (k a) Q) -> keeps (bind m k) Q.
Proof.
  intros Hm Hk s Hs. apply wp_bind. eapply wp_mono; [apply Hm; assumption| |auto].
  cbv beta. intros a s' [Hs' Ha]. apply Hk; assumption.
Qed.

Lemma keeps_ret {A} (a : A) (P : A -> Prop) : P a -> keeps (ret a) P.
Proof. intros Ha s Hs. apply wp_ret. auto. Qed.

Lemma keeps_raise {A} e (P : A -> Prop) : keeps (raise e) P.
Proof. intros s Hs. apply wp_raise. assumption. Qed.

Lemma keeps_get : keeps get ref_counts_ok.
Proof. intros s Hs. apply wp_get. auto. Qed.

Lemma keeps_lift_result {A} (r : result A) : keeps (lift_result r) (fun _ => True).
Proof. intros s Hs. apply wp_lift_result. destruct r; auto. Qed.

Lemma keeps_modify (f : FileSystem -> FileSystem) :
  (forall s, ref_counts_ok s -> ref_counts_ok (f s)) -> keeps (modify f) (fun _ => True).
Proof. intros Hf s Hs. apply wp_modify. auto. Qed.

Lemma wp_any {S A} (m : M S A) (Q : A -> S -> Prop) (E : S -> Prop) s :
  (forall a s', Q a s') -> (forall s', E s') -> wp m Q E s.
Proof. intros HQ HE. unfold wp. destruct (m s); auto. Qed.

Lemma keeps_on_disk {A} (m : M disk_file A) : keeps (on_disk m) (fun _ => True).
Proof.
  intros s Hs. unfold on_disk. apply wp_zoom. apply wp_any; intros; fsimpl; auto.
Qed.

Lemma keeps_on_bitmap {A} (m : M Bitmap A) : keeps (on_bitmap m) (fun _ => True).
Proof.
  intros s Hs. unfold on_bitmap. apply wp_zoom. apply wp_any; intros; fsimpl; auto.
Qed.

Lemma keeps_time_time : keeps time_time (fun _ => True).
Proof. intros s Hs. unfold time_time. repeat wp_step. auto. Qed.

Lemma keeps_update_superblock f : keeps (update_superblock f) (fun _ => True).
Proof. apply keeps_modify. auto. Qed.

Lemma keeps_inode_at i : keeps (inode_at i) (fun n => 0 <= ref_count n).
Proof.
  intros s Hs. unfold inode_at. wp_step. wp_step.
  destruct (inodes s !! i) as [n|] eqn:Hn; wp_step; [|assumption].
  split; [assumption|]. unfold ref_counts_ok in Hs. rewrite Forall_lookup in Hs.
  eapply Hs. eassumption.
Qed.

Lemma keeps_update_inode i f :
  (forall n, 0 <= ref_count n -> 0 <= ref_count (f n)) ->
  keeps (update_inode i f) (fun _ => True).
Proof.
  intros Hf. apply keeps_modify. intros s Hs. unfold ref_counts_ok in *. fsimpl.
  apply Forall_alter; [assumption|]. intros n _. apply Hf.
Qed.

Lemma keeps_update_inode_any i f :
  (forall n, 0 <= ref_count (f n)) -> keeps (update_inode i f) (fun _ => True).
Proof.
  intros Hf. apply keeps_modify. intros s Hs. unfold ref_counts_ok in *. fsimpl.
  rewrite Forall_lookup in *. intros j n Hj.
  destruct (decide (j = i)) as [->|Hne].
  - destruct (inodes s !! i) as [n0|] eqn:Hi.
    + rewrite list_lookup_alter_eq, Hi in Hj. injection Hj as <-. apply Hf.
    + rewrite list_lookup_alter_eq, Hi in Hj. discriminate.
  - rewrite list_lookup_alter_ne in Hj by congruence. eauto.
Qed.

Lemma keeps_for_each {A} (l : list A) (body : A -> M FileSystem unit) :
  (forall x, keeps (body x) (fun _ => True)) -> keeps (for_each l body) (fun _ => True).
Proof.
  intros Hbody. induction l as [|x l IH]; cbn [for_each].
  - apply keeps_ret. exact I.
  - eapply keeps_bind; [apply Hbody|]. intros _ _. exact IH.
Qed.

(** One step of a preservation proof: split a bind, close a leaf, or
    split on the test of a conditional. *)
Ltac keep_leaf :=
  first
    [ apply (keeps_ret _ (fun _ => True) I)
    | apply keeps_raise
    | apply keeps_on_disk
    | apply keeps_on_bitmap
    | apply keeps_time_time
    | apply keeps_update_superblock
    | apply keeps_lift_result
    | apply keeps_update_inode; intros [] ?; cbn; assumption
    | apply keeps_update_inode_any; intros []; cbn; lia ].

Ltac keep_step :=
  idtac;
  lazymatch goal with
  | |- keeps (bind _ _) _ => eapply keeps_bind; [|intros ? ?]
  | |- keeps (if ?b then _ else _) _ => destruct b eqn:?
  | |- keeps (match ?x with _ => _ end) _ => destruct x eqn:?
  | |- keeps (for_each _ _) _ => apply keeps_for_each; intros ?
  | |- keeps _ _ => keep_leaf
  end.

Lemma keeps__save_inodes : keeps _save_inodes (fun _ => True).
Proof.
  unfold _save_inodes. apply keeps_for_each. intros i.
  eapply keeps_bind; [apply keeps_get|]. intros s _. repeat keep_step.
Qed.

Lemma keeps__save_bitmap : keeps _save_bitmap (fun _ => True).
Proof.
  unfold _save_bitmap. eapply keeps_bind; [apply keeps_get|]. intros s _.
  repeat keep_step.
Qed.

Lemma keeps_save_superblock : keeps save_superblock (fun _ => True).
Proof.
  unfold save_superblock. eapply keeps_bind; [apply keeps_get|]. intros s _.
  repeat keep_step.
Qed.

Lemma keeps_save_metadata : keeps save_metadata (fun _ => True).
Proof.
  unfold save_metadata, add_free_inodes.
  eapply keeps_bind; [apply keeps__save_inodes|]. intros _ _.
  eapply keeps_bind; [apply keeps__save_bitmap|]. intros _ _.
  eapply keeps_bind; [apply keeps_on_bitmap|]. intros n _.
  eapply keeps_bind; [apply keeps_update_superblock|]. intros _ _.
  apply keeps_save_superblock.
Qed.

Lemma keeps__find_inode name : keeps (_find_inode name) (fun _ => True).
Proof.
  unfold _find_inode. eapply keeps_bind; [apply keeps_get|]. intros s _.
  apply keeps_ret. exact I.
Qed.

Lemma keeps_allocate_inode_scan l : keeps (allocate_inode_scan l) (fun _ => True).
Proof.
  induction l as [|i l IH]; cbn [allocate_inode_scan].
  - apply keeps_ret. exact I.
  - eapply keeps_bind; [apply keeps_inode_at|]. intros n Hn.
    destruct (negb (is_used n)); [|exact IH].
    unfold add_free_inodes. repeat keep_step.
Qed.

Lemma keeps_write_index_block i indices :
  keeps (write_index_block i indices) (fun _ => True).
Proof.
  unfold write_index_block.
  eapply keeps_bind; [apply keeps_lift_result|]. intros b _.
  eapply keeps_bind; [apply keeps_inode_at|]. intros n _. apply keeps_on_disk.
Qed.

Lemma keeps_write_content pad content blocks :
  keeps (write_content pad content blocks) (fun _ => True).
Proof.
  unfold write_content. apply keeps_for_each. intros [i b]. apply keeps_on_disk.
Qed.

Lemma keeps_resolve_blocks n : keeps (resolve_blocks n) (fun _ => True).
Proof. unfold resolve_blocks. repeat keep_step. Qed.

Lemma keeps_create_allocate i k : keeps (create_allocate i k) (fun _ => True).
Proof. unfold create_allocate. repeat keep_step. Qed.

Lemma keeps_create_file name content perm :
  keeps (create_file name content perm) (fun _ => True).
Proof.
  unfold create_file. eapply keeps_bind; [apply keeps_get|]. intros s _.
  destruct (existsb _ _); [apply keeps_ret; exact I|].
  eapply keeps_bind; [apply keeps_allocate_inode_scan|]. intros [i|] _;
    [|apply keeps_ret; exact I].
  eapply keeps_bind; [apply keeps_create_allocate|]. intros [early|blocks] _;
    [apply keeps_ret; exact I|].
  eapply keeps_bind; [apply keeps_write_content|]. intros _ _.
  do 4 (eapply keeps_bind; [keep_leaf|]; intros _ _).
  eapply keeps_bind; [apply keeps_save_metadata|]. intros _ _.
  apply keeps_ret. exact I.
Qed.

Lemma keeps_write_shrink i k old ib : keeps (write_shrink i k old ib) (fun _ => True).
Proof.
  unfold write_shrink.
  repeat first [ apply keeps_write_index_block | keep_step ].
Qed.

Lemma keeps_write_grow i k old ib : keeps (write_grow i k old ib) (fun _ => True).
Proof.
  unfold write_grow. cbv zeta.
  repeat first [ apply keeps_write_index_block | keep_step ].
Qed.

Lemma keeps_write_file name content : keeps (write_file name content) (fun _ => True).
Proof.
  unfold write_file. eapply keeps_bind; [apply keeps__find_inode|]. intros [i|] _;
    [|apply keeps_ret; exact I].
  eapply keeps_bind; [apply keeps_inode_at|]. intros n Hn.
  destruct (_ =? 0); [apply keeps_ret; exact I|].
  destruct (_ >? 0); [apply keeps_ret; exact I|].
  eapply keeps_bind; [apply keeps_resolve_blocks|]. intros old _.
  eapply keeps_bind.
  { destruct (_ <=? _).
    - eapply keeps_bind; [apply keeps_write_shrink|]. intros b _.
      apply (keeps_ret _ (fun _ => True) I).
    - apply keeps_write_grow. }
  intros [early|blocks] _; [apply keeps_ret; exact I|].
  eapply keeps_bind; [apply keeps_write_content|]. intros _ _.
  eapply keeps_bind; [keep_leaf|]. intros _ _.
  eapply keeps_bind; [keep_leaf|]. intros t _.
  eapply keeps_bind; [keep_leaf|]. intros _ _.
  eapply keeps_bind; [apply keeps_save_metadata|]. intros _ _.
  apply keeps_ret. exact I.
Qed.

Lemma keeps_delete_file name : keeps (delete_file name) (fun _ => True).
Proof.
  unfold delete_file. eapply keeps_bind; [apply keeps__find_inode|]. intros [i|] _;
    [|apply keeps_ret; exact I].
  eapply keeps_bind; [apply keeps_inode_at|]. intros n Hn.
  destruct (_ >? 0); [apply keeps_ret; exact I|].
  eapply keeps_bind; [keep_leaf|]. intros _ _.
  eapply keeps_bind; [repeat keep_step|]. intros _ _.
  do 6 (eapply keeps_bind; [keep_leaf|]; intros _ _).
  unfold add_free_inodes.
  eapply keeps_bind; [keep_leaf|]. intros _ _.
  eapply keeps_bind; [apply keeps_save_metadata|]. intros _ _.
  apply keeps_ret. exact I.
Qed.

Lemma keeps_acquire_file name : keeps (acquire_file name) (fun _ => True).
Proof.
  unfold acquire_file. eapply keeps_bind; [apply keeps__find_inode|]. intros [i|] _;
    [|apply keeps_ret; exact I].
  eapply keeps_bind; [apply keeps_inode_at|]. intros n Hn.
  eapply keeps_bind.
  { cbv beta in Hn. apply keeps_update_inode_any. intros []. cbn. lia. }
  intros _ _. eapply keeps_bind; [apply keeps__save_inodes|]. intros _ _.
  apply keeps_ret. exact I.
Qed.

Lemma keeps_release_file name : keeps (release_file name) (fun _ => True).
Proof.
  unfold release_file. eapply keeps_bind; [apply keeps__find_inode|]. intros [i|] _;
    [|apply keeps_ret; exact I].
  eapply keeps_bind; [apply keeps_inode_at|]. intros n Hn.
  destruct (ref_count n >? 0) eqn:Hpos; [|apply keeps_ret; exact I].
  apply Z.gtb_lt in Hpos.
  eapply keeps_bind.
  { cbv beta in Hn. apply keeps_update_inode_any. intros []. cbn. lia. }
  intros _ _. eapply keeps_bind; [apply keeps__save_inodes|]. intros _ _.
  apply keeps_ret. exact I.
Qed.

Lemma keeps_state {A} (m : M FileSystem A) P s :
  keeps m P -> ref_counts_ok s -> ref_counts_ok (state_of (m s)).
Proof.
  intros Hm Hs. specialize (Hm s Hs). unfold wp in Hm.
  destruct (m s); cbn [state_of]; tauto.
Qed.

Lemma step_ref_counts o s : ref_counts_ok s -> ref_counts_ok (step o s).
Proof.
  intros Hs. unfold step. eapply (keeps_state _ (fun _ => True)); [|exact Hs].
  destruct o; cbn [run];
    (eapply keeps_bind; [|intros; apply (keeps_ret _ (fun _ => True) I)]).
  - apply keeps_create_file.
  - apply keeps_write_file.
  - apply keeps_delete_file.
  - apply keeps_acquire_file.
  - apply keeps_release_file.
Qed.

Lemma from_bytes_ref_count d slot : 0 <= ref_count (INodeCodec.from_bytes d slot).
Proof.
  unfold INodeCodec.from_bytes. destruct (len d <? 64); [cbn; lia|].
  match goal with |- context [match ?b with Ret _ _ => _ | Raise _ _ => _ end] =>
    assert (H : forall n u, b = Ret n u -> 0 <= ref_count n); [|destruct b; [eauto|cbn; lia]]
  end.
  intros n u. unfold rbind.
  repeat match goal with
         | |- context [match ?r with Ret _ _ => _ | Raise _ _ => _ end] =>
             destruct r as [? []|]; try discriminate
         | |- context [let '(_, _) := ?p in _] => destruct p
         end.
  intros [= <-]. cbn. apply Z.land_nonneg. right. lia.
Qed.

Lemma format_ref_counts now : ref_counts_ok (state_of (format_disk (new now))).
Proof.
  assert (Hk : keeps (modify (set_inodes (map INode_new (range 0 MAX_INODES))) ;;
                      _save_inodes ;;
                      _ <- on_bitmap BitmapOps.free_blocks_count ;;
                      ret tt) (fun _ => True)).
  { eapply keeps_bind.
    - apply keeps_modify. intros s _. unfold ref_counts_ok. fsimpl.
      apply Forall_fmap, Forall_forall. intros; cbn; lia.
    - intros _ _. eapply keeps_bind; [apply keeps__save_inodes|]. intros _ _.
      eapply keeps_bind; [apply keeps_on_bitmap|]. intros _ _.
      apply keeps_ret. exact I. }
  unfold format_disk.
  eapply (keeps_state _ (fun _ => True)); [|unfold ref_counts_ok; cbn; constructor].
  eapply keeps_bind; [apply keeps_on_disk|]. intros _ _.
  eapply keeps_bind; [apply keeps_modify; auto|]. intros _ _.
  eapply keeps_bind; [apply keeps_save_superblock|]. intros _ _.
  eapply keeps_bind; [apply keeps_on_bitmap|]. intros _ _.
  eapply keeps_bind; [apply keeps__save_bitmap|]. intros _ _.
  exact Hk.
Qed.

Lemma load_ref_counts s : ref_counts_ok (state_of (_load_inodes s)).
Proof.
  unfold _load_inodes, bind at 1, modify at 1.
  eapply (keeps_state _ (fun _ => True)); [|unfold ref_counts_ok; cbn; constructor].
  apply keeps_for_each. intros i.
  eapply keeps_bind; [apply keeps_on_disk|]. intros d _.
  apply keeps_modify. intros s' Hs'. unfold ref_counts_ok in *. fsimpl.
  apply Forall_app. split; [assumption|]. constructor; [|constructor].
  apply from_bytes_ref_count.
Qed.

Lemma reachable_ref_counts s : reachable s -> ref_counts_ok s.
Proof.
  induction 1 as [now|s|o s _ IH].
  - apply format_ref_counts.
  - apply load_ref_counts.
  - apply step_ref_counts. assumption.
Qed.

Lemma release_file_refused name s :
  (forall i n, list_find (fun inode => name_matches name inode = true) (inodes s)
               = Some (i, n) -> ref_count n <= 0) ->
  release_file name s = Ret false s.
Proof.
  intros H. unfold release_file, _find_inode, bind, get, ret.
  destruct (list_find _ (inodes s)) as [[i n]|] eqn:Hfind; [|reflexivity].
  cbn [fmap option_fmap option_map fst]. unfold inode_at, bind, get.
  pose proof (H i n eq_refl) as Hrc.
  apply list_find_Some in Hfind. destruct Hfind as (Hi & _). rewrite Hi.
  unfold ret. replace (ref_count n >? 0) with false; [reflexivity|].
  symmetry. rewrite Z.gtb_ltb. apply Z.ltb_ge. assumption.
Qed.

(** C10: in every reachable state every inode's [ref_count] is
    non-negative, whatever the operations did and whether they returned
    or raised; and [release_file] on a name that no used inode carries,
    or whose inode has no reference left, returns [False] and leaves the
    whole state as it was. *)
Theorem ref_count_never_negative (s : FileSystem) :
  reachable s ->
  Forall (fun n => 0 <= ref_count n) (inodes s)
  /\ forall name,
       (forall i n,
          list_find (fun inode => name_matches name inode = true) (inodes s)
          = Some (i, n) -> ref_count n = 0) ->
       release_file name s = Ret false s.
Proof.
  intros Hs. split; [exact (reachable_ref_counts s Hs)|].
  intros name H. apply release_file_refused. intros i n Hf.
  rewrite (H i n Hf). lia.
Qed.

Lemma ref_count_never_negative_witness :
  let s := step (OpRelease [97])
             (step (OpAcquire [97])
                (step (OpCreate [97] [1; 2; 3] 6) (state_of (format_disk (new 0))))) in
  reachable s
  /\ Forall (fun n => 0 <= ref_count n) (inodes s)
  /\ release_file [97] s = Ret false s.
Proof.
  intros s.
  assert (Hs : reachable s) by (do 3 apply reach_step; apply reach_format).
  destruct (ref_count_never_negative s Hs) as [Hrc Hrel].
  split; [exact Hs|]. split; [exact Hrc|]. apply Hrel.
  intros i n Hf. vm_compute in Hf. injection Hf as _ <-. reflexivity.
Defined.

End RefCounts.

(** * The bitmap *)

Section BitmapFacts.
Import BitmapOps BitmapSpec AllocSpec.

Lemma shaped_spec b :
  shaped b = true -> total_blocks b = 1024 /\ length (bits b) = 128%nat.
Proof.
  unfold shaped, TOTAL_BLOCKS. intros H. apply andb_true_iff in H. destruct H as [H1 H2].
  apply Z.eqb_eq in H1. apply bool_decide_eq_true in H2. auto.
Qed.

Lemma byte_index n : 0 <= n < 1024 -> (Z.to_nat (n / 8) < 128)%nat.
Proof. intros H. assert (0 <= n / 8 < 128) by zdm. lia. Qed.

Lemma byte_lookup b n :
  shaped b = true -> 0 <= n < 1024 -> exists x, bits b !! Z.to_nat (n / 8) = Some x.
Proof.
  intros Hs Hn. destruct (shaped_spec b Hs) as [_ Hl].
  apply lookup_lt_is_Some_2. rewrite Hl. apply byte_index. assumption.
Qed.

Lemma in_range_test b n :
  shaped b = true ->
  (0 <=? n) && (n <? total_blocks b) = true <-> 0 <= n < 1024.
Proof.
  intros Hs. destruct (shaped_spec b Hs) as [-> _].
  rewrite andb_true_iff, Z.leb_le, Z.ltb_lt. reflexivity.
Qed.

Lemma is_free_spec b n : shaped b = true -> is_free n b = Ret (free b n) b.
Proof.
  intros Hs. unfold is_free, free, bind, get.
  destruct ((0 <=? n) && (n <? total_blocks b)) eqn:Hr; [|reflexivity].
  apply (in_range_test b n Hs) in Hr. destruct (byte_lookup b n Hs Hr) as [x Hx].
  unfold load_bits, bind, get, lift_result, getitem, used. rewrite Hx.
  cbn [default negb andb ok ret]. unfold ret. f_equal.
  apply land_bit_eqb. zdm.
Qed.

Lemma set_used_spec b n :
  shaped b = true -> 0 <= n < 1024 -> set_used n b = Ret tt (mark_used n b).
Proof.
  intros Hs Hn. unfold set_used, bind, get.
  rewrite (proj2 (in_range_test b n Hs) Hn).
  destruct (byte_lookup b n Hs Hn) as [x Hx].
  unfold load_bits, store_bits, bind, get, lift_result, getitem, modify, mark_used.
  rewrite Hx. cbn [ok]. rewrite (alter_as_insert _ _ _ _ Hx). reflexivity.
Qed.

Lemma set_free_spec b n :
  shaped b = true -> 0 <= n < 1024 -> set_free n b = Ret tt (mark_free n b).
Proof.
  intros Hs Hn. unfold set_free, bind, get.
  rewrite (proj2 (in_range_test b n Hs) Hn).
  destruct (byte_lookup b n Hs Hn) as [x Hx].
  unfold load_bits, store_bits, bind, get, lift_result, getitem, modify, mark_free.
  rewrite Hx. cbn [ok]. rewrite (alter_as_insert _ _ _ _ Hx). reflexivity.
Qed.

Lemma shaped_mark_used n b : shaped b = true -> shaped (mark_used n b) = true.
Proof.
  unfold shaped, mark_used. cbn [total_blocks bits]. rewrite length_alter. auto.
Qed.

Lemma shaped_mark_free n b : shaped b = true -> shaped (mark_free n b) = true.
Proof.
  unfold shaped, mark_free. cbn [total_blocks bits]. rewrite length_alter. auto.
Qed.

Lemma same_bit n m :
  0 <= n -> 0 <= m -> n / 8 = m / 8 -> (n mod 8 =? m mod 8) = (m =? n).
Proof.
  intros Hn Hm Hd. destruct (Z.eqb_spec m n) as [->|Hne].
  - apply Z.eqb_refl.
  - apply Z.eqb_neq. intros Hmod. apply Hne.
    rewrite (Z.div_mod m 8), (Z.div_mod n 8) by lia. congruence.
Qed.

Lemma used_mark_used b n m :
  shaped b = true -> 0 <= n < 1024 -> 0 <= m < 1024 ->
  used (mark_used n b) m = used b m || (m =? n).
Proof.
  intros Hs Hn Hm. unfold used, mark_used. cbn [bits].
  destruct (decide (Z.to_nat (m / 8) = Z.to_nat (n / 8))) as [He|Hne].
  - rewrite He, list_lookup_alter_eq.
    destruct (byte_lookup b n Hs Hn) as [x ->]. cbn [fmap option_fmap option_map default]. unfold id.
    rewrite lor_bit by zdm. f_equal. apply same_bit; [lia|lia|].
    assert (0 <= m / 8) by zdm. assert (0 <= n / 8) by zdm. lia.
  - rewrite list_lookup_alter_ne by congruence.
    destruct (Z.eqb_spec m n) as [->|_]; [congruence|]. rewrite orb_false_r. reflexivity.
Qed.

Lemma used_mark_free b n m :
  shaped b = true -> 0 <= n < 1024 -> 0 <= m < 1024 ->
  used (mark_free n b) m = used b m && negb (m =? n).
Proof.
  intros Hs Hn Hm. unfold used, mark_free. cbn [bits].
  destruct (decide (Z.to_nat (m / 8) = Z.to_nat (n / 8))) as [He|Hne].
  - rewrite He, list_lookup_alter_eq.
    destruct (byte_lookup b n Hs Hn) as [x ->]. cbn [fmap option_fmap option_map default]. unfold id.
    rewrite land_lnot_bit by zdm. f_equal. f_equal. apply same_bit; [lia|lia|].
    assert (0 <= m / 8) by zdm. assert (0 <= n / 8) by zdm. lia.
  - rewrite list_lookup_alter_ne by congruence.
    destruct (Z.eqb_spec m n) as [->|_]; [congruence|]. rewrite andb_true_r. reflexivity.
Qed.

Lemma free_in_range b n : shaped b = true -> free b n = true -> 0 <= n < 1024.
Proof.
  intros Hs H. unfold free in H. apply andb_true_iff in H. destruct H as [H _].
  apply (in_range_test b n Hs). assumption.
Qed.

Lemma free_mark_used b n m :
  shaped b = true -> 0 <= n < 1024 ->
  free (mark_used n b) m = free b m && negb (m =? n).
Proof.
  intros Hs Hn. unfold free at 1 2. cbn [mark_used total_blocks].
  destruct ((0 <=? m) && (m <? total_blocks b)) eqn:Hr; [|reflexivity].
  apply (in_range_test b m Hs) in Hr. cbn [andb].
  change {| total_blocks := total_blocks b;
            bits := alter (fun x => Z.lor x (Z.shiftl 1 (n mod 8))) (Z.to_nat (n / 8)) (bits b) |}
    with (mark_used n b).
  rewrite used_mark_used by assumption. apply negb_orb.
Qed.

Lemma free_mark_free b n m :
  shaped b = true -> 0 <= n < 1024 -> 0 <= m < 1024 ->
  free (mark_free n b) m = free b m || (m =? n).
Proof.
  intros Hs Hn Hm. unfold free at 1 2. cbn [mark_free total_blocks].
  rewrite (proj2 (in_range_test b m Hs) Hm). cbn [andb].
  change {| total_blocks := total_blocks b;
            bits := alter (fun x => Z.land x (Z.lnot (Z.shiftl 1 (n mod 8))))
                      (Z.to_nat (n / 8)) (bits b) |}
    with (mark_free n b).
  rewrite used_mark_free by assumption. rewrite negb_andb, negb_involutive. reflexivity.
Qed.

(** ** Counting *)

Lemma count_nonneg f l : 0 <= count f l.
Proof. induction l as [|x l IH]; cbn [count]; [lia|]. destruct (f x); lia. Qed.

Lemma count_ext f g l : (forall x, x ∈ l -> f x = g x) -> count f l = count g l.
Proof.
  induction l as [|x l IH]; intros H; cbn [count]; [reflexivity|].
  rewrite (H x) by left. rewrite IH; [reflexivity|]. intros y Hy. apply H. right. assumption.
Qed.

Lemma count_flip f g l x :
  NoDup l -> x ∈ l -> f x = false -> g x = true ->
  (forall y, y ∈ l -> y <> x -> g y = f y) ->
  count g l = count f l + 1.
Proof.
  induction l as [|y l IH]; intros Hnd Hx Hf Hg Hother; [inversion Hx|].
  apply list.NoDup_cons in Hnd. destruct Hnd as [Hy Hnd]. cbn [count].
  destruct (decide (y = x)) as [->|Hne].
  - rewrite Hf, Hg. rewrite (count_ext g f l); [lia|].
    intros z Hz. apply Hother; [right; assumption|]. intros ->. contradiction.
  - rewrite (Hother y) by (left || assumption).
    rewrite IH; [lia|assumption| |assumption|assumption|].
    + apply elem_of_cons in Hx. destruct Hx as [->|Hx]; [congruence|assumption].
    + intros z Hz. apply Hother. right. assumption.
Qed.

Lemma count_pos f l : 0 < count f l -> exists i x, list_find (fun y => f y = true) l = Some (i, x).
Proof.
  intros H. destruct (list_find (fun y => f y = true) l) as [[i x]|] eqn:E; [eauto|].
  exfalso. apply list_find_None in E. revert H.
  induction E as [|y l Hy _ IH]; cbn [count]; [lia|].
  destruct (f y); [congruence|]. assumption.
Qed.

Lemma free_count_mark_used b n :
  shaped b = true -> free b n = true -> DATA_START <= n ->
  free_count (mark_used n b) = free_count b - 1.
Proof.
  intros Hs Hf Hd. pose proof (free_in_range b n Hs Hf) as Hn.
  destruct (shaped_spec b Hs) as [Ht _].
  unfold free_count. cbn [mark_used total_blocks].
  change {| total_blocks := total_blocks b;
            bits := alter (fun x => Z.lor x (Z.shiftl 1 (n mod 8))) (Z.to_nat (n / 8)) (bits b) |}
    with (mark_used n b).
  rewrite (count_flip (free (mark_used n b)) (free b) _ n); [lia|apply NoDup_range| | | |].
  - apply elem_of_range. lia.
  - rewrite free_mark_used by assumption. rewrite Z.eqb_refl. apply andb_false_r.
  - assumption.
  - intros y _ Hy. rewrite free_mark_used by assumption.
    destruct (Z.eqb_spec y n); [congruence|]. rewrite andb_true_r. reflexivity.
Qed.

Lemma free_count_mark_free b n :
  shaped b = true -> used b n = true -> DATA_START <= n < 1024 ->
  free_count (mark_free n b) = free_count b + 1.
Proof.
  intros Hs Hu Hd. unfold DATA_START in Hd.
  destruct (shaped_spec b Hs) as [Ht _].
  unfold free_count. cbn [mark_free total_blocks].
  change {| total_blocks := total_blocks b;
            bits := alter (fun x => Z.land x (Z.lnot (Z.shiftl 1 (n mod 8))))
                      (Z.to_nat (n / 8)) (bits b) |}
    with (mark_free n b).
  apply count_flip with (x := n); [apply NoDup_range| | | |].
  - apply elem_of_range. unfold DATA_START. lia.
  - unfold free. rewrite Hu. apply andb_false_r.
  - rewrite free_mark_free by (assumption || lia). rewrite Z.eqb_refl. apply orb_true_r.
  - intros y Hy Hne. apply elem_of_range in Hy. unfold DATA_START in Hy.
    rewrite free_mark_free by (assumption || lia).
    destruct (Z.eqb_spec y n); [congruence|]. apply orb_false_r.
Qed.

Lemma count_free_spec b l c :
  shaped b = true -> count_free l c b = Ret (c + count (free b) l) b.
Proof.
  intros Hs. revert c. induction l as [|x l IH]; intros c; cbn [count_free count].
  - unfold ret. f_equal. lia.
  - unfold bind. rewrite is_free_spec by assumption. rewrite IH.
    f_equal. destruct (free b x); lia.
Qed.

Lemma free_blocks_count_spec b :
  shaped b = true -> free_blocks_count b = Ret (free_count b) b.
Proof.
  intros Hs. unfold free_blocks_count, bind, get. rewrite count_free_spec by assumption.
  reflexivity.
Qed.

(** ** Allocation *)

Lemma allocate_scan_spec b l :
  shaped b = true ->
  allocate_scan l b
  = match list_find (fun x => free b x = true) l with
    | Some (_, x) => Ret x (mark_used x b)
    | None => Ret (-1) b
    end.
Proof.
  intros Hs. induction l as [|x l IH]; cbn [allocate_scan]; [reflexivity|].
  unfold bind at 1. rewrite is_free_spec by assumption.
  cbn [list_find]. destruct (decide (free b x = true)) as [Hf|Hf].
  - rewrite Hf. unfold bind. rewrite set_used_spec; [reflexivity|assumption|].
    eapply free_in_range; eassumption.
  - destruct (free b x); [congruence|]. rewrite IH.
    destruct (list_find _ l) as [[i y]|]; reflexivity.
Qed.

Lemma allocate_block_spec b :
  shaped b = true -> 0 < free_count b ->
  exists x, allocate_block b = Ret x (mark_used x b)
            /\ in_data x /\ free b x = true.
Proof.
  intros Hs Hc. destruct (shaped_spec b Hs) as [Ht _].
  unfold allocate_block, bind, get. rewrite allocate_scan_spec by assumption.
  destruct (count_pos _ _ Hc) as (i & x & Hfind). rewrite Hfind.
  apply list_find_Some in Hfind. destruct Hfind as (Hi & Hf & _).
  exists x. split; [reflexivity|]. split; [|assumption].
  apply list_elem_of_lookup_2, elem_of_range in Hi. unfold in_data, TOTAL_BLOCKS. lia.
Qed.

Lemma shaped_mark_all l b : shaped b = true -> shaped (mark_all l b) = true.
Proof.
  revert b. induction l as [|x l IH]; intros b Hs; cbn; [assumption|].
  apply IH, shaped_mark_used. assumption.
Qed.

Lemma shaped_free_all l b : shaped b = true -> shaped (free_all l b) = true.
Proof.
  revert b. induction l as [|x l IH]; intros b Hs; cbn; [assumption|].
  apply IH, shaped_mark_free. assumption.
Qed.

Lemma free_all_app l1 l2 b : free_all (l1 ++ l2) b = free_all l2 (free_all l1 b).
Proof. apply foldl_app. Qed.

Lemma takeable_cons b x l :
  shaped b = true -> in_data x -> free b x = true ->
  takeable (mark_used x b) l -> takeable b (x :: l).
Proof.
  intros Hs Hx Hf [Hnd Hall]. unfold in_data, DATA_START, TOTAL_BLOCKS in Hx.
  split.
  - constructor; [|assumption]. intros Hin.
    rewrite list.Forall_forall in Hall. destruct (Hall x Hin) as [_ Hfx].
    rewrite free_mark_used, Z.eqb_refl, andb_false_r in Hfx by (assumption || lia).
    discriminate.
  - constructor; [split; assumption|].
    revert Hall. apply Forall_impl. intros y [Hy Hfy]. split; [assumption|].
    rewrite free_mark_used in Hfy by (assumption || lia).
    apply andb_true_iff in Hfy. tauto.
Qed.

Lemma free_count_mark_all b l :
  shaped b = true -> takeable b l ->
  free_count (mark_all l b) = free_count b - len l.
Proof.
  revert b. induction l as [|x l IH]; intros b Hs [Hnd Hall]; cbn [mark_all foldl].
  - unfold len. cbn. lia.
  - apply list.NoDup_cons in Hnd. destruct Hnd as [Hx Hnd].
    apply list.Forall_cons in Hall. destruct Hall as [[Hdx Hfx] Hall].
    assert (Hdx' := Hdx). unfold in_data, DATA_START, TOTAL_BLOCKS in Hdx'.
    change (foldl _ (mark_used x b) l) with (mark_all l (mark_used x b)).
    rewrite IH.
    + rewrite free_count_mark_used by (assumption || apply Hdx).
      unfold len. cbn [length]. lia.
    + apply shaped_mark_used. assumption.
    + split; [assumption|]. rewrite list.Forall_forall in *. intros y Hy.
      destruct (Hall y Hy) as [Hdy Hfy]. split; [assumption|].
      rewrite free_mark_used by (assumption || lia). rewrite Hfy.
      destruct (Z.eqb_spec y x) as [->|]; [contradiction|reflexivity].
Qed.

Lemma allocate_loop_spec k :
  forall b blocks,
    shaped b = true -> Z.of_nat k <= free_count b ->
    exists l, allocate_loop k blocks b = Ret (blocks ++ l) (mark_all l b)
              /\ length l = k /\ takeable b l.
Proof.
  induction k as [|k IH]; intros b blocks Hs Hc; cbn [allocate_loop].
  - exists []. rewrite app_nil_r. split; [reflexivity|]. split; [reflexivity|].
    split; constructor.
  - destruct (allocate_block_spec b Hs) as (x & Hx & Hdx & Hfx); [lia|].
    unfold bind at 1. rewrite Hx.
    assert (Hx1 : (x =? -1) = false).
    { apply Z.eqb_neq. unfold in_data, DATA_START in Hdx. lia. }
    rewrite Hx1.
    destruct (IH (mark_used x b) (blocks ++ [x])) as (l & Hl & Hlen & Htk).
    + apply shaped_mark_used. assumption.
    + rewrite free_count_mark_used by (assumption || apply Hdx). lia.
    + exists (x :: l). rewrite Hl, <- app_assoc. split; [reflexivity|].
      split; [cbn; lia|]. apply takeable_cons; assumption.
Qed.

Lemma allocate_blocks_spec b n :
  shaped b = true -> 0 <= n <= free_count b ->
  exists l, allocate_blocks n b = Ret l (mark_all l b) /\ len l = n /\ takeable b l.
Proof.
  intros Hs Hn. unfold allocate_blocks.
  destruct (allocate_loop_spec (Z.to_nat n) b [] Hs) as (l & Hl & Hlen & Htk); [lia|].
  exists l. split; [exact Hl|]. split; [unfold len; lia|assumption].
Qed.

(** ** Release *)


End BitmapFacts.

(** Use a specification lemma for the computation at the head of the goal. *)
Ltac wp_use lem :=
  eapply wp_mono; [eapply lem| cbv beta | intros ? HE; exact HE].

(** * The volume: metadata, inodes, content *)

Section Volume.
Import FS VolumeSpec BitmapSpec AllocSpec.

Lemma wp_on_bitmap_eq {A} (m : M Bitmap A) a b' (Q : A -> FileSystem -> Prop) E s :
  m (bitmap s) = Ret a b' -> Q a (set_bitmap b' s) -> wp (on_bitmap m) Q E s.
Proof. unfold on_bitmap, wp, zoom. intros ->. auto. Qed.

Lemma wp_on_disk_eq {A} (m : M disk_file A) a d' (Q : A -> FileSystem -> Prop) E s :
  m (disk s) = Ret a d' -> Q a (set_disk d' s) -> wp (on_disk m) Q E s.
Proof. unfold on_disk, wp, zoom. intros ->. auto. Qed.

Lemma wp_write_block bn dt (Q : unit -> FileSystem -> Prop) E s :
  0 <= bn < 2 ^ 57 ->
  Q tt (set_disk (VirtualDisk.file_write (disk s) (bn * BLOCK_SIZE)
                    (ljust BLOCK_SIZE (slice 0 BLOCK_SIZE dt))) s) ->
  wp (on_disk (VirtualDisk.write_block bn dt)) Q E s.
Proof. intros Hbn HQ. eapply wp_on_disk_eq; [apply write_block_ok; assumption|exact HQ]. Qed.

Lemma wp_inode_at i n (Q : INode -> FileSystem -> Prop) E s :
  inodes s !! i = Some n -> Q n s -> wp (inode_at i) Q E s.
Proof. intros Hi HQ. unfold inode_at. wp_step. wp_step. rewrite Hi. wp_step. exact HQ. Qed.

Lemma set_disk_same s : set_disk (disk s) s = s.
Proof. destruct s. reflexivity. Qed.

Lemma above_refl k d : above k d d.
Proof. intros j _. reflexivity. Qed.

Lemma above_trans k d1 d2 d3 : above k d1 d2 -> above k d2 d3 -> above k d1 d3.
Proof. intros H1 H2 j Hj. rewrite H2, H1 by assumption. reflexivity. Qed.

Lemma file_write_above k0 d bn x :
  0 <= bn -> (Z.to_nat bn < k0)%nat ->
  above k0 d (VirtualDisk.file_write d (bn * BLOCK_SIZE) x).
Proof.
  intros Hbn Hk k Hle. unfold VirtualDisk.file_write, BLOCK_SIZE.
  rewrite Z.div_mul by lia. destruct (decide _) as [Hlt|Hge].
  - apply list_lookup_insert_ne. lia.
  - rewrite (lookup_ge_None_2 d k) by lia. apply lookup_ge_None_2.
    rewrite !length_app, length_fmap, length_replicate. cbn [length]. lia.
Qed.

(** ** Packing *)

Lemma h_range_spec v : h_range v = true -> - 2 ^ 15 <= v < 2 ^ 15.
Proof. unfold h_range. intros H. zbool. lia. Qed.

Lemma I_range_spec v : I_range v = true -> 0 <= v < 2 ^ 32.
Proof. unfold I_range. intros H. zbool. lia. Qed.

Lemma flags_of_byte n : 0 <= INodeCodec.flags_of n <= 255.
Proof.
  pose (n' := with_ref_count (Z.land (ref_count n) 7)
                (with_permission (Z.land (permission n) 7) n)).
  assert (Hb : forall x, 0 <= Z.land x 7 <= 7).
  { intros x. change (Z.land x 7) with (Z.land x (Z.ones 3)).
    rewrite Z.land_ones by lia. change (2 ^ 3) with 8. zdm. }
  assert (He : INodeCodec.flags_of n' = INodeCodec.flags_of n).
  { unfold INodeCodec.flags_of, n'. cbn [with_ref_count with_permission
      permission ref_count is_used is_directory].
    rewrite <- !(Z.land_assoc _ 7 7). reflexivity. }
  rewrite <- He. apply (flags_roundtrip n'); unfold n'; cbn; apply Hb.
Qed.

Lemma pack_direct_ok n idxs data :
  forallb h_range (direct_blocks n) = true ->
  exists d, INodeCodec.pack_direct n idxs data = ok d.
Proof.
  intros Hall. revert data. induction idxs as [|i idxs IH]; intros data;
    cbn [INodeCodec.pack_direct]; [eauto|].
  match goal with |- context [Struct.pack_h ?v] => assert (Hv : - 2 ^ 15 <= v < 2 ^ 15) end.
  { destruct (i <? len (direct_blocks n)); [|lia].
    destruct (direct_blocks n !! Z.to_nat i) as [v|] eqn:Hv; cbn [default]; [|lia].
    apply h_range_spec. rewrite forallb_forall in Hall. apply Hall.
    apply list_elem_of_In. eapply list_elem_of_lookup_2. eassumption. }
  rewrite (pack_h_ok _ Hv). cbn [rbind ok]. apply IH.
Qed.

Lemma packable_to_bytes n :
  packable n = true -> exists d, INodeCodec.to_bytes n = ok d.
Proof.
  unfold packable. intros H.
  repeat (apply andb_true_iff in H; destruct H as [H ?]).
  destruct (Utf8.encode (filename n)) as [e []|] eqn:He; [|discriminate].
  unfold INodeCodec.to_bytes. rewrite He. cbn [rbind ok].
  rewrite pack_B_ok by (zbool; lia). cbn [rbind ok].
  rewrite pack_I_ok by (apply I_range_spec; assumption). cbn [rbind ok].
  rewrite (pack_B_ok _ (flags_of_byte n)). cbn [rbind ok].
  match goal with |- context [INodeCodec.pack_direct n ?idxs ?data] =>
    destruct (pack_direct_ok n idxs data) as [d ->]; [assumption|]
  end.
  cbn [rbind ok]. rewrite pack_h_ok by (apply h_range_spec; assumption).
  cbn [rbind ok]. eauto.
Qed.

Lemma pack_each_I_ok vs :
  forallb I_range vs = true -> exists d, Struct.pack_each Struct.pack_I vs = ok d.
Proof.
  induction vs as [|v vs IH]; cbn [Struct.pack_each forallb]; [eauto|].
  intros H. apply andb_true_iff in H. destruct H as [Hv Hvs].
  rewrite pack_I_ok by (apply I_range_spec; assumption). cbn [rbind ok].
  destruct (IH Hvs) as [d ->]. cbn [rbind ok]. eauto.
Qed.

Lemma superblock_to_bytes_ok sb :
  sb_packable sb = true -> I_range (free_blocks sb) = true ->
  I_range (free_inodes sb) = true ->
  exists d, SuperBlock_to_bytes sb = ok d.
Proof.
  unfold sb_packable. intros H Hfb Hfi.
  do 4 (apply andb_true_iff in H; destruct H as [H ?]).
  unfold SuperBlock_to_bytes, Struct.pack_n.
  destruct (decide _) as [_|Hn]; [|exfalso; apply Hn; reflexivity].
  match goal with |- context [Struct.pack_each _ ?vs] =>
    destruct (pack_each_I_ok vs) as [d ->]
  end.
  - cbn [forallb]. rewrite !andb_true_iff. repeat split; assumption.
  - cbn [rbind ok]. eauto.
Qed.

(** ** Saving the metadata *)

Lemma save_inodes_spec s E :
  forallb packable (inodes s) = true ->
  wp _save_inodes
     (fun _ s' => exists d', s' = set_disk d' s /\ above 35 (disk s) d') E s.
Proof.
  intros Hall. unfold _save_inodes.
  apply (wp_for_each (fun s' => exists d', s' = set_disk d' s /\ above 35 (disk s) d')).
  { exists (disk s). split; [symmetry; apply set_disk_same|apply above_refl]. }
  intros i s' Hi (d' & -> & Hab). apply elem_of_range in Hi. unfold MAX_INODES in Hi.
  wp_step. wp_step. fsimpl.
  destruct (inodes s !! Z.to_nat i) as [n|] eqn:Hn.
  - destruct (packable_to_bytes n) as [bytes Hb].
    { rewrite forallb_forall in Hall. apply Hall.
      apply list_elem_of_In. eapply list_elem_of_lookup_2. eassumption. }
    wp_step. wp_step. rewrite Hb. unfold INODE_START.
    apply wp_write_block; [change (2 ^ 57) with 144115188075855872; lia|].
    fsimpl. eexists. split; [reflexivity|].
    eapply above_trans; [exact Hab|]. apply file_write_above; lia.
  - wp_step. eauto.
Qed.

Lemma save_bitmap_spec s E :
  wp _save_bitmap
     (fun _ s' => exists d', s' = set_disk d' s /\ above 35 (disk s) d') E s.
Proof.
  unfold _save_bitmap. wp_step. wp_step.
  apply (wp_for_each (fun s' => exists d', s' = set_disk d' s /\ above 35 (disk s) d')).
  { exists (disk s). split; [symmetry; apply set_disk_same|apply above_refl]. }
  intros i s' Hi (d' & -> & Hab). apply elem_of_range in Hi. unfold BITMAP_START.
  apply wp_write_block; [change (2 ^ 57) with 144115188075855872; lia|].
  fsimpl. eexists. split; [reflexivity|].
  eapply above_trans; [exact Hab|]. apply file_write_above; lia.
Qed.

Lemma save_superblock_spec s E :
  sb_packable (superblock s) = true ->
  I_range (free_blocks (superblock s)) = true ->
  I_range (free_inodes (superblock s)) = true ->
  wp save_superblock
     (fun _ s' => exists d', s' = set_disk d' s /\ above 35 (disk s) d') E s.
Proof.
  intros Hsb Hfb Hfi. unfold save_superblock. wp_step. wp_step.
  destruct (superblock_to_bytes_ok _ Hsb Hfb Hfi) as [d Hd].
  wp_step. wp_step. rewrite Hd. unfold SUPERBLOCK_START.
  apply wp_write_block; [change (2 ^ 57) with 144115188075855872; lia|].
  eexists. split; [reflexivity|]. apply file_write_above; lia.
Qed.

Lemma count_le_length f l : count f l <= len l.
Proof.
  unfold len. induction l as [|x l IH]; cbn [count length]; [lia|].
  destruct (f x); lia.
Qed.

Lemma free_count_range b : shaped b = true -> I_range (free_count b) = true.
Proof.
  intros Hs. destruct (shaped_spec b Hs) as [Ht _].
  unfold I_range, free_count. rewrite Ht.
  pose proof (count_nonneg (free b) (range DATA_START 1024)).
  pose proof (count_le_length (free b) (range DATA_START 1024)) as Hle.
  unfold len in Hle. unfold range in Hle at 2. rewrite length_range_from in Hle.
  unfold DATA_START in *. change (2 ^ 32) with 4294967296.
  apply andb_true_iff. rewrite Z.leb_le, Z.ltb_lt. lia.
Qed.

Lemma save_metadata_spec s E :
  sound s = true -> I_range (free_inodes (superblock s)) = true ->
  wp save_metadata
     (fun _ s' => exists d',
        s' = set_disk d'
               (set_superblock
                  (sb_set_free_blocks (free_count (bitmap s)) (superblock s)) s)
        /\ above 35 (disk s) d') E s.
Proof.
  unfold sound. intros H Hfi.
  apply andb_true_iff in H. destruct H as [H Hsb].
  apply andb_true_iff in H. destruct H as [Hin Hbm].
  unfold save_metadata. wp_step. wp_use save_inodes_spec; [assumption|].
  intros _ s1 (d1 & -> & Hab1). wp_step. wp_use save_bitmap_spec.
  intros _ s2 (d2 & -> & Hab2). fsimpl. wp_step.
  eapply wp_on_bitmap_eq; [apply free_blocks_count_spec; exact Hbm|].
  wp_step. unfold update_superblock. wp_step. fsimpl.
  wp_use save_superblock_spec; fsimpl; try assumption.
  - apply free_count_range. assumption.
  - intros _ s3 (d3 & -> & Hab3). fsimpl. exists d3. split.
    + destruct s. reflexivity.
    + eapply above_trans; [exact Hab1|]. eapply above_trans; eassumption.
Qed.

(** ** Taking an inode *)

Lemma allocate_inode_scan_spec s i n0 E :
  list_find (fun n => is_used n = false) (inodes s) = Some (i, n0) ->
  forall k j,
    (j <= i < j + k)%nat ->
    wp (allocate_inode_scan (range_from (Z.of_nat j) k))
       (fun r s' =>
          r = Some i
          /\ s' = set_superblock (sb_add_free_inodes (-1) (superblock s))
                    (set_clock (clock s + 2)
                       (set_inodes (<[i := claimed i (clock s) n0]> (inodes s)) s)))
       E s.
Proof.
  intros Hfind. apply list_find_Some in Hfind. destruct Hfind as (Hi & Hu & Hbefore).
  induction k as [|k IH]; intros j Hj; [lia|].
  cbn [range_from allocate_inode_scan]. rewrite Nat2Z.id.
  destruct (decide (j = i)) as [->|Hne].
  - wp_step. eapply wp_inode_at; [exact Hi|]. rewrite Hu. cbn [negb].
    unfold update_inode, time_time, add_free_inodes, update_superblock.
    repeat wp_step. fsimpl. split; [reflexivity|].
    rewrite !list_alter_alter_eq. rewrite (alter_as_insert _ _ _ _ Hi).
    clear IH Hbefore Hu Hi Hj.
    destruct s as [d sb b ins c], n0; cbn. unfold sb_add_free_inodes, claimed. cbn.
    unfold set_superblock, set_clock, set_inodes. cbn.
    f_equal. lia.
  - destruct (lookup_lt_is_Some_2 (inodes s) j) as [n Hn].
    { apply lookup_lt_Some in Hi. lia. }
    wp_step. eapply wp_inode_at; [exact Hn|].
    assert (Hused : is_used n = true).
    { specialize (Hbefore j n Hn). destruct (is_used n); [reflexivity|].
      exfalso. apply Hbefore; [lia|reflexivity]. }
    rewrite Hused. cbn [negb].
    replace (Z.of_nat j + 1) with (Z.of_nat (S j)) by lia. apply IH. lia.
Qed.

Lemma allocate_inode_spec s i n0 E :
  list_find (fun n => is_used n = false) (inodes s) = Some (i, n0) ->
  (i < 32)%nat ->
  wp _allocate_inode
     (fun r s' =>
        r = Some i
        /\ s' = set_superblock (sb_add_free_inodes (-1) (superblock s))
                  (set_clock (clock s + 2)
                     (set_inodes (<[i := claimed i (clock s) n0]> (inodes s)) s)))
     E s.
Proof.
  intros Hfind Hi. unfold _allocate_inode, range, MAX_INODES.
  change (Z.to_nat (32 - 0)) with 32%nat.
  apply (allocate_inode_scan_spec s i n0 E Hfind 32 0). lia.
Qed.

(** ** Writing the content *)

(** A write leaves every other whole block as it is (one past the end
    of the file fills up a short last block). *)
Lemma file_write_other d bn x k v :
  0 <= bn -> Z.to_nat bn <> k -> d !! k = Some v -> len v = BLOCK_SIZE ->
  VirtualDisk.file_write d (bn * BLOCK_SIZE) x !! k = Some v.
Proof.
  intros Hbn Hne Hk Hv. unfold VirtualDisk.file_write.
  replace (bn * BLOCK_SIZE / BLOCK_SIZE) with bn
    by (unfold BLOCK_SIZE; rewrite Z.div_mul by lia; reflexivity).
  destruct (decide _) as [Hlt|Hge].
  - rewrite list_lookup_insert_ne by assumption. assumption.
  - apply lookup_app_l_Some. rewrite list_lookup_fmap, Hk. cbn [fmap option_fmap option_map].
    f_equal. unfold ljust. rewrite Hv, Z.sub_diag. apply app_nil_r.
Qed.

(** [write_content] only writes the disk, and only the blocks it is
    given. *)
Lemma write_content_spec pad content blocks s E :
  Forall (fun b => 0 <= b < 2 ^ 57) blocks ->
  wp (write_content pad content blocks)
     (fun _ s' => exists d',
        s' = set_disk d' s
        /\ forall k v, Z.of_nat k ∉ blocks -> disk s !! k = Some v ->
                       len v = BLOCK_SIZE -> d' !! k = Some v)
     E s.
Proof.
  intros Hall. unfold write_content.
  apply (wp_for_each (fun s' => exists d',
           s' = set_disk d' s
           /\ forall k v, Z.of_nat k ∉ blocks -> disk s !! k = Some v ->
                          len v = BLOCK_SIZE -> d' !! k = Some v)).
  { exists (disk s). split; [symmetry; apply set_disk_same|auto]. }
  intros [i b] s' Hin (d' & -> & Hkeep). unfold enumerate in Hin.
  apply list_elem_of_lookup in Hin. destruct Hin as [j Hj].
  rewrite list_lookup_imap in Hj.
  destruct (blocks !! j) as [b'|] eqn:Hb; [|discriminate]. injection Hj as _ <-.
  assert (Hbin : b' ∈ blocks) by (eapply list_elem_of_lookup_2; eassumption).
  rewrite list.Forall_forall in Hall. pose proof (Hall b' Hbin) as Hrange.
  apply wp_write_block; [assumption|].
  fsimpl. eexists. split; [reflexivity|].
  intros k v Hk Hv Hlen. apply file_write_other; [lia| |auto|assumption].
  intros <-. apply Hk. rewrite Z2Nat.id by lia. assumption.
Qed.

End Volume.

(** * Index blocks *)

Section IndexBlocks.
Import Struct.

Lemma pack_i_ok v :
  - 2 ^ 31 <= v < 2 ^ 31 ->
  pack_i v = ok [v mod 256; (v / 2 ^ 8) mod 256; (v / 2 ^ 16) mod 256; (v / 2 ^ 24) mod 256].
Proof.
  intros H. unfold pack_i.
  replace (- 2 ^ 31 <=? v) with true by (symmetry; apply Z.leb_le; lia).
  replace (v <? 2 ^ 31) with true by (symmetry; apply Z.ltb_lt; lia).
  reflexivity.
Qed.

Lemma unpack_pack_i v :
  - 2 ^ 31 <= v < 2 ^ 31 ->
  unpack_i [v mod 256; (v / 2 ^ 8) mod 256; (v / 2 ^ 16) mod 256; (v / 2 ^ 24) mod 256]
  = ok v.
Proof.
  intros H. unfold unpack_i. cbv zeta.
  change (2 ^ 8) with 256. change (2 ^ 16) with 65536. change (2 ^ 24) with 16777216.
  change (2 ^ 31) with 2147483648 in *. change (2 ^ 32) with 4294967296.
  f_equal. destruct (_ <? _) eqn:E; zbool; zdm.
Qed.

Lemma pack_each_i_roundtrip vs :
  Forall (fun v => - 2 ^ 31 <= v < 2 ^ 31) vs ->
  exists d, pack_each pack_i vs = ok d
            /\ length d = (length vs * 4)%nat
            /\ unpack_each unpack_i 4 (length vs) d = ok vs.
Proof.
  induction 1 as [|v vs Hv _ IH]; cbn [pack_each unpack_each length].
  - exists []. auto.
  - destruct IH as (d & Hd & Hlen & Hun).
    rewrite (pack_i_ok v Hv), Hd. cbn [rbind ok app].
    eexists. split; [reflexivity|]. split; [cbn [length]; lia|].
    cbn [take drop firstn skipn]. rewrite take_0, drop_0, (unpack_pack_i v Hv), Hun.
    reflexivity.
Qed.

Lemma index_block_roundtrip vs :
  length vs = 16%nat -> Forall (fun v => - 2 ^ 31 <= v < 2 ^ 31) vs ->
  exists d, IndexBlock.to_bytes vs = ok d
            /\ ljust BLOCK_SIZE (slice 0 BLOCK_SIZE d) = d
            /\ IndexBlock.from_bytes d = ok vs.
Proof.
  intros Hlen Hall. destruct (pack_each_i_roundtrip vs Hall) as (d & Hd & Hdl & Hun).
  rewrite Hlen in Hdl, Hun. change (16 * 4)%nat with 64%nat in Hdl.
  assert (Hl : len d = 64) by (unfold len; lia).
  assert (Hs : forall n, n = 64 -> slice 0 n d = d).
  { intros n ->. apply slice_0_ge. lia. }
  exists d. unfold IndexBlock.to_bytes, IndexBlock.from_bytes, pack_n, unpack_n.
  rewrite (Hs BLOCK_SIZE eq_refl), (Hs 64 eq_refl).
  destruct (decide (length vs = 16%nat)) as [_|Hn]; [|contradiction].
  destruct (decide (length d = (16 * 4)%nat)) as [_|Hn]; [|exfalso; apply Hn; exact Hdl].
  split; [exact Hd|]. split; [|exact Hun].
  unfold ljust. rewrite Hl. cbn. apply app_nil_r.
Qed.

End IndexBlocks.

(** * Creating a file at the direct-block boundary *)

Section CreateBoundary.
Import FS VolumeSpec BitmapSpec AllocSpec CreateSpec.

Lemma takeable_tail b y l :
  shaped b = true -> takeable b (y :: l) -> takeable (mark_used y b) l.
Proof.
  intros Hs [Hnd Hall]. apply list.NoDup_cons in Hnd. destruct Hnd as [Hy Hnd].
  apply list.Forall_cons in Hall. destruct Hall as [[Hdy Hfy] Hall].
  split; [assumption|]. rewrite list.Forall_forall in *. intros z Hz.
  destruct (Hall z Hz) as [Hdz Hfz]. split; [assumption|].
  unfold in_data, DATA_START, TOTAL_BLOCKS in Hdy.
  rewrite free_mark_used by (assumption || lia). rewrite Hfz.
  destruct (Z.eqb_spec z y) as [->|]; [contradiction|reflexivity].
Qed.

Lemma takeable_app b l1 l2 :
  shaped b = true -> takeable b l1 -> takeable (mark_all l1 b) l2 ->
  takeable b (l1 ++ l2).
Proof.
  revert b. induction l1 as [|y l1 IH]; intros b Hs H1 H2; [exact H2|].
  cbn [app]. pose proof H1 as [_ Hall].
  apply list.Forall_cons in Hall. destruct Hall as [[Hdy Hfy] _].
  apply takeable_cons; try assumption.
  apply IH; [apply shaped_mark_used; assumption| |exact H2].
  apply takeable_tail; assumption.
Qed.

Lemma takeable_range b l :
  takeable b l -> Forall (fun x => 35 <= x < 1024) l.
Proof. intros [_ H]. revert H. apply Forall_impl. intros x [Hx _]. exact Hx. Qed.

Lemma filter_set_all (l : list Z) :
  Forall (fun x => 0 <= x) l -> filter (fun b => b >= 0) l = l.
Proof.
  induction 1 as [|x l Hx _ IH]; [reflexivity|].
  rewrite filter_cons. destruct (decide (x >= 0)) as [_|Hn]; [|lia].
  rewrite IH. reflexivity.
Qed.

(** The direct-only branch of the allocation, for ten blocks. *)
Lemma create_allocate_direct s i E :
  shaped (bitmap s) = true -> 10 <= free_count (bitmap s) ->
  wp (create_allocate i 10)
     (fun r s' => exists l,
        r = inr l /\ len l = 10 /\ takeable (bitmap s) l
        /\ s' = set_inodes (alter (with_direct_blocks l) i (inodes s))
                  (set_bitmap (mark_all l (bitmap s)) s))
     E s.
Proof.
  intros Hs Hc. unfold create_allocate.
  change (10 >? DIRECT_BLOCKS + 1) with false. cbv iota.
  destruct (allocate_blocks_spec (bitmap s) 10 Hs) as (l & Hl & Hlen & Htk); [lia|].
  wp_step. eapply wp_on_bitmap_eq; [exact Hl|]. rewrite Hlen.
  change (10 <? 10) with false. cbv iota.
  unfold update_inode. repeat wp_step. fsimpl.
  exists l. split; [reflexivity|]. split; [assumption|]. split; [assumption|].
  change (replicate (Z.to_nat (DIRECT_BLOCKS - 10)) (-1)) with (@nil Z).
  rewrite app_nil_r. reflexivity.
Qed.

(** The branch with an index block, for ten direct blocks, the index
    block and one more data block. *)
Lemma create_allocate_indirect s i E :
  shaped (bitmap s) = true -> 12 <= free_count (bitmap s) ->
  wp (create_allocate i 12)
     (fun r s' => exists l ib x idx,
        r = inr (l ++ [x]) /\ len l = 10 /\ takeable (bitmap s) (l ++ [ib; x])
        /\ IndexBlock.from_bytes idx = ok (x :: replicate 15 (-1))
        /\ len idx = BLOCK_SIZE
        /\ s' = set_disk (VirtualDisk.file_write (disk s) (ib * BLOCK_SIZE) idx)
                  (set_inodes
                     (alter (with_indirect_block ib) i
                        (alter (with_direct_blocks l) i (inodes s)))
                     (set_bitmap (mark_all (l ++ [ib; x]) (bitmap s)) s)))
     E s.
Proof.
  intros Hs Hc. unfold create_allocate.
  change (12 >? DIRECT_BLOCKS + 1) with true. cbv iota.
  destruct (allocate_blocks_spec (bitmap s) DIRECT_BLOCKS Hs) as (l & Hl & Hlen & Htk);
    [unfold DIRECT_BLOCKS; lia|].
  unfold DIRECT_BLOCKS in Hlen.
  wp_step. eapply wp_on_bitmap_eq; [exact Hl|]. rewrite Hlen.
  change (10 <? DIRECT_BLOCKS) with false. cbv iota.
  set (b1 := mark_all l (bitmap s)).
  assert (Hs1 : shaped b1 = true) by (apply shaped_mark_all; assumption).
  assert (Hc1 : free_count b1 = free_count (bitmap s) - 10).
  { unfold b1. rewrite free_count_mark_all by assumption. lia. }
  destruct (allocate_block_spec b1 Hs1) as (ib & Hib & Hdib & Hfib); [lia|].
  wp_step. eapply wp_on_bitmap_eq; [fsimpl; exact Hib|].
  assert (Hib1 : (ib =? -1) = false).
  { apply Z.eqb_neq. unfold in_data, DATA_START in Hdib. lia. }
  rewrite Hib1. fsimpl.
  set (b2 := mark_used ib b1).
  assert (Hs2 : shaped b2 = true) by (apply shaped_mark_used; assumption).
  assert (Hc2 : free_count b2 = free_count (bitmap s) - 11).
  { unfold b2. rewrite free_count_mark_used by (assumption || apply Hdib). lia. }
  change (12 - DIRECT_BLOCKS - 1) with 1.
  destruct (allocate_blocks_spec b2 1 Hs2) as (l2 & Hl2 & Hlen2 & Htk2); [lia|].
  wp_step. eapply wp_on_bitmap_eq; [fsimpl; exact Hl2|]. rewrite Hlen2.
  change (1 <? 1) with false. cbv iota. fsimpl.
  destruct l2 as [|x [|? ?]];
    try (exfalso; unfold len in Hlen2; cbn [length] in Hlen2; lia).
  assert (Htk' : takeable (bitmap s) (l ++ [ib; x])).
  { apply takeable_app; [assumption|assumption|].
    apply takeable_cons; assumption. }
  pose proof (takeable_range _ _ Htk') as Hrange.
  assert (Hx : 35 <= x < 1024).
  { rewrite list.Forall_forall in Hrange. apply Hrange.
    rewrite elem_of_app. right. right. left. }
  assert (Hvs : Forall (fun v => - 2 ^ 31 <= v < 2 ^ 31) (x :: replicate 15 (-1))).
  { constructor; [lia|]. apply Forall_replicate. lia. }
  destruct (index_block_roundtrip (x :: replicate 15 (-1)) eq_refl Hvs)
    as (idx & Hidx & Hpad & Hback).
  unfold update_inode. wp_step. wp_step. wp_step. wp_step. wp_step.
  change (IndexBlock.assign_prefix 1 [x] IndexBlock.empty)
    with (x :: replicate 15 (-1)).
  rewrite Hidx. wp_step. cbv [ok]. cbv iota. wp_step.
  apply wp_write_block.
  { unfold in_data, DATA_START, TOTAL_BLOCKS in Hdib.
    change (2 ^ 57) with 144115188075855872. lia. }
  wp_step. fsimpl. rewrite Hpad.
  exists l, ib, x, idx. split; [reflexivity|]. split; [assumption|].
  split; [assumption|]. split; [assumption|]. split.
  { rewrite <- Hpad. apply len_ljust. unfold len, slice, BLOCK_SIZE.
    rewrite length_take. lia. }
  unfold mark_all. rewrite foldl_app. reflexivity.
Qed.

Lemma alter_insert_same {A} (f : A -> A) i x (l : list A) :
  alter f i (<[i := x]> l) = <[i := f x]> l.
Proof.
  apply list_eq. intros j. destruct (decide (j = i)) as [->|Hne].
  - rewrite list_lookup_alter_eq.
    destruct (decide (i < length l)%nat) as [Hlt|Hge].
    + rewrite !list_lookup_insert_eq by assumption. reflexivity.
    + rewrite !(lookup_ge_None_2 _ i) by (rewrite length_insert; lia). reflexivity.
  - rewrite list_lookup_alter_ne by congruence.
    rewrite !list_lookup_insert_ne by congruence. reflexivity.
Qed.

Lemma forallb_insert {A} (p : A -> bool) i x (l : list A) :
  forallb p l = true -> p x = true -> forallb p (<[i := x]> l) = true.
Proof.
  intros Hl Hx. rewrite forallb_forall in *. intros y Hy.
  apply list_elem_of_In, list_elem_of_lookup in Hy. destruct Hy as [j Hj].
  destruct (decide (j = i)) as [->|Hne].
  - destruct (decide (i < length l)%nat) as [Hlt|Hge].
    + rewrite list_lookup_insert_eq in Hj by assumption. congruence.
    + apply lookup_lt_Some in Hj. rewrite length_insert in Hj. lia.
  - rewrite list_lookup_insert_ne in Hj by congruence.
    apply Hl, list_elem_of_In. eapply list_elem_of_lookup_2. eassumption.
Qed.

Lemma forallb_h_range l :
  Forall (fun x => 35 <= x < 1024) l -> forallb h_range l = true.
Proof.
  intros H. apply forallb_forall. intros x Hx. apply list_elem_of_In in Hx.
  rewrite list.Forall_forall in H. specialize (H x Hx).
  unfold h_range. apply andb_true_iff. rewrite Z.leb_le, Z.ltb_lt. lia.
Qed.

(** The statements of [create_file] after the allocation. *)
Lemma create_finish s2 i name content perm blocks E :
  shaped (bitmap s2) = true -> sb_packable (superblock s2) = true ->
  I_range (free_inodes (superblock s2)) = true ->
  forallb packable (alter (finished name (len content) perm) i (inodes s2)) = true ->
  Forall (fun b => 0 <= b < 2 ^ 57) blocks ->
  wp (write_content false content blocks ;;
      update_inode i (with_filename (take (Z.to_nat MAX_FILENAME) name)) ;;
      update_inode i (with_file_size (len content)) ;;
      update_inode i (with_permission perm) ;;
      update_inode i (with_ref_count 0) ;;
      save_metadata ;;
      ret (true, MsgCreated name (len blocks)))
     (fun r s' =>
        r = (true, MsgCreated name (len blocks))
        /\ exists d',
             s' = set_disk d'
                    (set_superblock
                       (sb_set_free_blocks (free_count (bitmap s2)) (superblock s2))
                       (set_inodes
                          (alter (finished name (len content) perm) i (inodes s2)) s2))
             /\ forall k v, (35 <= k)%nat -> Z.of_nat k ∉ blocks ->
                            disk s2 !! k = Some v -> len v = BLOCK_SIZE ->
                            d' !! k = Some v)
     E s2.
Proof.
  intros Hshape Hsb Hfi Hpack Hblocks.
  wp_step. wp_use write_content_spec; [exact Hblocks|].
  intros _ s3 (d3 & -> & Hkeep). unfold update_inode. do 8 wp_step. fsimpl.
  match goal with |- wp _ _ _ ?st =>
    replace st with
      (set_inodes (alter (finished name (len content) perm) i (inodes s2))
         (set_disk d3 s2))
  end.
  2:{ unfold set_inodes. fsimpl. rewrite !list_alter_alter_eq. reflexivity. }
  wp_step. wp_use save_metadata_spec.
  - unfold sound. fsimpl. rewrite Hpack, Hshape, Hsb. reflexivity.
  - fsimpl. exact Hfi.
  - intros _ s4 (d4 & -> & Hab). fsimpl. wp_step.
    split; [reflexivity|]. exists d4. split.
    + destruct s2. reflexivity.
    + intros k v Hk Hnot Hv Hlen. rewrite (Hab k Hk). apply Hkeep; assumption.
Qed.

Lemma blocks_for_direct content :
  len content = 10 * BLOCK_SIZE -> blocks_for content = 10.
Proof. intros H. unfold blocks_for. rewrite H. reflexivity. Qed.

Lemma blocks_for_indirect content :
  len content = 10 * BLOCK_SIZE + 1 -> blocks_for content = 11.
Proof. intros H. unfold blocks_for. rewrite H. reflexivity. Qed.

Lemma packable_created i t n0 name size perm direct indirect e :
  (i < 32)%nat -> Utf8.encode (take (Z.to_nat MAX_FILENAME) name) = ok e ->
  0 <= size < 2 ^ 32 -> Forall (fun x => 35 <= x < 1024) direct ->
  -1 <= indirect < 1024 ->
  packable (created i t n0 name size perm direct indirect) = true.
Proof.
  intros Hi He Hsize Hd Hind. unfold packable, created.
  cbn [inode_id filename file_size direct_blocks indirect_block].
  rewrite He, (forallb_h_range direct Hd). unfold I_range, h_range.
  change (2 ^ 15) with 32768. change (2 ^ 32) with 4294967296 in *.
  cbv [ok]. cbv iota.
  rewrite !andb_true_iff, !Z.leb_le, !Z.ltb_lt. repeat split; (reflexivity || lia).
Qed.

Lemma sb_packable_add d sb :
  sb_packable (sb_add_free_inodes d sb) = sb_packable sb.
Proof. reflexivity. Qed.

(** C5: on a volume that accepts the file, creating ten blocks of
    content takes exactly ten blocks, all recorded as direct blocks, and
    leaves the index block unset; one byte more takes exactly twelve:
    the ten direct blocks, one index block and one data block listed in
    it, so that the file has eleven data blocks. *)
Theorem create_at_direct_boundary (s : FileSystem) (name content : list Z) (perm : Z)
    (i : nat) (n0 : INode) :
  accepts s name i n0 ->
  (len content = 10 * BLOCK_SIZE -> 10 <= free_count (bitmap s) ->
     exists l s',
       let n := created i (clock s) n0 name (len content) perm l (-1) in
       create_file name content perm s = Ret (true, MsgCreated name 10) s'
       /\ len l = 10 /\ takeable (bitmap s) l
       /\ inodes s' = <[i := n]> (inodes s)
       /\ bitmap s' = mark_all l (bitmap s)
       /\ free_count (bitmap s') = free_count (bitmap s) - 10
       /\ resolve_blocks n s' = Ret l s'
       /\ allocated_blocks n s' = Ret 10 s')
  /\ (len content = 10 * BLOCK_SIZE + 1 -> 12 <= free_count (bitmap s) ->
     exists l ib x s',
       let n := created i (clock s) n0 name (len content) perm l ib in
       create_file name content perm s = Ret (true, MsgCreated name 11) s'
       /\ len l = 10 /\ takeable (bitmap s) (l ++ [ib; x])
       /\ inodes s' = <[i := n]> (inodes s)
       /\ bitmap s' = mark_all (l ++ [ib; x]) (bitmap s)
       /\ free_count (bitmap s') = free_count (bitmap s) - 12
       /\ resolve_blocks n s' = Ret (l ++ [x]) s'
       /\ allocated_blocks n s' = Ret 12 s').
Proof.
  intros (Hsound & Hfree & Hnew & Hfind & Hi & Hind & e & He).
  assert (Hsound' := Hsound). unfold sound in Hsound'.
  apply andb_true_iff in Hsound'. destruct Hsound' as [Hsound' Hsb].
  apply andb_true_iff in Hsound'. destruct Hsound' as [Hpack Hshape].
  assert (Hfi : I_range (free_inodes (superblock s) + -1) = true).
  { unfold I_range. change (2 ^ 32) with 4294967296 in *.
    apply andb_true_iff. rewrite Z.leb_le, Z.ltb_lt. lia. }
  pose proof Hfind as Hn0. apply list_find_Some in Hn0. destruct Hn0 as (Hn0 & _).
  assert (Hilen : (i < length (inodes s))%nat) by (eapply lookup_lt_Some; eassumption).
  split.
  - intros Hlen Hspace.
    assert (Hwp : wp (create_file name content perm)
              (fun r s' => exists l,
                 r = (true, MsgCreated name 10) /\ len l = 10
                 /\ takeable (bitmap s) l
                 /\ inodes s' = <[i := created i (clock s) n0 name (len content) perm l (-1)]>
                                  (inodes s)
                 /\ bitmap s' = mark_all l (bitmap s))
              (fun _ => False) s).
    { unfold create_file. wp_step. wp_step. rewrite Hnew.
      wp_step. wp_use allocate_inode_spec; [exact Hfind|exact Hi|].
      intros r s1 (-> & ->). rewrite (blocks_for_direct content Hlen).
      change (if 10 >? DIRECT_BLOCKS then 10 + 1 else 10) with 10.
      wp_step. wp_use create_allocate_direct; fsimpl; [assumption|assumption|].
      intros r s2 (l & -> & Hl & Htk & ->). fsimpl.
      pose proof (takeable_range _ _ Htk) as Hrange.
      rewrite alter_insert_same.
      wp_use create_finish; fsimpl.
      - apply shaped_mark_all. assumption.
      - assumption.
      - assumption.
      - rewrite alter_insert_same. apply forallb_insert; [assumption|].
        destruct n0. cbn in Hind. subst.
        apply (packable_created i _ _ name _ perm l (-1) e); try assumption; try lia.
        change (0 <= len content < 2 ^ 32).
        rewrite Hlen. unfold BLOCK_SIZE. change (2 ^ 32) with 4294967296. lia.
      - revert Hrange. apply Forall_impl. intros x Hx.
        change (2 ^ 57) with 144115188075855872. lia.
      - intros r s3 (-> & d' & -> & _). fsimpl. exists l.
        rewrite Hl. split; [reflexivity|]. split; [reflexivity|].
        split; [assumption|]. split; [|reflexivity].
        rewrite alter_insert_same. destruct n0. cbn in Hind. subst. reflexivity. }
    apply wp_returns in Hwp.
    destruct Hwp as (r & s' & Hrun & l & -> & Hl & Htk & Hin & Hbm).
    exists l, s'. cbv zeta. split; [exact Hrun|]. split; [exact Hl|].
    split; [exact Htk|]. split; [exact Hin|]. split; [exact Hbm|].
    pose proof (takeable_range _ _ Htk) as Hrange.
    assert (Hfilter : filter (fun b => b >= 0) l = l).
    { apply filter_set_all. revert Hrange. apply Forall_impl. intros; lia. }
    split; [|split].
    + rewrite Hbm, free_count_mark_all by assumption. lia.
    + unfold resolve_blocks, created. cbn [direct_blocks indirect_block].
      change (-1 >=? 0) with false. cbv iota. rewrite Hfilter. reflexivity.
    + unfold allocated_blocks, created. cbn [direct_blocks indirect_block].
      change (-1 >=? 0) with false. cbv iota. rewrite Hfilter, Hl. reflexivity.
  - intros Hlen Hspace.
    assert (Hwp : wp (create_file name content perm)
              (fun r s' => exists l ib x idx,
                 r = (true, MsgCreated name 11) /\ len l = 10
                 /\ takeable (bitmap s) (l ++ [ib; x])
                 /\ inodes s' = <[i := created i (clock s) n0 name (len content) perm l ib]>
                                  (inodes s)
                 /\ bitmap s' = mark_all (l ++ [ib; x]) (bitmap s)
                 /\ IndexBlock.from_bytes idx = ok (x :: replicate 15 (-1))
                 /\ disk s' !! Z.to_nat ib = Some idx)
              (fun _ => False) s).
    { unfold create_file. wp_step. wp_step. rewrite Hnew.
      wp_step. wp_use allocate_inode_spec; [exact Hfind|exact Hi|].
      intros r s1 (-> & ->). rewrite (blocks_for_indirect content Hlen).
      change (if 11 >? DIRECT_BLOCKS then 11 + 1 else 11) with 12.
      wp_step. wp_use create_allocate_indirect; fsimpl; [assumption|assumption|].
      intros r s2 (l & ib & x & idx & -> & Hl & Htk & Hback & Hidxlen & ->). fsimpl.
      pose proof (takeable_range _ _ Htk) as Hrange.
      assert (Hib : 35 <= ib < 1024).
      { rewrite list.Forall_forall in Hrange. apply Hrange.
        rewrite elem_of_app. right. left. }
      assert (Hrl : Forall (fun x => 35 <= x < 1024) (l ++ [x])).
      { apply Forall_app in Hrange. destruct Hrange as [H1 H2].
        apply list.Forall_cons in H2. destruct H2 as [_ H2].
        apply Forall_app. split; assumption. }
      assert (Hnotin : ib ∉ l ++ [x]).
      { destruct Htk as [Hnd _]. apply list.NoDup_app in Hnd.
        destruct Hnd as (_ & Hdisj & Hnd2). apply list.NoDup_cons in Hnd2.
        destruct Hnd2 as [Hibx _]. rewrite elem_of_app. intros [Hin|Hin].
        - apply (Hdisj ib Hin). left.
        - apply Hibx. assumption. }
      rewrite list_alter_alter_eq, alter_insert_same.
      wp_use create_finish; fsimpl.
      - apply shaped_mark_all. assumption.
      - assumption.
      - assumption.
      - rewrite alter_insert_same. apply forallb_insert; [assumption|].
        destruct n0.
        apply (packable_created i _ _ name _ perm l ib e); try assumption; try lia.
        + change (0 <= len content < 2 ^ 32).
          rewrite Hlen. unfold BLOCK_SIZE. change (2 ^ 32) with 4294967296. lia.
        + apply Forall_app in Hrange. apply Hrange.
      - revert Hrl. apply Forall_impl. intros y Hy.
        change (2 ^ 57) with 144115188075855872. lia.
      - intros r s3 (-> & d' & -> & Hkeep). fsimpl. exists l, ib, x, idx.
        replace (len (l ++ [x])) with 11
          by (rewrite len_app, Hl; reflexivity).
        split; [reflexivity|]. split; [assumption|]. split; [assumption|].
        split; [|split; [reflexivity|split; [assumption|]]].
        + rewrite alter_insert_same. destruct n0. reflexivity.
        + apply Hkeep; [lia| | |exact Hidxlen].
          * rewrite Z2Nat.id by lia. assumption.
          * unfold VirtualDisk.file_write, BLOCK_SIZE. rewrite Z.div_mul by lia.
            destruct (decide _) as [Hlt|Hge].
            -- apply list_lookup_insert_eq. assumption.
            -- rewrite lookup_app_r; rewrite length_fmap; [|lia].
               rewrite lookup_app_r; rewrite length_replicate; [|lia].
               replace (Z.to_nat ib - length (disk s) - (Z.to_nat ib - length (disk s)))%nat
                 with 0%nat by lia.
               reflexivity. }
    apply wp_returns in Hwp.
    destruct Hwp as (r & s' & Hrun & l & ib & x & idx & -> & Hl & Htk & Hin & Hbm
                     & Hback & Hdisk).
    exists l, ib, x, s'. cbv zeta. split; [exact Hrun|]. split; [exact Hl|].
    split; [exact Htk|]. split; [exact Hin|]. split; [exact Hbm|].
    pose proof (takeable_range _ _ Htk) as Hrange.
    assert (Hib : 35 <= ib < 1024).
    { rewrite list.Forall_forall in Hrange. apply Hrange.
      rewrite elem_of_app. right. left. }
    assert (Hx : 35 <= x < 1024).
    { rewrite list.Forall_forall in Hrange. apply Hrange.
      rewrite elem_of_app. right. right. left. }
    assert (Hfilter : filter (fun b => b >= 0) l = l).
    { apply filter_set_all. apply Forall_app in Hrange. destruct Hrange as [H1 _].
      revert H1. apply Forall_impl. intros; lia. }
    assert (Hfidx : filter (fun b => b >= 0) (x :: replicate 15 (-1)) = [x]).
    { rewrite filter_cons. destruct (decide (x >= 0)) as [_|Hn]; [|lia]. reflexivity. }
    assert (Hge : (ib >=? 0) = true) by (rewrite Z.geb_leb; apply Z.leb_le; lia).
    assert (Hread : VirtualDisk.read_block ib (disk s') = Ret idx (disk s')).
    { rewrite read_block_ok by (change (2 ^ 57) with 144115188075855872; lia).
      rewrite Hdisk. reflexivity. }
    split; [|split].
    + rewrite Hbm, free_count_mark_all by assumption.
      rewrite len_app, Hl. unfold len. cbn [length]. lia.
    + unfold resolve_blocks, created. cbn [direct_blocks indirect_block].
      rewrite Hge. unfold bind, on_disk, zoom. rewrite Hread.
      unfold lift_result. rewrite Hback, set_disk_same. cbv [ok]. cbv iota.
      unfold ret. rewrite Hfilter, Hfidx. reflexivity.
    + unfold allocated_blocks, created. cbn [direct_blocks indirect_block].
      rewrite Hge. unfold bind, on_disk, zoom. rewrite Hread.
      unfold lift_result. rewrite Hback, set_disk_same. cbv [ok]. cbv iota.
      unfold ret. rewrite Hfilter, Hfidx, Hl. reflexivity.
Qed.

Lemma fresh_accepts name e :
  Utf8.encode (take (Z.to_nat MAX_FILENAME) name) = ok e ->
  accepts Scenario.fresh name 0 (INode_new 0).
Proof.
  intros He. unfold accepts.
  split; [vm_compute; reflexivity|].
  split; [vm_compute; split; discriminate|].
  split; [reflexivity|].
  split; [vm_compute; reflexivity|].
  split; [lia|]. split; [reflexivity|]. eauto.
Qed.

Lemma create_at_direct_boundary_witness :
  (exists l s',
     create_file [97] (replicate 640 7) 6 Scenario.fresh
     = Ret (true, MsgCreated [97] 10) s'
     /\ len l = 10
     /\ (direct_blocks <$> inodes s' !! 0%nat) = Some l
     /\ (indirect_block <$> inodes s' !! 0%nat) = Some (-1)
     /\ free_count (bitmap s') = free_count (bitmap Scenario.fresh) - 10)
  /\ (exists l ib s',
        create_file [97] (replicate 641 7) 6 Scenario.fresh
        = Ret (true, MsgCreated [97] 11) s'
        /\ len l = 10
        /\ (direct_blocks <$> inodes s' !! 0%nat) = Some l
        /\ (indirect_block <$> inodes s' !! 0%nat) = Some ib
        /\ 35 <= ib
        /\ free_count (bitmap s') = free_count (bitmap Scenario.fresh) - 12).
Proof.
  assert (Hacc : accepts Scenario.fresh [97] 0 (INode_new 0))
    by (apply (fresh_accepts [97] [97]); reflexivity).
  assert (Hspace : 12 <= free_count (bitmap Scenario.fresh))
    by (apply Z.leb_le; vm_compute; reflexivity).
  split.
  - destruct (create_at_direct_boundary Scenario.fresh [97] (replicate 640 7) 6 0
                (INode_new 0) Hacc) as [Hdirect _].
    destruct Hdirect as (l & s' & Hrun & Hl & _ & Hin & _ & Hcount & _);
      [reflexivity|lia|].
    exists l, s'. split; [exact Hrun|]. split; [exact Hl|].
    rewrite Hin. repeat split; try reflexivity. exact Hcount.
  - destruct (create_at_direct_boundary Scenario.fresh [97] (replicate 641 7) 6 0
                (INode_new 0) Hacc) as [_ Hindirect].
    destruct Hindirect as (l & ib & x & s' & Hrun & Hl & Htk & Hin & _ & Hcount & _);
      [reflexivity|lia|].
    exists l, ib, s'. split; [exact Hrun|]. split; [exact Hl|].
    rewrite Hin. repeat split; try reflexivity; try exact Hcount.
    apply takeable_range in Htk. rewrite list.Forall_forall in Htk.
    apply (Htk ib). rewrite elem_of_app. right. left.
Defined.

End CreateBoundary.

(** * Deleting a file in use *)

Section DeleteProtection.
Import FS VolumeSpec BitmapSpec AllocSpec DeleteSpec.

Lemma file_read_block d n :
  0 <= n -> VirtualDisk.file_read d (n * BLOCK_SIZE) = default [] (d !! Z.to_nat n).
Proof.
  intros Hn. unfold VirtualDisk.file_read, BLOCK_SIZE. rewrite Z.div_mul by lia.
  reflexivity.
Qed.

Lemma for_each_free_if_set b l :
  shaped b = true ->
  Forall (fun x => 0 <= x < 1024) (filter (fun x => x >= 0) l) ->
  for_each l free_if_set b = Ret tt (free_all (filter (fun x => x >= 0) l) b).
Proof.
  revert b. induction l as [|x l IH]; intros b Hs Hall; cbn [for_each]; [reflexivity|].
  rewrite filter_cons in *. unfold free_if_set at 1, bind.
  destruct (decide (x >= 0)) as [Hx|Hx].
  - apply list.Forall_cons in Hall. destruct Hall as [Hr Hall].
    replace (x >=? 0) with true by (symmetry; rewrite Z.geb_leb; apply Z.leb_le; lia).
    rewrite set_free_spec by assumption.
    apply IH; [apply shaped_mark_free|]; assumption.
  - replace (x >=? 0) with false by (symmetry; rewrite Z.geb_leb; apply Z.leb_gt; lia).
    unfold ret. apply IH; assumption.
Qed.

Lemma held_range b l : held b l -> Forall (fun x => 35 <= x < 1024) l.
Proof. intros [_ H]. revert H. apply Forall_impl. intros x [Hx _]. exact Hx. Qed.

Lemma list_find_alter {A} (P : A -> Prop) `{forall x, Decision (P x)}
    (f : A -> A) (l : list A) i x :
  (forall y, P (f y) <-> P y) ->
  list_find P l = Some (i, x) -> list_find P (alter f i l) = Some (i, f x).
Proof.
  intros Hf Hfind. apply list_find_Some in Hfind. destruct Hfind as (Hi & Hx & Hbefore).
  apply list_find_Some. split; [|split].
  - rewrite list_lookup_alter_eq, Hi. reflexivity.
  - apply Hf. assumption.
  - intros j y Hj Hlt. rewrite list_lookup_alter_ne in Hj by lia. eauto.
Qed.

Lemma forallb_alter {A} (p : A -> bool) (f : A -> A) i (l : list A) :
  forallb p l = true -> (forall x, p x = true -> p (f x) = true) ->
  forallb p (alter f i l) = true.
Proof.
  intros Hl Hf. rewrite forallb_forall in *. intros y Hy.
  apply list_elem_of_In, list_elem_of_lookup in Hy. destruct Hy as [j Hj].
  assert (Hin : forall z, l !! j = Some z -> p z = true).
  { intros z Hz. apply Hl, list_elem_of_In. eapply list_elem_of_lookup_2. eassumption. }
  destruct (decide (j = i)) as [->|Hne].
  - rewrite list_lookup_alter_eq in Hj. destruct (l !! i) as [z|] eqn:Hz; [|discriminate].
    injection Hj as <-. apply Hf, Hin. reflexivity.
  - rewrite list_lookup_alter_ne in Hj by congruence. auto.
Qed.

Lemma wp_bind_assoc {S A B} (m1 : M S unit) (m2 : M S A) (k : A -> M S B) Q E s :
  wp (m1 ;; m2) (fun a s' => wp (k a) Q E s') E s ->
  wp (m1 ;; a <- m2 ;; k a) Q E s.
Proof.
  unfold wp, bind. destruct (m1 s) as [[] s1|]; [|auto].
  destruct (m2 s1); auto.
Qed.

Lemma find_inode_spec name s i n (Q : option nat -> FileSystem -> Prop) E :
  list_find (fun inode => name_matches name inode = true) (inodes s) = Some (i, n) ->
  Q (Some i) s -> wp (_find_inode name) Q E s.
Proof.
  intros Hfind HQ. unfold _find_inode. wp_step. wp_step. wp_step. rewrite Hfind.
  exact HQ.
Qed.



Lemma packable_reset n : packable n = true -> packable (reset n) = true.
Proof.
  destruct n as [id nm sz ct mt pm us dr rc db ib]. unfold packable, reset.
  cbn [inode_id filename file_size direct_blocks indirect_block
       with_ref_count with_indirect_block with_direct_blocks with_file_size
       with_filename with_is_used].
  intros H. do 4 (apply andb_true_iff in H; destruct H as [H _]).
  rewrite H. reflexivity.
Qed.

(** A file nobody uses is deleted: its blocks are freed in the order
    [owned] lists them and its inode is reset. *)
Lemma delete_spec name s i n blocks E :
  sound s = true -> I_range (free_inodes (superblock s) + 1) = true ->
  list_find (fun inode => name_matches name inode = true) (inodes s) = Some (i, n) ->
  ref_count n <= 0 ->
  owned n (disk s) = ok blocks -> held (bitmap s) blocks ->
  wp (delete_file name)
     (fun r s' => r = (true, MsgDeleted name) /\ exists d',
        s' = set_disk d'
               (set_superblock
                  (sb_set_free_blocks (free_count (free_all blocks (bitmap s)))
                     (sb_add_free_inodes 1 (superblock s)))
                  (set_inodes (alter reset i (inodes s))
                     (set_bitmap (free_all blocks (bitmap s)) s))))
     E s.
Proof.
  intros Hsound Hfi Hfind Hrc Howned Hheld.
  unfold sound in Hsound.
  apply andb_true_iff in Hsound. destruct Hsound as [Hsound Hsb].
  apply andb_true_iff in Hsound. destruct Hsound as [Hpack Hshape].
  pose proof Hfind as Hi. apply list_find_Some in Hi. destruct Hi as (Hi & _).
  pose proof (held_range _ _ Hheld) as Hrange.
  unfold delete_file. wp_step. eapply find_inode_spec; [exact Hfind|].
  wp_step. eapply wp_inode_at; [exact Hi|].
  replace (ref_count n >? 0) with false
    by (symmetry; rewrite Z.gtb_ltb; apply Z.ltb_ge; assumption).
  (* the bitmap after the blocks are freed *)
  assert (Hfree : wp
    (on_bitmap (for_each (direct_blocks n) free_if_set) ;;
     (if indirect_block n >=? 0 then
        idx_data <- on_disk (VirtualDisk.read_block (indirect_block n)) ;;
        indices <- lift_result (IndexBlock.from_bytes idx_data) ;;
        on_bitmap (for_each indices free_if_set) ;;
        on_bitmap (BitmapOps.set_free (indirect_block n))
      else ret tt))
    (fun _ s' => s' = set_bitmap (free_all blocks (bitmap s)) s) E s).
  { unfold owned in Howned. wp_step.
    destruct (indirect_block n >=? 0) eqn:Hind.
    - rewrite Z.geb_leb in Hind. apply Z.leb_le in Hind.
      destruct (IndexBlock.from_bytes _) as [indices []|] eqn:Hidx; [|discriminate].
      cbn [rbind] in Howned. injection Howned as <-.
      rewrite file_read_block in Hidx by assumption.
      apply Forall_app in Hrange. destruct Hrange as [Hr1 Hr2].
      apply Forall_app in Hr2. destruct Hr2 as [Hr2 Hr3].
      apply Forall_inv in Hr3.
      eapply wp_on_bitmap_eq.
      { apply for_each_free_if_set; [assumption|].
        revert Hr1. apply Forall_impl. intros; lia. }
      wp_step. eapply wp_on_disk_eq.
      { apply read_block_ok. change (2 ^ 57) with 144115188075855872. lia. }
      rewrite set_disk_same. fsimpl. wp_step. rewrite Hidx. wp_step. cbv [ok]. cbv iota.
      wp_step. eapply wp_on_bitmap_eq.
      { fsimpl. apply for_each_free_if_set; [apply shaped_free_all; assumption|].
        revert Hr2. apply Forall_impl. intros; lia. }
      eapply wp_on_bitmap_eq.
      { fsimpl. apply set_free_spec; [|lia].
        apply shaped_free_all, shaped_free_all. assumption. }
      fsimpl. rewrite !free_all_app. reflexivity.
    - cbv [ok] in Howned. injection Howned as <-.
      eapply wp_on_bitmap_eq.
      { apply for_each_free_if_set; [assumption|].
        revert Hrange. apply Forall_impl. intros; lia. }
      wp_step. reflexivity. }
  apply wp_bind_assoc. eapply wp_mono; [exact Hfree| |intros ? HE; exact HE].
  cbv beta. intros _ s1 ->.
  unfold update_inode, add_free_inodes, update_superblock. do 14 wp_step. fsimpl.
  match goal with |- wp _ _ _ ?st =>
    replace st with
      (set_superblock (sb_add_free_inodes 1 (superblock s))
         (set_inodes (alter reset i (inodes s))
            (set_bitmap (free_all blocks (bitmap s)) s)))
  end.
  2:{ unfold set_inodes, set_superblock. fsimpl. rewrite !list_alter_alter_eq.
      reflexivity. }
  wp_step. wp_use save_metadata_spec.
  - unfold sound. fsimpl. rewrite sb_packable_add, Hsb.
    rewrite (shaped_free_all _ _ Hshape).
    rewrite forallb_alter; [reflexivity|assumption|]. apply packable_reset.
  - fsimpl. exact Hfi.
  - intros _ s2 (d2 & -> & _). fsimpl. wp_step. split; [reflexivity|].
    exists d2. destruct s. reflexivity.
Qed.

Lemma owned_count n s blocks :
  owned n (disk s) = ok blocks -> Forall (fun x => 35 <= x < 1024) blocks ->
  allocated_blocks n s = Ret (len blocks) s.
Proof.
  unfold owned, allocated_blocks. intros Howned Hrange.
  destruct (indirect_block n >=? 0) eqn:Hind.
  - rewrite Z.geb_leb in Hind. apply Z.leb_le in Hind.
    destruct (IndexBlock.from_bytes _) as [indices []|] eqn:Hidx; [|discriminate].
    cbn [rbind] in Howned. injection Howned as <-.
    rewrite file_read_block in Hidx by assumption.
    apply Forall_app in Hrange. destruct Hrange as [_ Hr2].
    apply Forall_app in Hr2. destruct Hr2 as [_ Hr3]. apply Forall_inv in Hr3.
    unfold bind, on_disk, zoom.
    rewrite read_block_ok by (change (2 ^ 57) with 144115188075855872; lia).
    rewrite set_disk_same. unfold lift_result. rewrite Hidx. cbv [ok]. cbv iota.
    unfold ret. f_equal. rewrite !len_app. unfold len. cbn [length]. lia.
  - cbv [ok] in Howned. injection Howned as <-. reflexivity.
Qed.

Lemma owned_above n n' d d' blocks :
  owned n d = ok blocks -> Forall (fun x => 35 <= x < 1024) blocks ->
  direct_blocks n' = direct_blocks n -> indirect_block n' = indirect_block n ->
  above 35 d d' -> owned n' d' = ok blocks.
Proof.
  unfold owned. intros Howned Hrange -> -> Hab.
  destruct (indirect_block n >=? 0) eqn:Hind; [|exact Howned].
  rewrite Z.geb_leb in Hind. apply Z.leb_le in Hind.
  rewrite file_read_block in * by assumption.
  destruct (IndexBlock.from_bytes (default [] (d !! _))) as [indices []|] eqn:Hidx;
    [|discriminate].
  cbn [rbind] in Howned. injection Howned as <-.
  apply Forall_app in Hrange. destruct Hrange as [_ Hr2].
  apply Forall_app in Hr2. destruct Hr2 as [_ Hr3]. apply Forall_inv in Hr3.
  rewrite (Hab (Z.to_nat (indirect_block n))) by lia. rewrite Hidx. reflexivity.
Qed.




End DeleteProtection.

(** * The bitmap as an allocator *)

Section Allocator.
Import BitmapOps BitmapSpec AllocSpec.

Lemma alter_fixed {A} (f : A -> A) i (l : list A) :
  (forall x, l !! i = Some x -> f x = x) -> alter f i l = l.
Proof.
  intros Hf. apply list_eq. intros j. destruct (decide (j = i)) as [->|Hne].
  - rewrite list_lookup_alter_eq. destruct (l !! i) as [x|] eqn:Hx; [|reflexivity].
    cbn. rewrite Hf; reflexivity.
  - apply list_lookup_alter_ne. congruence.
Qed.

Lemma lookup_range_from a k j :
  (j < k)%nat -> range_from a k !! j = Some (a + Z.of_nat j).
Proof.
  revert a j. induction k as [|k IH]; intros a j Hj; [lia|].
  destruct j as [|j]; cbn [range_from]; [cbn; f_equal; lia|].
  cbn [lookup list_lookup]. rewrite IH by lia. f_equal. lia.
Qed.

Lemma bitmap_eq b1 b2 :
  total_blocks b1 = total_blocks b2 -> bits b1 = bits b2 -> b1 = b2.
Proof. destruct b1, b2. cbn. intros -> ->. reflexivity. Qed.

(** Clearing a bit that was clear before it was set restores the byte. *)
Lemma mark_free_mark_used b n :
  0 <= n -> used b n = false -> mark_free n (mark_used n b) = b.
Proof.
  intros Hn Hu. apply bitmap_eq; [reflexivity|].
  unfold mark_free, mark_used. cbn [bits total_blocks].
  rewrite list_alter_alter_eq. apply alter_fixed. intros x Hx.
  unfold used in Hu. rewrite Hx in Hu. cbn in Hu.
  unfold compose. apply Z.bits_inj'. intros k Hk.
  rewrite land_lnot_bit, lor_bit by zdm.
  destruct (Z.eqb_spec (n mod 8) k) as [<-|_]; [rewrite Hu|]; btauto.
Qed.

Lemma mark_free_mark_used_comm b x y :
  0 <= x -> 0 <= y -> x <> y ->
  mark_free x (mark_used y b) = mark_used y (mark_free x b).
Proof.
  intros Hx Hy Hne. apply bitmap_eq; [reflexivity|].
  unfold mark_free, mark_used. cbn [bits total_blocks].
  destruct (decide (Z.to_nat (x / 8) = Z.to_nat (y / 8))) as [He|Hd].
  - rewrite He, !list_alter_alter_eq. apply list_alter_ext; [|reflexivity].
    intros v _. unfold compose. apply Z.bits_inj'. intros k Hk.
    rewrite land_lnot_bit, !lor_bit, land_lnot_bit by zdm.
    assert (Hmod : x mod 8 <> y mod 8).
    { intros Hm. apply Hne. assert (x / 8 = y / 8) by zdm.
      rewrite (Z.div_mod x 8), (Z.div_mod y 8) by lia. congruence. }
    destruct (Z.eqb_spec (y mod 8) k), (Z.eqb_spec (x mod 8) k); try congruence; btauto.
  - apply list_alter_alter_ne. assumption.
Qed.

Lemma mark_free_mark_all b x l :
  0 <= x -> Forall (fun y => 0 <= y) l -> x ∉ l ->
  mark_free x (mark_all l b) = mark_all l (mark_free x b).
Proof.
  intros Hx. revert b. induction l as [|y l IH]; intros b Hl Hnot; [reflexivity|].
  apply list.Forall_cons in Hl. destruct Hl as [Hy Hl].
  apply not_elem_of_cons in Hnot. destruct Hnot as [Hne Hnot].
  cbn [mark_all foldl]. change (foldl _ ?B l) with (mark_all l B).
  rewrite IH by assumption. rewrite mark_free_mark_used_comm by assumption.
  reflexivity.
Qed.

(** Freeing what was taken, in the order it was taken, restores the
    bitmap. *)
Lemma free_all_mark_all b l :
  shaped b = true -> takeable b l -> free_all l (mark_all l b) = b.
Proof.
  intros Hs. induction l as [|x l IH]; intros [Hnd Hall]; [reflexivity|].
  apply list.NoDup_cons in Hnd. destruct Hnd as [Hx Hnd].
  apply list.Forall_cons in Hall. destruct Hall as [[Hdx Hfx] Hall].
  unfold in_data, DATA_START in Hdx.
  cbn [mark_all free_all foldl].
  change (foldl (fun b x => mark_used x b) ?B l) with (mark_all l B).
  change (foldl (fun b x => mark_free x b) ?B l) with (free_all l B).
  rewrite mark_free_mark_all; [| lia | | assumption].
  - rewrite mark_free_mark_used; [apply IH; split; assumption|lia|].
    unfold free in Hfx. apply andb_true_iff in Hfx. destruct Hfx as [_ Hfx].
    apply negb_true_iff. assumption.
  - revert Hall. apply Forall_impl. unfold in_data, DATA_START. intros y [Hy _]. lia.
Qed.

Lemma for_each_set_free b l :
  shaped b = true -> Forall (fun x => 0 <= x < 1024) l ->
  for_each l set_free b = Ret tt (free_all l b).
Proof.
  revert b. induction l as [|x l IH]; intros b Hs Hl; [reflexivity|].
  apply list.Forall_cons in Hl. destruct Hl as [Hx Hl].
  cbn [for_each]. unfold bind. rewrite set_free_spec by assumption.
  apply IH; [apply shaped_mark_free|]; assumption.
Qed.

Lemma free_mark_all b l x :
  shaped b = true -> Forall (fun y => 0 <= y < 1024) l ->
  free (mark_all l b) x = free b x && bool_decide (x ∉ l).
Proof.
  revert b. induction l as [|y l IH]; intros b Hs Hl.
  - cbn. rewrite bool_decide_eq_true_2 by apply not_elem_of_nil.
    rewrite andb_true_r. reflexivity.
  - apply list.Forall_cons in Hl. destruct Hl as [Hy Hl].
    cbn [mark_all foldl]. change (foldl _ ?B l) with (mark_all l B).
    rewrite IH by (try apply shaped_mark_used; assumption).
    rewrite free_mark_used by assumption. rewrite <- andb_assoc. f_equal.
    destruct (Z.eqb_spec x y) as [->|Hne]; cbn [negb andb].
    + symmetry. apply bool_decide_eq_false. intros H. apply H. left.
    + apply bool_decide_ext. rewrite not_elem_of_cons. tauto.
Qed.

Lemma takeable_in_range b l :
  takeable b l -> Forall (fun x => 0 <= x < 1024) l.
Proof.
  intros [_ H]. revert H. apply Forall_impl.
  unfold in_data, DATA_START, TOTAL_BLOCKS. intros x [Hx _]. lia.
Qed.

Lemma free_blocks_count_inv b c :
  shaped b = true -> free_blocks_count b = Ret c b -> c = free_count b.
Proof.
  intros Hs H. rewrite free_blocks_count_spec in H by assumption. congruence.
Qed.

(** With no free block left the scan fails and touches nothing. *)
Lemma allocate_block_none b :
  shaped b = true -> free_count b <= 0 -> allocate_block b = Ret (-1) b.
Proof.
  intros Hs Hc. unfold allocate_block, bind, get.
  rewrite allocate_scan_spec by assumption.
  destruct (list_find _ _) as [[i x]|] eqn:Hfind; [|reflexivity].
  exfalso. apply list_find_Some in Hfind. destruct Hfind as (Hi & Hf & _).
  apply list_elem_of_lookup_2 in Hi. revert Hc Hi Hf. unfold free_count.
  generalize (range DATA_START (total_blocks b)).
  induction l as [|y l IH]; intros Hc Hi Hf; [inversion Hi|].
  cbn [count] in Hc. pose proof (count_nonneg (free b) l).
  apply elem_of_cons in Hi. destruct Hi as [->|Hi].
  - rewrite Hf in Hc. lia.
  - apply IH; [destruct (free b y); lia|assumption|assumption].
Qed.

Lemma allocate_loop_short k :
  forall b blocks,
    shaped b = true -> free_count b < Z.of_nat k ->
    Forall (fun x => 0 <= x < 1024) blocks ->
    exists l, takeable b l
              /\ allocate_loop k blocks b = Ret [] (free_all (blocks ++ l) (mark_all l b)).
Proof.
  induction k as [|k IH]; intros b blocks Hs Hc Hb; cbn [allocate_loop].
  - pose proof (count_nonneg (free b) (range DATA_START (total_blocks b))) as Hn.
    unfold free_count in Hc. lia.
  - destruct (decide (0 < free_count b)) as [Hpos|Hzero].
    + destruct (allocate_block_spec b Hs Hpos) as (x & Hx & Hdx & Hfx).
      unfold bind at 1. rewrite Hx.
      assert (Hdx' := Hdx). unfold in_data, DATA_START, TOTAL_BLOCKS in Hdx'.
      replace (x =? -1) with false by (symmetry; apply Z.eqb_neq; lia).
      destruct (IH (mark_used x b) (blocks ++ [x])) as (l & Htk & Hl).
      * apply shaped_mark_used. assumption.
      * rewrite free_count_mark_used by (assumption || apply Hdx). lia.
      * apply Forall_app. split; [assumption|]. repeat constructor; lia.
      * exists (x :: l). split; [apply takeable_cons; assumption|].
        rewrite Hl, <- app_assoc. reflexivity.
    + exists []. split; [split; constructor|].
      unfold bind at 1. rewrite allocate_block_none by (assumption || lia).
      change (-1 =? -1) with true. cbv iota. unfold bind.
      rewrite for_each_set_free by assumption. rewrite app_nil_r. reflexivity.
Qed.

(** X1: [allocate_blocks n] on a bitmap with at least [n] free data
    blocks hands out [n] distinct blocks of the data region that were
    free and are used afterwards, changes no other block, and lowers
    [free_blocks_count] by exactly [n]. *)
Theorem allocate_blocks_takes_free (b : Bitmap) (n c : Z) :
  shaped b = true -> free_blocks_count b = Ret c b -> 0 <= n <= c ->
  exists l b',
    allocate_blocks n b = Ret l b'
    /\ len l = n /\ NoDup l
    /\ Forall (fun x => DATA_START <= x < TOTAL_BLOCKS
                        /\ is_free x b = Ret true b
                        /\ is_free x b' = Ret false b') l
    /\ (forall x, x ∉ l ->
          exists r, is_free x b = Ret r b /\ is_free x b' = Ret r b')
    /\ free_blocks_count b' = Ret (c - n) b'.
Proof.
  intros Hs Hc Hn. apply free_blocks_count_inv in Hc; [|assumption]. subst c.
  destruct (allocate_blocks_spec b n Hs Hn) as (l & Hl & Hlen & Htk).
  pose proof (takeable_in_range b l Htk) as Hr.
  pose proof (shaped_mark_all l b Hs) as Hs'.
  exists l, (mark_all l b). split; [exact Hl|]. split; [exact Hlen|].
  destruct Htk as [Hnd Hall]. split; [exact Hnd|]. split; [|split].
  - rewrite list.Forall_forall. rewrite list.Forall_forall in Hall.
    intros x Hx. destruct (Hall x Hx) as [Hd Hf].
    split; [exact Hd|]. rewrite !is_free_spec by assumption.
    rewrite free_mark_all by assumption. rewrite Hf.
    rewrite bool_decide_eq_false_2 by tauto. auto.
  - intros x Hx. exists (free b x). rewrite !is_free_spec by assumption.
    rewrite free_mark_all by assumption.
    rewrite bool_decide_eq_true_2 by assumption. rewrite andb_true_r. auto.
  - rewrite free_blocks_count_spec by assumption.
    rewrite free_count_mark_all by (assumption || split; assumption).
    rewrite Hlen. reflexivity.
Qed.

Lemma allocate_blocks_takes_free_witness :
  let b := state_of (init TOTAL_BLOCKS {| total_blocks := 0; bits := [] |}) in
  shaped b = true
  /\ free_blocks_count b = Ret 989 b
  /\ exists l b',
       allocate_blocks 3 b = Ret l b'
       /\ len l = 3 /\ NoDup l
       /\ Forall (fun x => DATA_START <= x < TOTAL_BLOCKS
                           /\ is_free x b = Ret true b
                           /\ is_free x b' = Ret false b') l
       /\ (forall x, x ∉ l ->
             exists r, is_free x b = Ret r b /\ is_free x b' = Ret r b')
       /\ free_blocks_count b' = Ret (989 - 3) b'.
Proof.
  cbv zeta. split; [vm_compute; reflexivity|]. split; [vm_compute; reflexivity|].
  apply allocate_blocks_takes_free; [vm_compute; reflexivity..|lia].
Defined.

(** X2: when fewer than [n] data blocks are free, [allocate_blocks n]
    returns the empty list and the bitmap is exactly as before: the
    blocks taken before the failure are all given back. *)
Theorem allocate_blocks_rolls_back (b : Bitmap) (n c : Z) :
  shaped b = true -> free_blocks_count b = Ret c b -> c < n ->
  allocate_blocks n b = Ret [] b.
Proof.
  intros Hs Hc Hn. apply free_blocks_count_inv in Hc; [|assumption]. subst c.
  pose proof (count_nonneg (free b) (range DATA_START (total_blocks b))) as Hnn.
  fold (free_count b) in Hnn. unfold allocate_blocks.
  destruct (allocate_loop_short (Z.to_nat n) b [] Hs) as (l & Htk & Hl);
    [lia|constructor|].
  rewrite Hl. cbn [app]. rewrite free_all_mark_all by assumption. reflexivity.
Qed.

Lemma allocate_blocks_rolls_back_witness :
  let b := state_of (init TOTAL_BLOCKS {| total_blocks := 0; bits := [] |}) in
  allocate_blocks 990 b = Ret [] b.
Proof.
  cbv zeta.
  apply (allocate_blocks_rolls_back _ 990 989); [vm_compute; reflexivity..|lia].
Defined.

(** X3: [allocate_block] is first-fit over the data region: it returns
    the lowest-numbered free data block and marks it used, or returns
    [-1] and changes nothing when no data block is free. *)
Theorem allocate_block_first_fit (b : Bitmap) :
  shaped b = true ->
  exists x b',
    allocate_block b = Ret x b'
    /\ ((x = -1 /\ b' = b
         /\ forall y, DATA_START <= y < TOTAL_BLOCKS -> is_free y b = Ret false b)
        \/ (DATA_START <= x < TOTAL_BLOCKS
            /\ is_free x b = Ret true b
            /\ set_used x b = Ret tt b'
            /\ forall y, DATA_START <= y < x -> is_free y b = Ret false b)).
Proof.
  intros Hs. destruct (shaped_spec b Hs) as [Ht _].
  unfold allocate_block, bind, get. rewrite allocate_scan_spec by assumption.
  destruct (list_find _ _) as [[i x]|] eqn:Hfind.
  - apply list_find_Some in Hfind. destruct Hfind as (Hi & Hf & Hbefore).
    pose proof (list_elem_of_lookup_2 _ _ _ Hi) as Hin.
    apply elem_of_range in Hin. rewrite Ht in Hin.
    exists x, (mark_used x b). split; [reflexivity|]. right.
    split; [unfold TOTAL_BLOCKS; lia|]. split; [rewrite is_free_spec, Hf; auto|].
    split; [apply set_used_spec; [assumption|unfold DATA_START in Hin; lia]|].
    intros y Hy. rewrite is_free_spec by assumption. f_equal.
    assert (Hlook : forall j, (j < Z.to_nat (total_blocks b - DATA_START))%nat ->
              range DATA_START (total_blocks b) !! j = Some (DATA_START + Z.of_nat j)).
    { intros j Hj. apply lookup_range_from. assumption. }
    assert (Hix : x = DATA_START + Z.of_nat i).
    { pose proof (lookup_lt_Some _ _ _ Hi) as Hlt. unfold range in Hlt.
      rewrite length_range_from in Hlt. rewrite Hlook in Hi by assumption. congruence. }
    specialize (Hbefore (Z.to_nat (y - DATA_START)) y).
    destruct (free b y) eqn:Hfy; [|reflexivity]. exfalso. apply Hbefore; [|lia|reflexivity].
    rewrite Hlook by (rewrite Ht; unfold TOTAL_BLOCKS in *; lia). f_equal. lia.
  - exists (-1), b. split; [reflexivity|]. left. split; [reflexivity|].
    split; [reflexivity|]. intros y Hy. rewrite is_free_spec by assumption. f_equal.
    apply list_find_None in Hfind. rewrite list.Forall_forall in Hfind.
    destruct (free b y) eqn:Hfy; [|reflexivity]. exfalso. apply (Hfind y); [|assumption].
    apply elem_of_range. rewrite Ht. assumption.
Qed.

Lemma allocate_block_first_fit_witness :
  let b := state_of (init TOTAL_BLOCKS {| total_blocks := 0; bits := [] |}) in
  exists x b',
    allocate_block b = Ret x b'
    /\ ((x = -1 /\ b' = b
         /\ forall y, DATA_START <= y < TOTAL_BLOCKS -> is_free y b = Ret false b)
        \/ (DATA_START <= x < TOTAL_BLOCKS
            /\ is_free x b = Ret true b
            /\ set_used x b = Ret tt b'
            /\ forall y, DATA_START <= y < x -> is_free y b = Ret false b)).
Proof. cbv zeta. apply allocate_block_first_fit. vm_compute. reflexivity. Defined.

(** X4: [set_used] and [set_free] act on one bit: after [set_used n],
    [is_free n] is false, after [set_free n] it is true, and the answer
    of [is_free] for any other block is unchanged.  A block number
    outside the bitmap is ignored by both and never reported free. *)
Theorem bitmap_set_then_test (b : Bitmap) (n m : Z) :
  shaped b = true ->
  (0 <= n < TOTAL_BLOCKS ->
     exists b1 b2,
       set_used n b = Ret tt b1 /\ set_free n b = Ret tt b2
       /\ is_free n b1 = Ret false b1 /\ is_free n b2 = Ret true b2
       /\ (m <> n ->
           exists r, is_free m b = Ret r b
                     /\ is_free m b1 = Ret r b1 /\ is_free m b2 = Ret r b2))
  /\ (n < 0 \/ TOTAL_BLOCKS <= n ->
      set_used n b = Ret tt b /\ set_free n b = Ret tt b
      /\ is_free n b = Ret false b).
Proof.
  intros Hs. split.
  - unfold TOTAL_BLOCKS. intros Hn.
    exists (mark_used n b), (mark_free n b).
    pose proof (shaped_mark_used n b Hs) as Hs1.
    pose proof (shaped_mark_free n b Hs) as Hs2.
    rewrite set_used_spec, set_free_spec by assumption.
    split; [reflexivity|]. split; [reflexivity|].
    rewrite !is_free_spec by assumption.
    rewrite free_mark_used, free_mark_free by assumption.
    rewrite Z.eqb_refl, andb_false_r, orb_true_r.
    split; [reflexivity|]. split; [reflexivity|].
    intros Hne. exists (free b m).
    rewrite free_mark_used by assumption.
    replace (m =? n) with false by (symmetry; apply Z.eqb_neq; assumption).
    rewrite andb_true_r. split; [reflexivity|]. split; [reflexivity|]. f_equal.
    destruct (decide (0 <= m < 1024)) as [Hm|Hm].
    + rewrite free_mark_free by assumption.
      replace (m =? n) with false by (symmetry; apply Z.eqb_neq; assumption).
      apply orb_false_r.
    + unfold free. cbn [mark_free total_blocks].
      destruct ((0 <=? m) && (m <? total_blocks b)) eqn:Hr; [|reflexivity].
      apply (in_range_test b m Hs) in Hr. contradiction.
  - intros Hn. destruct (shaped_spec b Hs) as [Ht _].
    unfold set_used, set_free, is_free, bind, get. rewrite Ht.
    replace ((0 <=? n) && (n <? 1024)) with false; [auto|].
    symmetry. apply andb_false_iff. unfold TOTAL_BLOCKS in Hn.
    destruct Hn; [left; apply Z.leb_gt|right; apply Z.ltb_ge]; lia.
Qed.

Lemma bitmap_set_then_test_witness :
  let b := state_of (init TOTAL_BLOCKS {| total_blocks := 0; bits := [] |}) in
  (exists b1 b2,
     set_used 40 b = Ret tt b1 /\ set_free 40 b = Ret tt b2
     /\ is_free 40 b1 = Ret false b1 /\ is_free 40 b2 = Ret true b2
     /\ (41 <> 40 ->
         exists r, is_free 41 b = Ret r b
                   /\ is_free 41 b1 = Ret r b1 /\ is_free 41 b2 = Ret r b2))
  /\ set_used 1024 b = Ret tt b /\ set_free (-1) b = Ret tt b.
Proof.
  cbv zeta.
  assert (Hs : shaped (state_of (init TOTAL_BLOCKS {| total_blocks := 0; bits := [] |}))
               = true) by (vm_compute; reflexivity).
  split; [|split].
  - apply (proj1 (bitmap_set_then_test _ 40 41 Hs)). unfold TOTAL_BLOCKS. lia.
  - apply (proj2 (bitmap_set_then_test _ 1024 0 Hs)). unfold TOTAL_BLOCKS. lia.
  - apply (proj2 (bitmap_set_then_test _ (-1) 0 Hs)). lia.
Defined.

(** X5: [set_free] of a data block raises [free_blocks_count] by one if
    the block was used and leaves it unchanged if the block was already
    free, so freeing a block twice is counted once; the second
    [set_free] changes nothing. *)
Theorem set_free_counted_once (b : Bitmap) (n c : Z) (r : bool) :
  shaped b = true -> DATA_START <= n < TOTAL_BLOCKS ->
  free_blocks_count b = Ret c b -> is_free n b = Ret r b ->
  exists b',
    set_free n b = Ret tt b'
    /\ free_blocks_count b' = Ret (if r then c else c + 1) b'
    /\ set_free n b' = Ret tt b'.
Proof.
  unfold DATA_START, TOTAL_BLOCKS. intros Hs Hn Hc Hr.
  apply free_blocks_count_inv in Hc; [|assumption]. subst c.
  rewrite is_free_spec in Hr by assumption.
  assert (Hfr : free b n = r) by congruence. clear Hr.
  assert (Hu : used b n = negb r).
  { unfold free in Hfr. rewrite (proj2 (in_range_test b n Hs)) in Hfr by lia.
    cbn [andb] in Hfr. rewrite <- Hfr, negb_involutive. reflexivity. }
  pose proof (shaped_mark_free n b Hs) as Hs'.
  assert (Hidem : mark_free n (mark_free n b) = mark_free n b).
  { apply bitmap_eq; [reflexivity|]. unfold mark_free. cbn [bits total_blocks].
    rewrite list_alter_alter_eq. apply list_alter_ext; [|reflexivity].
    intros x _. unfold compose. apply Z.bits_inj'. intros k Hk.
    rewrite !land_lnot_bit by zdm. btauto. }
  exists (mark_free n b). rewrite !set_free_spec by (assumption || lia).
  rewrite Hidem. split; [reflexivity|]. split; [|reflexivity].
  rewrite free_blocks_count_spec by assumption. f_equal.
  destruct r; cbn [negb] in Hu.
  - f_equal. apply bitmap_eq; [reflexivity|]. unfold mark_free. cbn [bits].
    apply alter_fixed. intros x Hx. unfold used in Hu. rewrite Hx in Hu. cbn in Hu.
    apply Z.bits_inj'. intros k Hk.
    rewrite land_lnot_bit by zdm.
    destruct (Z.eqb_spec (n mod 8) k) as [<-|_]; [rewrite Hu|]; btauto.
  - apply free_count_mark_free; [assumption|assumption|unfold DATA_START; lia].
Qed.

Lemma set_free_counted_once_witness :
  let b := state_of (allocate_block
                       (state_of (init TOTAL_BLOCKS {| total_blocks := 0; bits := [] |}))) in
  exists b',
    set_free 35 b = Ret tt b'
    /\ free_blocks_count b' = Ret 989 b'
    /\ set_free 35 b' = Ret tt b'.
Proof.
  cbv zeta.
  apply (set_free_counted_once _ 35 988 false);
    [vm_compute; reflexivity|unfold DATA_START, TOTAL_BLOCKS; lia
    |vm_compute; reflexivity..].
Defined.

End Allocator.

(** * Block codecs *)

Section Codecs.
Import Struct CodecSpec.

Lemma pack_each_I_roundtrip vs :
  Forall uint32 vs ->
  exists d, pack_each pack_I vs = ok d
            /\ length d = (length vs * 4)%nat
            /\ unpack_each unpack_I 4 (length vs) d = ok vs.
Proof.
  induction 1 as [|v vs Hv _ IH]; cbn [pack_each unpack_each length].
  - exists []. auto.
  - destruct IH as (d & Hd & Hlen & Hun).
    rewrite (pack_I_ok v Hv), Hd. cbn [rbind ok app].
    eexists. split; [reflexivity|]. split; [cbn [length]; lia|].
    cbn [take drop firstn skipn]. rewrite take_0, drop_0, (unpack_pack_I v Hv), Hun.
    reflexivity.
Qed.

Lemma pack_I_err v : ~ uint32 v -> pack_I v = err StructError.
Proof.
  unfold uint32, pack_I. intros H.
  destruct ((0 <=? v) && (v <? 2 ^ 32)) eqn:E; [|reflexivity].
  exfalso. apply H. zbool. lia.
Qed.

Lemma pack_I_cases v : (exists b, pack_I v = ok b) \/ pack_I v = err StructError.
Proof. unfold pack_I. destruct (_ && _); eauto. Qed.

Lemma pack_each_I_err vs :
  Exists (fun v => ~ uint32 v) vs -> pack_each pack_I vs = err StructError.
Proof.
  induction 1 as [v vs Hv|v vs _ IH]; cbn [pack_each].
  - rewrite pack_I_err by assumption. reflexivity.
  - rewrite IH. destruct (pack_I_cases v) as [[b ->]| ->]; reflexivity.
Qed.

Lemma superblock_codec sb :
  Forall uint32 (sb_fields sb) ->
  exists d, SuperBlock_to_bytes sb = ok d /\ len d = BLOCK_SIZE
            /\ SuperBlock_from_bytes d = ok sb.
Proof.
  intros Hall. destruct (pack_each_I_roundtrip _ Hall) as (d & Hd & Hlen & Hun).
  change (length (sb_fields sb)) with 7%nat in Hlen, Hun.
  assert (Hl : len d = 28) by (unfold len; lia).
  unfold SuperBlock_to_bytes, pack_n. fold (sb_fields sb).
  destruct (decide (length (sb_fields sb) = 7%nat)) as [_|Hn]; [|exfalso; apply Hn; reflexivity].
  rewrite Hd. cbn [rbind ok]. eexists. split; [reflexivity|].
  split; [apply len_ljust; unfold BLOCK_SIZE; lia|].
  unfold SuperBlock_from_bytes, ljust, unpack_n.
  assert (Hsl : forall rest, slice 0 28 (d ++ rest) = d).
  { intros rest. rewrite <- Hl. apply slice_prefix. }
  rewrite !Hsl.
  destruct (decide (length d = (7 * 4)%nat)) as [_|Hn]; [|exfalso; apply Hn; exact Hlen].
  rewrite Hun. cbn [rbind ok sb_fields]. destruct sb. reflexivity.
Qed.

(** X6: a superblock whose seven fields fit an unsigned 32-bit integer
    is packed into exactly one block from which [from_bytes] recovers
    it; with any field outside that range [to_bytes] raises
    [struct.error]. *)
Theorem superblock_roundtrip (sb : SuperBlock) :
  (Forall uint32 (sb_fields sb) ->
     exists d, SuperBlock_to_bytes sb = ok d /\ len d = BLOCK_SIZE
               /\ SuperBlock_from_bytes d = ok sb)
  /\ (~ Forall uint32 (sb_fields sb) -> SuperBlock_to_bytes sb = err StructError).
Proof.
  split; [apply superblock_codec|].
  intros Hnot. apply not_Forall_Exists in Hnot; [|intros v; unfold uint32; apply _].
  unfold SuperBlock_to_bytes, pack_n. fold (sb_fields sb).
  destruct (decide (length (sb_fields sb) = 7%nat)) as [_|Hn]; [|exfalso; apply Hn; reflexivity].
  rewrite pack_each_I_err by assumption. reflexivity.
Qed.

Lemma superblock_roundtrip_witness :
  (exists d, SuperBlock_to_bytes SuperBlock_new = ok d /\ len d = BLOCK_SIZE
             /\ SuperBlock_from_bytes d = ok SuperBlock_new)
  /\ SuperBlock_to_bytes
       {| magic := 0x4F534653; sb_total_blocks := 1024; block_size := 64;
          free_blocks := 989; free_inodes := -1; inode_count := 32;
          data_start := 35 |} = err StructError.
Proof.
  split.
  - apply (proj1 (superblock_roundtrip SuperBlock_new)).
    unfold sb_fields, uint32. cbn.
    unfold TOTAL_BLOCKS, BLOCK_SIZE, DATA_START, MAX_INODES.
    repeat (apply List.Forall_cons; [lia|]). apply List.Forall_nil.
  - apply (proj2 (superblock_roundtrip _)). intros H.
    unfold sb_fields, uint32 in H. cbn in H.
    do 4 apply Forall_inv_tail in H. apply Forall_inv in H. lia.
Defined.

Lemma unpack_n_short u w n d :
  length d <> (n * w)%nat -> unpack_n u w n d = err StructError.
Proof. intros H. unfold unpack_n. destruct (decide _); [contradiction|reflexivity]. Qed.

(** X7: an index block of sixteen entries that fit a signed 32-bit
    integer is packed into exactly one block from which [from_bytes]
    recovers the entries; [to_bytes] raises [struct.error] for any
    other number of entries, and [from_bytes] raises it for fewer than
    64 bytes, as a read past the end of the disk returns. *)
Theorem index_block_codec (indices : list Z) :
  (length indices = 16%nat -> Forall int32 indices ->
     exists d, IndexBlock.to_bytes indices = ok d /\ len d = BLOCK_SIZE
               /\ IndexBlock.from_bytes d = ok indices)
  /\ (length indices <> 16%nat -> IndexBlock.to_bytes indices = err StructError)
  /\ (forall d, len d < 64 -> IndexBlock.from_bytes d = err StructError).
Proof.
  split; [|split].
  - intros Hlen Hall.
    destruct (index_block_roundtrip indices Hlen Hall) as (d & Hd & Hpad & Hfrom).
    exists d. split; [exact Hd|]. split; [|exact Hfrom].
    rewrite <- Hpad. apply len_ljust. apply len_slice_0. unfold BLOCK_SIZE. lia.
  - intros Hlen. unfold IndexBlock.to_bytes, pack_n.
    destruct (decide _); [contradiction|reflexivity].
  - intros d Hd. unfold IndexBlock.from_bytes. apply unpack_n_short.
    unfold slice. rewrite length_take, length_drop. unfold len in Hd. lia.
Qed.

Lemma index_block_codec_witness :
  (exists d, IndexBlock.to_bytes (45 :: replicate 15 (-1)) = ok d
             /\ len d = BLOCK_SIZE
             /\ IndexBlock.from_bytes d = ok (45 :: replicate 15 (-1)))
  /\ IndexBlock.to_bytes (replicate 17 40) = err StructError
  /\ IndexBlock.from_bytes [] = err StructError.
Proof.
  split; [|split].
  - apply (proj1 (index_block_codec _)); [reflexivity|].
    unfold int32. cbn.
    repeat (apply List.Forall_cons; [lia|]). apply List.Forall_nil.
  - apply (proj1 (proj2 (index_block_codec _))). rewrite length_replicate. lia.
  - apply (proj2 (proj2 (index_block_codec []))). unfold len. cbn [length]. lia.
Defined.

End Codecs.

(** * Blocks of the disk *)

Section DiskBlocks.
Import VirtualDisk DiskSpec CodecSpec.

Lemma len_padded data : len (padded data) = BLOCK_SIZE.
Proof. apply len_ljust. apply len_slice_0. unfold BLOCK_SIZE. lia. Qed.

Lemma padded_exact data : len data = BLOCK_SIZE -> padded data = data.
Proof.
  intros H. unfold padded. rewrite slice_0_ge by lia.
  unfold ljust. rewrite H, Z.sub_diag. apply app_nil_r.
Qed.

Lemma file_write_insert f n dt :
  0 <= n -> (Z.to_nat n < length f)%nat ->
  file_write f (n * BLOCK_SIZE) dt = <[Z.to_nat n := dt]> f.
Proof.
  intros Hn Hlt. unfold file_write, BLOCK_SIZE. rewrite Z.div_mul by lia.
  destruct (decide _); [reflexivity|contradiction].
Qed.

Lemma well_formed_insert f k dt :
  well_formed f = true -> len dt = BLOCK_SIZE -> well_formed (<[k := dt]> f) = true.
Proof.
  unfold well_formed. intros H Hdt. apply andb_true_iff in H. destruct H as [Hl Hall].
  apply andb_true_iff. split.
  - unfold len in *. rewrite length_insert. assumption.
  - apply forallb_insert; [assumption|]. apply Z.eqb_eq. assumption.
Qed.

(** X8: on a disk of [TOTAL_BLOCKS] blocks, [write_block] of a block
    inside the disk stores the data cut or zero-padded to one block,
    [read_block] of that block returns exactly that, every other block
    reads as before, and the disk keeps its size. *)
Theorem write_then_read_block (f : list (list Z)) (n m : Z) (data : list Z) :
  well_formed f = true -> 0 <= n < TOTAL_BLOCKS ->
  exists f',
    write_block n data f = Ret tt f'
    /\ well_formed f' = true
    /\ read_block n f' = Ret (ljust BLOCK_SIZE (slice 0 BLOCK_SIZE data)) f'
    /\ (0 <= m < 2 ^ 57 -> m <> n ->
        exists b, read_block m f = Ret b f /\ read_block m f' = Ret b f').
Proof.
  unfold TOTAL_BLOCKS. intros Hwf Hn.
  destruct (well_formed_spec f Hwf) as [Hlen _].
  exists (<[Z.to_nat n := padded data]> f).
  rewrite write_block_ok by lia. fold (padded data).
  rewrite file_write_insert by lia. split; [reflexivity|].
  split; [apply well_formed_insert; [assumption|apply len_padded]|].
  split.
  - rewrite read_block_ok by lia. rewrite list_lookup_insert_eq by lia. reflexivity.
  - intros Hm Hne. exists (default [] (f !! Z.to_nat m)).
    rewrite !read_block_ok by lia. rewrite list_lookup_insert_ne by lia. auto.
Qed.

Lemma write_then_read_block_witness :
  exists f',
    write_block 40 [1; 2; 3] blank = Ret tt f'
    /\ well_formed f' = true
    /\ read_block 40 f' = Ret (ljust BLOCK_SIZE (slice 0 BLOCK_SIZE [1; 2; 3])) f'
    /\ (0 <= 41 < 2 ^ 57 -> 41 <> 40 ->
        exists b, read_block 41 blank = Ret b blank /\ read_block 41 f' = Ret b f').
Proof.
  apply write_then_read_block; [vm_compute; reflexivity|unfold TOTAL_BLOCKS; lia].
Defined.

Lemma read_blocks_from_spec f l acc :
  Forall (fun b => b < 2 ^ 57) l ->
  read_blocks_from l acc f
  = Ret (acc ++ concat (map (fun b => default [] (f !! Z.to_nat b))
                          (filter (fun b => b >= 0) l))) f.
Proof.
  revert acc. induction l as [|x l IH]; intros acc Hl; cbn [read_blocks_from].
  - cbn. rewrite app_nil_r. reflexivity.
  - apply list.Forall_cons in Hl. destruct Hl as [Hx Hl]. rewrite filter_cons.
    destruct (decide (x >= 0)) as [Hge|Hlt].
    + replace (x >=? 0) with true by (symmetry; rewrite Z.geb_leb; apply Z.leb_le; lia).
      unfold bind. rewrite read_block_ok by lia. rewrite IH by assumption.
      cbn [map concat]. rewrite app_assoc. reflexivity.
    + replace (x >=? 0) with false by (symmetry; rewrite Z.geb_leb; apply Z.leb_gt; lia).
      apply IH. assumption.
Qed.

End DiskBlocks.

(** * Reading a record back *)

Section RecordReload.
Import INodeCodec Struct INodeSpec.

Lemma record_reload (n : INode) (slot : Z) :
  fits_record n = true ->
  exists d, to_bytes n = ok d /\ from_bytes d slot = reloaded slot n.
Proof.
  intros Hfit. apply fits_record_spec in Hfit.
  destruct Hfit as (Hid & (e & He & Hle) & Hlast & Hsz & Hp & Hr & Hlen & Hdb & Hib).
  pose proof (flags_roundtrip n Hp Hr) as Hfl. cbv zeta in Hfl.
  destruct Hfl as (Hf & Hu & Hd & Hfp & Hfr).
  pose proof (name_field_roundtrip _ _ He Hle Hlast) as Hname.
  destruct n as [i nm sz ct mt p u d r db ib].
  cbn [inode_id filename file_size permission is_used is_directory ref_count
       direct_blocks indirect_block] in *.
  do 11 (destruct db as [|? db]; try discriminate Hlen). clear Hlen.
  repeat match goal with
  | H : Forall _ (_ :: _) |- _ => inversion_clear H
  end.
  unfold to_bytes, reloaded.
  cbn [inode_id filename file_size permission is_used is_directory ref_count
       direct_blocks indirect_block].
  set (fl := flags_of _) in *.
  rewrite He. cbn [rbind ok]. rewrite (pack_B_ok i Hid). cbn [rbind ok].
  rewrite (pack_I_ok sz Hsz). cbn [rbind ok]. rewrite (pack_B_ok _ Hf). cbn [rbind ok].
  change (range 0 DIRECT_BLOCKS) with [0; 1; 2; 3; 4; 5; 6; 7; 8; 9].
  cbn [pack_direct direct_blocks].
  change (len [z; z0; z1; z2; z3; z4; z5; z6; z7; z8]) with 10.
  cbn [Z.ltb Z.compare Pos.compare Pos.compare_cont].
  repeat match goal with
  | |- context [default ?d (?l !! ?k)] =>
      let v := eval cbv in (default d (l !! k)) in
      change (default d (l !! k)) with v
  end.
  rewrite !pack_h_ok by assumption. cbn [rbind ok app].
  set (name := ljust MAX_FILENAME (slice 0 MAX_FILENAME e)) in *.
  assert (Hn : len name = 20).
  { apply len_ljust. rewrite slice_0_ge; unfold MAX_FILENAME; lia. }
  rewrite <- !app_assoc. cbn [app].
  change (2 ^ 8) with 256 in *. change (2 ^ 16) with 65536 in *.
  change (2 ^ 24) with 16777216 in *.
  pose proof (unpack_pack_I sz Hsz) as HI.
  change (2 ^ 8) with 256 in HI. change (2 ^ 16) with 65536 in HI.
  change (2 ^ 24) with 16777216 in HI.
  repeat match goal with
  | H : - 2 ^ 15 <= ?v < 2 ^ 15 |- _ =>
      apply unpack_pack_h in H; change (2 ^ 8) with 256 in H
  end.
  repeat match goal with
  | |- context [?x `mod` 256] =>
      let v := fresh "byte" in
      generalize dependent (x `mod` 256); intros v
  end.
  match goal with
  | |- context [ljust 64 (i :: name ++ ?l)] =>
      replace (ljust 64 (i :: name ++ l)) with (i :: name ++ l ++ replicate 16 0)
  end.
  2:{ unfold ljust.
      match goal with
      | |- context [Z.to_nat ?k] => replace (Z.to_nat k) with 16%nat
      end.
      - cbn [app]. rewrite <- app_assoc. reflexivity.
      - unfold len in *. cbn [length]. rewrite length_app. cbn [length]. lia. }
  cbn [app replicate].
  match goal with
  | |- context [slice 0 64 ?l] => replace (slice 0 64 l) with l
  end.
  2:{ symmetry. apply slice_0_ge. unfold len. cbn [length]. rewrite length_app.
      unfold len in Hn. cbn [length]. lia. }
  eexists. split; [reflexivity|].
  clearbody name fl.
  assert (Hn' : length name = 20%nat) by (unfold len in Hn; lia).
  match goal with |- from_bytes (i :: name ++ ?l) _ = _ => set (tail := l) end.
  assert (Hslice : forall a b, 21 <= a ->
            slice a b (i :: name ++ tail) = slice (a - 21) (b - 21) tail).
  { intros a b Ha. change (i :: name ++ tail) with ((i :: name) ++ tail).
    rewrite slice_skip; unfold len; cbn [length]; rewrite Hn'; [|lia].
    do 2 f_equal; lia. }
  assert (Hget : getitem (i :: name ++ tail) 25 = ok fl).
  { unfold getitem. change (i :: name ++ tail) with ((i :: name) ++ tail).
    rewrite lookup_app_r; cbn [length]; rewrite Hn'; [|lia].
    reflexivity. }
  assert (Hnm : slice 1 21 (i :: name ++ tail) = name).
  { change (i :: name ++ tail) with ([i] ++ name ++ tail).
    rewrite slice_skip by (unfold len; cbn [length]; lia). change (1 - len [i]) with 0.
    change (21 - len [i]) with 20. rewrite <- Hn. apply slice_prefix. }
  unfold from_bytes.
  replace (len (i :: name ++ tail) <? 64) with false.
  2:{ symmetry. apply Z.ltb_ge. unfold len. cbn [length].
      rewrite length_app, Hn'. subst tail. cbn [length]. lia. }
  change (getitem (i :: name ++ tail) 0) with (ok i).
  rewrite Hnm, Hname, Hget. cbn [rbind ok unpack_direct Z.to_nat Pos.to_nat
    Pos.iter_op Nat.add DIRECT_BLOCKS].
  change (Z.to_nat DIRECT_BLOCKS) with 10%nat. cbn [unpack_direct].
  rewrite !Hslice by lia.
  subst tail.
  repeat match goal with
  | |- context [slice ?a ?b ?l] =>
      let v := eval vm_compute in (slice a b l) in
      change (slice a b l) with v
  end.
  rewrite HI. cbn [rbind ok].
  rewrite H, H1, H0, H2, H3, H4, H5, H6, H7, H8. cbn [rbind ok app].
  rewrite Hslice by lia.
  match goal with
  | |- context [slice ?a ?b ?l] =>
      let v := eval vm_compute in (slice a b l) in
      change (slice a b l) with v
  end.
  rewrite Hib. cbn [rbind ok].
  rewrite Hu, Hd, Hfp, Hfr.
  destruct (i =? slot) eqn:E; [apply Z.eqb_eq in E; subst i|]; reflexivity.
Qed.

End RecordReload.

(** * Metadata on the disk *)

Section Persistence.
Import FS VolumeSpec BitmapSpec AllocSpec CodecSpec PersistSpec INodeSpec DiskSpec.

Lemma rbind_ok {A B} (r : result A) (k : A -> result B) b :
  rbind r k = ok b -> exists a, r = ok a /\ k a = ok b.
Proof. destruct r as [a []|e []]; cbn; [eauto|discriminate]. Qed.

(** A packed inode fills exactly one block. *)
Lemma to_bytes_len n d : INodeCodec.to_bytes n = ok d -> len d = 64.
Proof.
  unfold INodeCodec.to_bytes. intros H.
  repeat (apply rbind_ok in H; destruct H as (? & _ & H); cbv beta zeta in H).
  injection H as <-. unfold slice, ljust, len.
  rewrite length_take, length_drop, length_app, length_replicate. lia.
Qed.

Lemma on_disk_read s bn :
  0 <= bn < 2 ^ 57 ->
  on_disk (VirtualDisk.read_block bn) s = Ret (default [] (disk s !! Z.to_nat bn)) s.
Proof.
  intros H. unfold on_disk, zoom. rewrite read_block_ok by assumption.
  rewrite set_disk_same. reflexivity.
Qed.

Lemma set_inodes_same s : set_inodes (inodes s) s = s.
Proof. destruct s. reflexivity. Qed.

Lemma load_inodes_loop l :
  forall s,
    Forall (fun i => 0 <= i < 2 ^ 56) l ->
    for_each l (fun i =>
      let block_idx := INODE_START + i in
      block_data <- on_disk (VirtualDisk.read_block block_idx) ;;
      let inode := INodeCodec.from_bytes block_data i in
      modify (fun self => set_inodes (inodes self ++ [inode]) self)) s
    = Ret tt
        (set_inodes
           (inodes s
            ++ map (fun i => INodeCodec.from_bytes
                               (default [] (disk s !! Z.to_nat (INODE_START + i))) i) l)
           s).
Proof.
  induction l as [|i l IH]; intros s Hl; cbn [for_each map].
  - rewrite app_nil_r, set_inodes_same. reflexivity.
  - apply list.Forall_cons in Hl. destruct Hl as [Hi Hl].
    cbv zeta. unfold bind at 1. unfold bind at 1.
    rewrite on_disk_read by (unfold INODE_START; lia). unfold modify.
    rewrite IH by assumption. fsimpl. rewrite <- app_assoc. reflexivity.
Qed.

Lemma load_inodes_exact s :
  _load_inodes s = Ret tt (set_inodes (loaded_inodes (disk s)) s).
Proof.
  unfold _load_inodes, bind, modify. rewrite load_inodes_loop.
  - fsimpl. reflexivity.
  - apply list.Forall_forall. intros i Hi. apply elem_of_range in Hi.
    unfold MAX_INODES in Hi. lia.
Qed.

Lemma set_disk_set_disk d1 d2 s : set_disk d1 (set_disk d2 s) = set_disk d1 s.
Proof. reflexivity. Qed.

Lemma save_inodes_loop E k :
  forall a s,
    (a + k <= 32)%nat ->
    forallb packable (inodes s) = true -> (35 <= length (disk s))%nat ->
    wp (for_each (range_from (Z.of_nat a) k) (fun i =>
          self <- get ;;
          match inodes self !! Z.to_nat i with
          | Some inode =>
              let block_idx := INODE_START + i in
              inode_bytes <- lift_result (INodeCodec.to_bytes inode) ;;
              on_disk (VirtualDisk.write_block block_idx inode_bytes)
          | None => ret tt
          end))
       (fun _ s' => exists d',
          s' = set_disk d' s /\ length d' = length (disk s)
          /\ (forall i n, (a <= i < a + k)%nat -> inodes s !! i = Some n ->
                          saved_as d' i n)
          /\ (forall j, ~ (3 + a <= j < 3 + a + k)%nat -> d' !! j = disk s !! j))
       E s.
Proof.
  induction k as [|k IH]; intros a s Hak Hpack Hlen; cbn [range_from for_each].
  - wp_step. exists (disk s). rewrite set_disk_same.
    split; [reflexivity|]. split; [reflexivity|]. split; [intros; lia|auto].
  - wp_step. wp_step. wp_step. rewrite Nat2Z.id.
    replace (Z.of_nat a + 1) with (Z.of_nat (S a)) by lia.
    destruct (inodes s !! a) as [n|] eqn:Hn.
    + destruct (packable_to_bytes n) as [bs Hbs].
      { rewrite forallb_forall in Hpack. apply Hpack.
        apply list_elem_of_In. eapply list_elem_of_lookup_2. eassumption. }
      cbv zeta. wp_step. wp_step. rewrite Hbs.
      apply wp_write_block; [unfold INODE_START; lia|].
      rewrite file_write_insert by (unfold INODE_START; lia).
      replace (Z.to_nat (INODE_START + Z.of_nat a)) with (3 + a)%nat
        by (unfold INODE_START; lia).
      fold (padded bs). rewrite padded_exact by (apply to_bytes_len in Hbs; exact Hbs).
      eapply wp_mono; [apply IH; fsimpl;
                       [lia|assumption|rewrite length_insert; assumption]| |auto].
      cbv beta. intros _ s' (d' & -> & Hl' & Hsaved & Hout). fsimpl.
      exists d'. split; [reflexivity|].
      split; [rewrite Hl', length_insert; reflexivity|]. split.
      * intros i m Hi Hm. destruct (decide (i = a)) as [->|Hne].
        -- exists bs. rewrite Hn in Hm. injection Hm as <-. split; [assumption|].
           rewrite Hout by lia. apply list_lookup_insert_eq. lia.
        -- apply Hsaved; [lia|assumption].
      * intros j Hj. rewrite Hout by lia. apply list_lookup_insert_ne. lia.
    + wp_step. eapply wp_mono; [apply IH; [lia|assumption|assumption]| |auto].
      cbv beta. intros _ s' (d' & -> & Hl' & Hsaved & Hout).
      exists d'. split; [reflexivity|]. split; [assumption|]. split.
      * intros i m Hi Hm. destruct (decide (i = a)) as [->|Hne]; [congruence|].
        apply Hsaved; [lia|assumption].
      * intros j Hj. apply Hout. lia.
Qed.

Lemma save_inodes_exact s E :
  forallb packable (inodes s) = true -> (35 <= length (disk s))%nat ->
  wp _save_inodes
     (fun _ s' => exists d',
        s' = set_disk d' s /\ length d' = length (disk s)
        /\ (forall i n, (i < 32)%nat -> inodes s !! i = Some n -> saved_as d' i n)
        /\ (forall j, (j < 3 \/ 35 <= j)%nat -> d' !! j = disk s !! j))
     E s.
Proof.
  intros Hp Hl. unfold _save_inodes, range, MAX_INODES.
  change (Z.to_nat (32 - 0)) with 32%nat.
  eapply wp_mono; [apply (save_inodes_loop E 32 0 s); [lia|assumption|assumption]| |auto].
  cbv beta. intros _ s' (d' & -> & Hl' & Hs & Ho). exists d'.
  split; [reflexivity|]. split; [assumption|]. split.
  - intros i n Hi. apply Hs. lia.
  - intros j Hj. apply Ho. lia.
Qed.

Lemma save_bitmap_exact s E (Q : unit -> FileSystem -> Prop) :
  (3 <= length (disk s))%nat ->
  Q tt (set_disk (<[2%nat := padded (slice 64 128 (bits (bitmap s)))]>
                    (<[1%nat := padded (slice 0 64 (bits (bitmap s)))]> (disk s))) s) ->
  wp _save_bitmap Q E s.
Proof.
  intros Hl HQ. unfold _save_bitmap. wp_step. wp_step.
  change (range 0 2) with [0; 1]. cbn [for_each].
  wp_step. apply wp_write_block; [unfold BITMAP_START; lia|].
  wp_step. apply wp_write_block; [unfold BITMAP_START; lia|].
  wp_step. fsimpl.
  rewrite (file_write_insert (disk s)) by (unfold BITMAP_START; lia).
  rewrite file_write_insert by (unfold BITMAP_START; rewrite ?length_insert; lia).
  exact HQ.
Qed.

Lemma save_superblock_exact s bs E (Q : unit -> FileSystem -> Prop) :
  SuperBlock_to_bytes (superblock s) = ok bs -> len bs = BLOCK_SIZE ->
  (1 <= length (disk s))%nat ->
  Q tt (set_disk (<[0%nat := bs]> (disk s)) s) -> wp save_superblock Q E s.
Proof.
  intros Hbs Hlen Hl HQ. unfold save_superblock. wp_step. wp_step. wp_step. wp_step.
  rewrite Hbs. apply wp_write_block; [unfold SUPERBLOCK_START; lia|].
  rewrite file_write_insert by (unfold SUPERBLOCK_START; lia).
  fold (padded bs). rewrite padded_exact by assumption. exact HQ.
Qed.

Lemma sound_fields s :
  sound s = true -> I_range (free_inodes (superblock s)) = true ->
  Forall uint32
    (sb_fields (sb_set_free_blocks (free_count (bitmap s)) (superblock s))).
Proof.
  unfold sound, sb_packable. intros H Hfi.
  apply andb_true_iff in H. destruct H as [H Hsb].
  apply andb_true_iff in H. destruct H as [_ Hbm].
  do 4 (apply andb_true_iff in Hsb; destruct Hsb as [Hsb ?]).
  pose proof (free_count_range _ Hbm).
  unfold sb_fields, sb_set_free_blocks, uint32.
  cbn [magic sb_total_blocks block_size free_blocks free_inodes inode_count data_start].
  repeat (apply List.Forall_cons; [apply I_range_spec; assumption|]).
  apply List.Forall_nil.
Qed.

(** What [save_metadata] leaves on the disk. *)
Lemma save_metadata_exact s E :
  sound s = true -> I_range (free_inodes (superblock s)) = true ->
  (35 <= length (disk s))%nat ->
  wp save_metadata
     (fun _ s' => exists d',
        let sb := sb_set_free_blocks (free_count (bitmap s)) (superblock s) in
        s' = set_disk d' (set_superblock sb s)
        /\ length d' = length (disk s)
        /\ holds_metadata d' sb (bitmap s) (inodes s)
        /\ (forall j, (35 <= j)%nat -> d' !! j = disk s !! j))
     E s.
Proof.
  intros Hsound Hfi Hlen. pose proof (sound_fields s Hsound Hfi) as Hfields.
  destruct (superblock_codec _ Hfields) as (bs & Hbs & Hbl & _).
  unfold sound in Hsound.
  apply andb_true_iff in Hsound. destruct Hsound as [H Hsb].
  apply andb_true_iff in H. destruct H as [Hin Hbm].
  unfold save_metadata. wp_step. wp_use save_inodes_exact; [assumption|assumption|].
  intros _ s1 (d1 & -> & Hl1 & Hsaved & Hout). wp_step.
  apply save_bitmap_exact; [fsimpl; lia|]. fsimpl. wp_step.
  eapply wp_on_bitmap_eq; [apply free_blocks_count_spec; exact Hbm|].
  wp_step. unfold update_superblock. wp_step. fsimpl.
  eapply save_superblock_exact; fsimpl.
  - exact Hbs.
  - exact Hbl.
  - rewrite !length_insert. lia.
  - eexists. cbv zeta. split; [destruct s; reflexivity|].
    split; [rewrite !length_insert; assumption|]. split.
    + split; [exists bs; split; [exact Hbs|apply list_lookup_insert_eq;
                                 rewrite !length_insert; lia]|].
      split; [rewrite list_lookup_insert_ne, list_lookup_insert_ne,
                list_lookup_insert_eq by (rewrite ?length_insert; lia); reflexivity|].
      split; [rewrite list_lookup_insert_ne, list_lookup_insert_eq
                by (rewrite ?length_insert; lia); reflexivity|].
      intros i n Hi Hn. destruct (Hsaved i n Hi Hn) as (b0 & Hb0 & Hd0).
      exists b0. split; [assumption|].
      rewrite !list_lookup_insert_ne by lia. assumption.
    + intros j Hj. rewrite !list_lookup_insert_ne by lia. apply Hout. lia.
Qed.

Lemma wp_read_block s bn (Q : list Z -> FileSystem -> Prop) E :
  0 <= bn < 2 ^ 57 -> Q (default [] (disk s !! Z.to_nat bn)) s ->
  wp (on_disk (VirtualDisk.read_block bn)) Q E s.
Proof. intros H HQ. unfold wp. rewrite on_disk_read by assumption. exact HQ. Qed.

(** [format_disk] overwrites every part of the state but the clock. *)
Lemma format_disk_any s : format_disk s = Ret tt (formatted (clock s)).
Proof. destruct s as [d sb bm ino c]. vm_compute. reflexivity. Qed.

Lemma take_two_blocks (l : list Z) :
  length l = 128%nat ->
  slice 0 128 (padded (slice 0 64 l) ++ padded (slice 64 128 l)) = l.
Proof.
  intros Hl.
  assert (H1 : slice 0 64 l = take 64 l) by reflexivity.
  assert (H2 : slice 64 128 l = drop 64 l).
  { unfold slice. change (Z.to_nat (128 - 64)) with 64%nat.
    change (Z.to_nat 64) with 64%nat. apply take_ge. rewrite length_drop. lia. }
  rewrite H1, H2.
  rewrite !padded_exact
    by (unfold len, BLOCK_SIZE; rewrite ?length_take, ?length_drop; lia).
  rewrite take_drop. apply slice_0_ge. unfold len. lia.
Qed.

Lemma bitmap_from_saved b :
  shaped b = true ->
  BitmapOps.from_bytes
    (padded (slice 0 64 (bits b)) ++ padded (slice 64 128 (bits b))) TOTAL_BLOCKS
  = ok b.
Proof.
  intros Hs. destruct (shaped_spec b Hs) as [Ht Hl].
  unfold BitmapOps.from_bytes. cbv zeta. unfold bind.
  remember (BitmapOps.init TOTAL_BLOCKS {| total_blocks := TOTAL_BLOCKS; bits := [] |})
    as r eqn:Hr.
  vm_compute in Hr. subst r. unfold modify. cbn [total_blocks bits].
  match goal with |- context [slice 0 (len ?l) _] => change (len l) with 128 end.
  rewrite take_two_blocks by assumption. unfold ok. f_equal.
  apply bitmap_eq; cbn [total_blocks bits]; congruence.
Qed.

Lemma lookup_map {A B} (f : A -> B) (l : list A) i : map f l !! i = f <$> l !! i.
Proof.
  revert i. induction l as [|x l IH]; intros [|i]; cbn; [reflexivity..|apply IH].
Qed.

Lemma loaded_reloaded d l :
  length l = 32%nat -> forallb fits_record l = true ->
  (forall i n, (i < 32)%nat -> l !! i = Some n -> saved_as d i n) ->
  loaded_inodes d = reloaded_table l.
Proof.
  intros Hlen Hfit Hsaved. apply list_eq. intros i.
  unfold loaded_inodes, reloaded_table. rewrite lookup_map, list_lookup_imap.
  unfold range, MAX_INODES. change (Z.to_nat (32 - 0)) with 32%nat.
  destruct (decide (i < 32)%nat) as [Hi|Hi].
  - rewrite lookup_range_from by assumption.
    destruct (lookup_lt_is_Some_2 l i) as [n Hn]; [lia|]. rewrite Hn.
    cbn [fmap option_fmap option_map]. rewrite Z.add_0_l. f_equal.
    destruct (Hsaved i n Hi Hn) as (bs & Hbs & Hd).
    replace (Z.to_nat (INODE_START + Z.of_nat i)) with (3 + i)%nat
      by (unfold INODE_START; lia).
    rewrite Hd. cbn [default].
    destruct (record_reload n (Z.of_nat i)) as (d0 & Hd0 & Hr).
    { rewrite forallb_forall in Hfit. apply Hfit.
      apply list_elem_of_In. eapply list_elem_of_lookup_2. eassumption. }
    rewrite Hbs in Hd0. injection Hd0 as <-. exact Hr.
  - rewrite (lookup_ge_None_2 (range_from 0 32)) by (rewrite length_range_from; lia).
    rewrite (lookup_ge_None_2 l) by lia. reflexivity.
Qed.

(** Mounting a disk whose metadata region holds a superblock with the
    right magic number, a bitmap and an inode table. *)
Lemma mount_of_metadata s0 sb b l :
  holds_metadata (disk s0) sb b l -> Forall uint32 (sb_fields sb) ->
  magic sb = MAGIC -> shaped b = true ->
  length l = 32%nat -> forallb fits_record l = true ->
  mount true s0
  = Ret true (set_inodes (reloaded_table l) (set_bitmap b (set_superblock sb s0))).
Proof.
  intros ((bs & Hbs & H0) & H1 & H2 & Hsaved) Hfields Hmagic Hshaped Hlen Hfit.
  destruct (superblock_codec _ Hfields) as (bs' & Hbs' & _ & Hfrom).
  rewrite Hbs in Hbs'. injection Hbs' as <-.
  unfold mount. cbn [negb]. unfold try_except.
  match goal with
  | |- match ?m s0 with _ => _ end = _ =>
      assert (Hwp : wp m
                (fun r s' => r = true
                   /\ s' = set_inodes (reloaded_table l)
                             (set_bitmap b (set_superblock sb s0)))
                (fun _ => False) s0)
  end.
  { wp_step. apply wp_read_block; [unfold SUPERBLOCK_START; lia|].
    change (Z.to_nat SUPERBLOCK_START) with 0%nat. rewrite H0. cbn [default]. unfold id.
    wp_step. wp_step. rewrite Hfrom. cbv [ok]. cbv iota.
    wp_step. wp_step. rewrite Hmagic.
    change (negb (MAGIC =? 1330857555)) with false. cbv iota.
    wp_step. change (range 0 2) with [0; 1]. cbn [read_bitmap_blocks].
    wp_step. apply wp_read_block; [unfold BITMAP_START; lia|]. fsimpl.
    change (Z.to_nat (BITMAP_START + 0)) with 1%nat. rewrite H1. cbn [default]. unfold id.
    wp_step. apply wp_read_block; [unfold BITMAP_START; lia|]. fsimpl.
    change (Z.to_nat (BITMAP_START + 1)) with 2%nat. rewrite H2. cbn [default]. unfold id. cbn [app].
    wp_step. wp_step. wp_step. rewrite bitmap_from_saved by assumption.
    cbv [ok]. cbv iota. wp_step. wp_step. wp_step.
    unfold wp at 1. rewrite load_inodes_exact. fsimpl.
    wp_step. eapply wp_on_bitmap_eq; [fsimpl; apply free_blocks_count_spec; exact Hshaped|].
    wp_step. split; [reflexivity|].
    rewrite (loaded_reloaded _ l) by assumption. reflexivity. }
  apply wp_returns in Hwp. destruct Hwp as (r & s' & Heq & -> & ->).
  rewrite Heq. reflexivity.
Qed.

(** X9: [format_disk] resets any volume: whatever the disk, the
    superblock, the bitmap and the inode table were, it returns and
    leaves the same empty volume (a disk of [TOTAL_BLOCKS] blocks, the
    default superblock, 989 free data blocks, 32 unused inodes), and
    [mount] of that volume succeeds and reads back exactly this
    state. *)
Theorem format_disk_resets (s : FileSystem) :
  exists s',
    format_disk s = Ret tt s'
    /\ s' = formatted (clock s)
    /\ well_formed (disk s') = true
    /\ superblock s' = SuperBlock_new
    /\ BitmapOps.free_blocks_count (bitmap s') = Ret 989 (bitmap s')
    /\ inodes s' = map INode_new (range 0 MAX_INODES)
    /\ mount true s' = Ret true s'.
Proof.
  exists (formatted (clock s)). split; [apply format_disk_any|].
  split; [reflexivity|]. destruct s as [d sb bm ino c].
  split; [vm_compute; reflexivity|]. split; [reflexivity|].
  split; [vm_compute; reflexivity|]. split; [vm_compute; reflexivity|].
  vm_compute. reflexivity.
Qed.

(** X10: what [save_metadata] writes is what [mount] reads.  After
    [save_metadata] on a sound volume whose inodes fit the record
    format, [mount] by any file system object over the resulting disk
    returns [True] and has the saved superblock, the same bitmap, and
    the same inode table up to the fields the record does not keep
    (times are reset, ids are the keys). *)
Theorem mount_restores_saved_volume (s : FileSystem) :
  sound s = true -> forallb fits_record (inodes s) = true ->
  I_range (free_inodes (superblock s)) = true ->
  magic (superblock s) = MAGIC ->
  length (inodes s) = 32%nat -> (35 <= length (disk s))%nat ->
  exists s1,
    save_metadata s = Ret tt s1
    /\ bitmap s1 = bitmap s /\ inodes s1 = inodes s
    /\ forall s0, disk s0 = disk s1 ->
         exists s2,
           mount true s0 = Ret true s2
           /\ disk s2 = disk s1
           /\ superblock s2 = superblock s1
           /\ bitmap s2 = bitmap s
           /\ inodes s2 = reloaded_table (inodes s)
           /\ clock s2 = clock s0.
Proof.
  intros Hsound Hfit Hfi Hmagic Hlen Hdisk.
  pose proof (sound_fields s Hsound Hfi) as Hfields.
  destruct (wp_returns save_metadata _ s
              (save_metadata_exact s (fun _ => False) Hsound Hfi Hdisk))
    as ([] & s1 & Hsave & d' & Hs1 & _ & Hmeta & _).
  cbv zeta in Hs1, Hmeta. exists s1. split; [exact Hsave|].
  split; [subst s1; reflexivity|]. split; [subst s1; reflexivity|].
  intros s0 Hd0. eexists. split.
  - apply (mount_of_metadata s0
             (sb_set_free_blocks (free_count (bitmap s)) (superblock s))
             (bitmap s) (inodes s)); try assumption.
    + rewrite Hd0. subst s1. exact Hmeta.
    + unfold sound in Hsound. apply andb_true_iff in Hsound.
      destruct Hsound as [Hsound _]. apply andb_true_iff in Hsound. tauto.
  - fsimpl. subst s1. fsimpl. auto.
Qed.

Lemma mount_restores_saved_volume_witness :
  let s := state_of (create_file [97] [1; 2; 3] 6 Scenario.fresh) in
  exists s1 s2,
    save_metadata s = Ret tt s1
    /\ mount true (set_disk (disk s1) (new 9)) = Ret true s2
    /\ superblock s2 = superblock s1
    /\ bitmap s2 = bitmap s
    /\ inodes s2 = reloaded_table (inodes s).
Proof.
  cbv zeta.
  destruct (mount_restores_saved_volume
              (state_of (create_file [97] [1; 2; 3] 6 Scenario.fresh)))
    as (s1 & Hsave & _ & _ & Hmount);
    [vm_compute; reflexivity..|vm_compute; lia|].
  destruct (Hmount (set_disk (disk s1) (new 9)) eq_refl)
    as (s2 & Hm & _ & Hsb & Hbm & Hin & _).
  exists s1, s2. auto.
Defined.

(** [is_free] reads the bitmap and never changes it. *)
Lemma is_free_outcome b i :
  (exists r, BitmapOps.is_free i b = Ret r b)
  \/ BitmapOps.is_free i b = Raise IndexError b.
Proof.
  unfold BitmapOps.is_free, BitmapOps.load_bits, getitem, bind, get, lift_result, ret.
  destruct ((0 <=? i) && (i <? total_blocks b)); [|left; eexists; reflexivity].
  destruct (bits b !! Z.to_nat (i / 8)); cbn; [left; eexists; reflexivity|right; reflexivity].
Qed.

(** Counting the free blocks of a bitmap with too few bytes raises
    [IndexError]. *)
Lemma count_free_short b l c i :
  i ∈ l -> 0 <= i < total_blocks b -> (length (bits b) <= Z.to_nat (i / 8))%nat ->
  BitmapOps.count_free l c b = Raise IndexError b.
Proof.
  intros Hin Hi Hshort. revert c.
  induction l as [|x l IH]; intros c; [apply elem_of_nil in Hin; contradiction|].
  cbn [BitmapOps.count_free]. unfold bind at 1.
  destruct (is_free_outcome b x) as [[r Hr]|Hr]; rewrite Hr; [|reflexivity].
  apply elem_of_cons in Hin. destruct Hin as [->|Hin]; [|apply IH; assumption].
  exfalso. revert Hr.
  unfold BitmapOps.is_free, BitmapOps.load_bits, getitem, bind, get, lift_result, ret.
  replace ((0 <=? x) && (x <? total_blocks b)) with true
    by (symmetry; apply andb_true_iff; rewrite Z.leb_le, Z.ltb_lt; lia).
  rewrite (lookup_ge_None_2 (bits b)) by assumption. discriminate.
Qed.

Lemma bitmap_from_short data :
  len data < 128 ->
  BitmapOps.from_bytes data TOTAL_BLOCKS
  = ok {| total_blocks := TOTAL_BLOCKS; bits := data |}.
Proof.
  intros Hs. unfold BitmapOps.from_bytes. cbv zeta. unfold bind.
  remember (BitmapOps.init TOTAL_BLOCKS {| total_blocks := TOTAL_BLOCKS; bits := [] |})
    as r eqn:Hr.
  vm_compute in Hr. subst r. unfold modify. cbn [total_blocks bits].
  match goal with |- context [slice 0 (len ?l) _] => change (len l) with 128 end.
  rewrite slice_0_ge by lia. reflexivity.
Qed.

(** X11: [mount] never raises.  Without a disk file it formats and
    returns [True]; over a disk whose first block is shorter than the
    28 bytes of a superblock (an empty file, for one) it returns
    [False] and changes nothing; over a disk whose superblock carries
    another magic number it formats, discarding whatever the disk
    held, and returns [True]; over a disk with the right magic number
    whose two bitmap blocks hold fewer than 128 bytes it returns
    [False] from the count of the free blocks, after it has replaced
    the superblock, the bitmap and the inode table by what it read. *)
Theorem mount_unusable_disk (s : FileSystem) :
  (forall disk_exists e s', mount disk_exists s <> Raise e s')
  /\ mount false s = Ret true (formatted (clock s))
  /\ (len (default [] (disk s !! 0%nat)) < 28 -> mount true s = Ret false s)
  /\ (forall sb,
        SuperBlock_from_bytes (default [] (disk s !! 0%nat)) = ok sb ->
        magic sb <> MAGIC ->
        mount true s = Ret true (formatted (clock s)))
  /\ (forall sb,
        SuperBlock_from_bytes (default [] (disk s !! 0%nat)) = ok sb ->
        magic sb = MAGIC ->
        len (default [] (disk s !! 1%nat) ++ default [] (disk s !! 2%nat)) < 128 ->
        mount true s
        = Ret false
            (set_inodes (loaded_inodes (disk s))
               (set_bitmap
                  {| total_blocks := TOTAL_BLOCKS;
                     bits := default [] (disk s !! 1%nat) ++ default [] (disk s !! 2%nat) |}
                  (set_superblock sb s)))).
Proof.
  assert (Hfalse : mount false s = Ret true (formatted (clock s))).
  { unfold mount. cbn [negb]. unfold bind. rewrite format_disk_any. reflexivity. }
  split; [|split; [exact Hfalse|split; [|split]]].
  - intros [] e s'.
    + unfold mount. cbn [negb]. unfold try_except.
      match goal with |- match ?m with _ => _ end <> _ => destruct m end; discriminate.
    + rewrite Hfalse. discriminate.
  - intros Hshort. unfold mount. cbn [negb]. unfold try_except, bind.
    rewrite on_disk_read by (unfold SUPERBLOCK_START; lia).
    change (Z.to_nat SUPERBLOCK_START) with 0%nat.
    unfold SuperBlock_from_bytes. rewrite unpack_n_short; [reflexivity|].
    unfold slice. rewrite length_take, length_drop. unfold len in Hshort. lia.
  - intros sb Hsb Hmagic. unfold mount. cbn [negb]. unfold try_except, bind.
    rewrite on_disk_read by (unfold SUPERBLOCK_START; lia).
    change (Z.to_nat SUPERBLOCK_START) with 0%nat. rewrite Hsb.
    unfold lift_result, ok, modify.
    replace (magic sb =? 1330857555) with false
      by (symmetry; apply Z.eqb_neq; exact Hmagic).
    cbn [negb]. rewrite format_disk_any. reflexivity.
  - intros sb Hsb Hmagic Hshort. unfold mount. cbn [negb]. unfold try_except.
    match goal with
    | |- match ?m s with _ => _ end = Ret false ?s1 =>
        assert (Hrun : m s = Raise IndexError s1); [|rewrite Hrun; reflexivity]
    end.
    unfold bind at 1. rewrite on_disk_read by (unfold SUPERBLOCK_START; lia).
    change (Z.to_nat SUPERBLOCK_START) with 0%nat. rewrite Hsb.
    unfold bind at 1, lift_result at 1, ok at 1.
    unfold bind at 1, modify at 1. rewrite Hmagic.
    change (negb (MAGIC =? 1330857555)) with false. cbv iota.
    change (range 0 2) with [0; 1]. cbn [read_bitmap_blocks].
    unfold bind at 1, bind at 1. rewrite on_disk_read by (unfold BITMAP_START; lia).
    unfold bind at 1. rewrite on_disk_read by (unfold BITMAP_START; lia).
    fsimpl. change (Z.to_nat (BITMAP_START + 0)) with 1%nat.
    change (Z.to_nat (BITMAP_START + 1)) with 2%nat. cbn [app]. unfold ret at 1.
    unfold bind at 1. rewrite bitmap_from_short by assumption.
    unfold lift_result at 1, ok at 1. unfold bind at 1, modify at 1.
    unfold bind at 1. rewrite load_inodes_exact. fsimpl.
    unfold on_bitmap, zoom, BitmapOps.free_blocks_count. unfold bind, get. fsimpl.
    rewrite (count_free_short _ _ _ 1023).
    + reflexivity.
    + apply elem_of_range. cbn. unfold DATA_START, TOTAL_BLOCKS. lia.
    + cbn. unfold TOTAL_BLOCKS. lia.
    + cbn [bits]. unfold len in Hshort. change (Z.to_nat (1023 / 8)) with 127%nat. lia.
Qed.

Lemma mount_unusable_disk_witness :
  mount true (new 0) = Ret false (new 0)
  /\ mount true (set_disk [replicate 64 0] (new 0)) = Ret true (formatted 0)
  /\ (exists s', mount true (set_disk (take 2 (disk (formatted 0))) (new 0)) = Ret false s'
                 /\ superblock s' = SuperBlock_new).
Proof.
  split; [|split].
  - apply (proj1 (proj2 (proj2 (mount_unusable_disk (new 0))))).
    unfold len. cbn. lia.
  - apply (proj1 (proj2 (proj2 (proj2
             (mount_unusable_disk (set_disk [replicate 64 0] (new 0))))))
             {| magic := 0; sb_total_blocks := 0; block_size := 0; free_blocks := 0;
                free_inodes := 0; inode_count := 0; data_start := 0 |}).
    + vm_compute. reflexivity.
    + unfold MAGIC. cbn. lia.
  - eexists. split.
    + apply (proj2 (proj2 (proj2 (proj2
               (mount_unusable_disk (set_disk (take 2 (disk (formatted 0))) (new 0))))))
               SuperBlock_new).
      * vm_compute. reflexivity.
      * reflexivity.
      * vm_compute. reflexivity.
    + reflexivity.
Defined.

End Persistence.

(** * Blocks taken and given back *)

Section TakenBlocks.
Import BitmapOps BitmapSpec AllocSpec.

Lemma mark_all_app l1 l2 b : mark_all (l1 ++ l2) b = mark_all l2 (mark_all l1 b).
Proof. apply foldl_app. Qed.

Lemma free_not_used b x : free b x = true -> used b x = false.
Proof.
  unfold free. intros H. apply andb_true_iff in H. destruct H as [_ H].
  destruct (used b x); [discriminate|reflexivity].
Qed.

Lemma takeable_perm b l l' : l ≡ₚ l' -> takeable b l -> takeable b l'.
Proof.
  intros Hp [Hnd Hall]. split; [rewrite <- Hp; assumption|].
  rewrite <- Hp. assumption.
Qed.

Lemma held_perm b l l' : l ≡ₚ l' -> held b l -> held b l'.
Proof.
  intros Hp [Hnd Hall]. split; [rewrite <- Hp; assumption|].
  rewrite <- Hp. assumption.
Qed.

Lemma takeable_app_inv b l1 l2 : takeable b (l1 ++ l2) -> takeable b l1 /\ takeable b l2.
Proof.
  intros [Hnd Hall]. apply list.NoDup_app in Hnd. destruct Hnd as (H1 & _ & H2).
  apply Forall_app in Hall. destruct Hall as [A1 A2]. repeat split; assumption.
Qed.

(** The blocks taken are used afterwards. *)
Lemma held_mark_all b l : shaped b = true -> takeable b l -> held (mark_all l b) l.
Proof.
  intros Hs Htk. pose proof (takeable_in_range _ _ Htk) as Hr.
  destruct Htk as [Hnd Hall]. split; [assumption|].
  rewrite list.Forall_forall in *. intros x Hx. destruct (Hall x Hx) as [Hd Hf].
  split; [assumption|].
  assert (Hfm : free (mark_all l b) x = false).
  { rewrite free_mark_all by (assumption || (apply list.Forall_forall; exact Hr)).
    rewrite Hf. cbn [andb]. apply bool_decide_eq_false. intros Hn. exact (Hn Hx). }
  assert (Hsm : shaped (mark_all l b) = true) by (apply shaped_mark_all; assumption).
  destruct (shaped_spec _ Hsm) as [Ht _].
  unfold free in Hfm. rewrite Ht in Hfm. specialize (Hr x Hx).
  replace (0 <=? x) with true in Hfm by (symmetry; apply Z.leb_le; lia).
  replace (x <? 1024) with true in Hfm by (symmetry; apply Z.ltb_lt; lia).
  cbn [andb] in Hfm. destruct (used (mark_all l b) x); [reflexivity|discriminate].
Qed.

(** Freeing the blocks taken, in any order, gives the bitmap back. *)
Lemma free_all_mark_all_perm l1 :
  forall l2 b, shaped b = true -> takeable b l2 -> l1 ≡ₚ l2 ->
               free_all l1 (mark_all l2 b) = b.
Proof.
  induction l1 as [|x l1 IH]; intros l2 b Hs Htk Hp.
  - apply Permutation_nil_l in Hp. subst l2. reflexivity.
  - assert (Hx : x ∈ l2) by (rewrite <- Hp; left).
    apply list_elem_of_split in Hx. destruct Hx as (a & c & ->).
    pose proof (takeable_in_range _ _ Htk) as Hr.
    apply Permutation_cons_app_inv in Hp.
    assert (Htk' : takeable b (a ++ c)).
    { destruct Htk as [Hnd Hall]. split.
      - apply list.NoDup_app in Hnd. destruct Hnd as (H1 & H2 & H3).
        apply list.NoDup_cons in H3. destruct H3 as [H3 H4].
        apply list.NoDup_app. split; [assumption|]. split; [|assumption].
        intros y Hy Hc. apply (H2 y Hy). right. assumption.
      - apply Forall_app in Hall. destruct Hall as [A1 A2].
        apply list.Forall_cons in A2. destruct A2 as [_ A2].
        apply Forall_app. split; assumption. }
    change (free_all (x :: l1) (mark_all (a ++ x :: c) b))
      with (free_all l1 (mark_free x (mark_all (a ++ x :: c) b))).
    rewrite mark_all_app.
    change (mark_all (x :: c) (mark_all a b)) with (mark_all c (mark_used x (mark_all a b))).
    destruct Htk as [Hnd Hall].
    apply list.NoDup_app in Hnd. destruct Hnd as (H1 & H2 & H3).
    apply list.NoDup_cons in H3. destruct H3 as [H3 H4].
    apply Forall_app in Hr. destruct Hr as [R1 R2].
    apply list.Forall_cons in R2. destruct R2 as [Rx R2].
    apply Forall_app in Hall. destruct Hall as [A1 A2].
    apply list.Forall_cons in A2. destruct A2 as [[_ Fx] _].
    rewrite mark_free_mark_all; [|lia|revert R2; apply Forall_impl; intros; lia|assumption].
    rewrite mark_free_mark_used; [|lia|].
    + rewrite <- mark_all_app. apply IH; assumption.
    + apply free_not_used. rewrite free_mark_all by assumption.
      rewrite Fx. cbn [andb]. apply bool_decide_eq_true.
      intros Hin. apply (H2 x Hin). left.
Qed.

End TakenBlocks.

(** * Creating a file of any size the index block can hold *)

Section CreateAnySize.
Import FS VolumeSpec BitmapSpec AllocSpec CreateSpec DeleteSpec LifeSpec.

Lemma gtb_true a b : b < a -> (a >? b) = true.
Proof. intros H. rewrite Z.gtb_ltb. apply Z.ltb_lt. assumption. Qed.

Lemma gtb_false a b : a <= b -> (a >? b) = false.
Proof. intros H. rewrite Z.gtb_ltb. apply Z.ltb_ge. assumption. Qed.

Lemma ltb_false a b : b <= a -> (a <? b) = false.
Proof. apply Z.ltb_ge. Qed.

(** The direct-only branch of the allocation. *)
Lemma create_allocate_small s i k E :
  shaped (bitmap s) = true -> 0 <= k <= DIRECT_BLOCKS + 1 ->
  k <= free_count (bitmap s) ->
  wp (create_allocate i k)
     (fun r s' => exists l,
        r = inr l /\ len l = k /\ takeable (bitmap s) l
        /\ s' = set_inodes
                  (alter (with_direct_blocks
                            (l ++ replicate (Z.to_nat (DIRECT_BLOCKS - k)) (-1))) i
                     (inodes s))
                  (set_bitmap (mark_all l (bitmap s)) s))
     E s.
Proof.
  intros Hs Hk Hc. unfold create_allocate.
  rewrite gtb_false by lia.
  destruct (allocate_blocks_spec (bitmap s) k Hs) as (l & Hl & Hlen & Htk); [lia|].
  wp_step. eapply wp_on_bitmap_eq; [exact Hl|]. rewrite Hlen.
  rewrite ltb_false by lia.
  unfold update_inode. repeat wp_step. fsimpl.
  exists l. split; [reflexivity|]. split; [assumption|]. split; [assumption|].
  reflexivity.
Qed.

Lemma assign_prefix_empty k ex :
  k = len ex ->
  IndexBlock.assign_prefix k ex IndexBlock.empty
  = ex ++ replicate (16 - length ex) (-1).
Proof.
  intros ->. unfold IndexBlock.assign_prefix, IndexBlock.empty, len.
  rewrite Nat2Z.id, drop_replicate. reflexivity.
Qed.

(** The branch with an index block. *)
Lemma create_allocate_large s i n E :
  shaped (bitmap s) = true -> DIRECT_BLOCKS + 1 < n <= DIRECT_BLOCKS + 1 + 16 ->
  n <= free_count (bitmap s) ->
  wp (create_allocate i n)
     (fun r s' => exists l ib ex idx,
        r = inr (l ++ ex) /\ len l = DIRECT_BLOCKS /\ len ex = n - DIRECT_BLOCKS - 1
        /\ takeable (bitmap s) (l ++ ib :: ex)
        /\ IndexBlock.from_bytes idx = ok (ex ++ replicate (16 - length ex) (-1))
        /\ len idx = BLOCK_SIZE
        /\ s' = set_disk (VirtualDisk.file_write (disk s) (ib * BLOCK_SIZE) idx)
                  (set_inodes
                     (alter (with_indirect_block ib) i
                        (alter (with_direct_blocks l) i (inodes s)))
                     (set_bitmap (mark_all (l ++ ib :: ex) (bitmap s)) s)))
     E s.
Proof.
  unfold DIRECT_BLOCKS. intros Hs Hn Hc. unfold create_allocate, DIRECT_BLOCKS.
  rewrite gtb_true by lia.
  destruct (allocate_blocks_spec (bitmap s) 10 Hs) as (l & Hl & Hlen & Htk); [lia|].
  wp_step. eapply wp_on_bitmap_eq; [exact Hl|]. rewrite Hlen.
  change (10 <? 10) with false. cbv iota.
  set (b1 := mark_all l (bitmap s)).
  assert (Hs1 : shaped b1 = true) by (apply shaped_mark_all; assumption).
  assert (Hc1 : free_count b1 = free_count (bitmap s) - 10).
  { unfold b1. rewrite free_count_mark_all by assumption. lia. }
  destruct (allocate_block_spec b1 Hs1) as (ib & Hib & Hdib & Hfib); [lia|].
  wp_step. eapply wp_on_bitmap_eq; [fsimpl; exact Hib|].
  assert (Hib1 : (ib =? -1) = false).
  { apply Z.eqb_neq. unfold in_data, DATA_START in Hdib. lia. }
  rewrite Hib1. fsimpl.
  set (b2 := mark_used ib b1).
  assert (Hs2 : shaped b2 = true) by (apply shaped_mark_used; assumption).
  assert (Hc2 : free_count b2 = free_count (bitmap s) - 11).
  { unfold b2. rewrite free_count_mark_used by (assumption || apply Hdib). lia. }
  destruct (allocate_blocks_spec b2 (n - 10 - 1) Hs2) as (ex & Hex & Hlenx & Htkx); [lia|].
  wp_step. eapply wp_on_bitmap_eq; [fsimpl; exact Hex|]. rewrite Hlenx.
  rewrite ltb_false by lia. fsimpl.
  assert (Htk' : takeable (bitmap s) (l ++ ib :: ex)).
  { apply takeable_app; [assumption|assumption|].
    apply takeable_cons; assumption. }
  pose proof (takeable_range _ _ Htk') as Hrange.
  assert (Hxl : (length ex <= 16)%nat) by (unfold len in Hlenx; lia).
  assert (Hvs : Forall (fun v => - 2 ^ 31 <= v < 2 ^ 31)
                  (ex ++ replicate (16 - length ex) (-1))).
  { change (2 ^ 31) with 2147483648. apply Forall_app. split.
    - apply Forall_app in Hrange. destruct Hrange as [_ H2].
      apply list.Forall_cons in H2. destruct H2 as [_ H2].
      revert H2. apply Forall_impl. intros; lia.
    - apply Forall_replicate. lia. }
  destruct (index_block_roundtrip (ex ++ replicate (16 - length ex) (-1))) as
    (idx & Hidx & Hpad & Hback); [rewrite length_app, length_replicate; lia|exact Hvs|].
  unfold update_inode. wp_step. wp_step. wp_step. wp_step. wp_step.
  rewrite (assign_prefix_empty _ ex) by (symmetry; exact Hlenx).
  rewrite Hidx. wp_step. cbv [ok]. cbv iota. wp_step.
  apply wp_write_block.
  { unfold in_data, DATA_START, TOTAL_BLOCKS in Hdib.
    change (2 ^ 57) with 144115188075855872. lia. }
  wp_step. fsimpl. rewrite Hpad.
  exists l, ib, ex, idx. split; [reflexivity|]. split; [assumption|].
  split; [lia|]. split; [assumption|]. split; [assumption|]. split.
  { rewrite <- Hpad. apply len_ljust. unfold len, slice, BLOCK_SIZE.
    rewrite length_take. lia. }
  unfold mark_all. rewrite foldl_app. reflexivity.
Qed.

Lemma blocks_for_bounds content :
  1 <= blocks_for content /\ len content <= blocks_for content * BLOCK_SIZE.
Proof.
  unfold blocks_for, BLOCK_SIZE. cbv zeta.
  assert (0 <= len content) by (unfold len; lia).
  destruct (Z.eqb_spec ((len content + 64 - 1) / 64) 0) as [E|E].
  - split; [lia|]. apply Z.div_small_iff in E; lia.
  - pose proof (Z.div_pos (len content + 64 - 1) 64 ltac:(lia) ltac:(lia)).
    split; [lia|].
    pose proof (Z.mul_div_le (len content + 64 - 1) 64 ltac:(lia)).
    pose proof (Z.mod_pos_bound (len content + 64 - 1) 64 ltac:(lia)).
    pose proof (Z.div_mod (len content + 64 - 1) 64 ltac:(lia)). lia.
Qed.

Lemma forallb_h_range_any l :
  Forall (fun x => -1 <= x < 1024) l -> forallb h_range l = true.
Proof.
  intros H. apply forallb_forall. intros x Hx. apply list_elem_of_In in Hx.
  rewrite list.Forall_forall in H. specialize (H x Hx).
  unfold h_range. change (2 ^ 15) with 32768.
  apply andb_true_iff. rewrite Z.leb_le, Z.ltb_lt. lia.
Qed.

Lemma packable_created_any i t n0 name size perm direct indirect e :
  (i < 32)%nat -> Utf8.encode (take (Z.to_nat MAX_FILENAME) name) = ok e ->
  0 <= size < 2 ^ 32 -> Forall (fun x => -1 <= x < 1024) direct ->
  -1 <= indirect < 1024 ->
  packable (created i t n0 name size perm direct indirect) = true.
Proof.
  intros Hi He Hsize Hd Hind. unfold packable, created.
  cbn [inode_id filename file_size direct_blocks indirect_block].
  rewrite He, (forallb_h_range_any direct Hd). unfold I_range, h_range.
  change (2 ^ 15) with 32768. change (2 ^ 32) with 4294967296 in *.
  cbv [ok]. cbv iota.
  rewrite !andb_true_iff, !Z.leb_le, !Z.ltb_lt. repeat split; (reflexivity || lia).
Qed.

Lemma filter_unset (l : list Z) k :
  Forall (fun x => 0 <= x) l ->
  filter (fun b => b >= 0) (l ++ replicate k (-1)) = l.
Proof.
  intros H. rewrite list.filter_app, (filter_set_all l H).
  replace (filter (fun b => b >= 0) (replicate k (-1))) with (@nil Z);
    [apply app_nil_r|].
  induction k as [|k IH]; [reflexivity|]. cbn [replicate]. rewrite filter_cons.
  destruct (decide (-1 >= 0)); [lia|exact IH].
Qed.

(** What a successful [create_file] leaves: the inode, the bitmap with
    the blocks [taken], and a disk on which the inode owns exactly
    these blocks. *)
Lemma create_file_any s name content perm i n0 :
  accepts s name i n0 ->
  blocks_for content <= DIRECT_BLOCKS + 16 ->
  needed content <= free_count (bitmap s) ->
  exists s' taken direct indirect blocks,
    let n := created i (clock s) n0 name (len content) perm direct indirect in
    create_file name content perm s
    = Ret (true, MsgCreated name (blocks_for content)) s'
    /\ takeable (bitmap s) taken /\ len taken = needed content
    /\ inodes s' = <[i := n]> (inodes s)
    /\ bitmap s' = mark_all taken (bitmap s)
    /\ superblock s'
       = sb_set_free_blocks (free_count (bitmap s'))
           (sb_add_free_inodes (-1) (superblock s))
    /\ owned n (disk s') = ok blocks /\ blocks ≡ₚ taken
    /\ packable n = true.
Proof.
  intros (Hsound & Hfree & Hnew & Hfind & Hi & Hind & e & He) Hk Hspace.
  assert (Hsound' := Hsound). unfold sound in Hsound'.
  apply andb_true_iff in Hsound'. destruct Hsound' as [Hsound' Hsb].
  apply andb_true_iff in Hsound'. destruct Hsound' as [Hpack Hshape].
  assert (Hfi : I_range (free_inodes (superblock s) + -1) = true).
  { unfold I_range. change (2 ^ 32) with 4294967296 in *.
    apply andb_true_iff. rewrite Z.leb_le, Z.ltb_lt. lia. }
  pose proof Hfind as Hn0. apply list_find_Some in Hn0. destruct Hn0 as (Hn0 & _).
  assert (Hilen : (i < length (inodes s))%nat) by (eapply lookup_lt_Some; eassumption).
  destruct (blocks_for_bounds content) as [Hk1 Hlen].
  assert (Hsize : 0 <= len content < 2 ^ 32).
  { unfold DIRECT_BLOCKS, BLOCK_SIZE in *. change (2 ^ 32) with 4294967296.
    unfold len in *. lia. }
  unfold needed in Hspace. cbv zeta in Hspace.
  assert (Hwp : wp (create_file name content perm)
            (fun r s' => exists taken direct indirect blocks,
               r = (true, MsgCreated name (blocks_for content))
               /\ takeable (bitmap s) taken /\ len taken = needed content
               /\ inodes s'
                  = <[i := created i (clock s) n0 name (len content) perm direct indirect]>
                      (inodes s)
               /\ bitmap s' = mark_all taken (bitmap s)
               /\ superblock s'
                  = sb_set_free_blocks (free_count (bitmap s'))
                      (sb_add_free_inodes (-1) (superblock s))
               /\ owned (created i (clock s) n0 name (len content) perm direct indirect)
                    (disk s') = ok blocks
               /\ blocks ≡ₚ taken
               /\ packable (created i (clock s) n0 name (len content) perm direct indirect)
                  = true)
            (fun _ => False) s).
  { unfold create_file. wp_step. wp_step. rewrite Hnew.
    wp_step. wp_use allocate_inode_spec; [exact Hfind|exact Hi|].
    intros r s1 (-> & ->). unfold needed. cbv zeta.
    destruct (Z.gtb_spec (blocks_for content) DIRECT_BLOCKS) as [Hbig|Hsmall].
    - (* an index block is needed *)
      wp_step. wp_use create_allocate_large; fsimpl;
        [assumption|unfold DIRECT_BLOCKS in *; lia|assumption|].
      intros r s2 (l & ib & ex & idx & -> & Hl & Hex & Htk & Hback & Hidxlen & ->). fsimpl.
      pose proof (takeable_range _ _ Htk) as Hrange.
      assert (Hib : 35 <= ib < 1024).
      { rewrite list.Forall_forall in Hrange. apply Hrange.
        rewrite elem_of_app. right. left. }
      assert (Hrl : Forall (fun x => 35 <= x < 1024) (l ++ ex)).
      { apply Forall_app in Hrange. destruct Hrange as [H1 H2].
        apply list.Forall_cons in H2. destruct H2 as [_ H2].
        apply Forall_app. split; assumption. }
      assert (Hnotin : ib ∉ l ++ ex).
      { destruct Htk as [Hnd _]. apply list.NoDup_app in Hnd.
        destruct Hnd as (_ & Hdisj & Hnd2). apply list.NoDup_cons in Hnd2.
        destruct Hnd2 as [Hibx _]. rewrite elem_of_app. intros [Hin|Hin].
        - apply (Hdisj ib Hin). left.
        - apply Hibx. assumption. }
      assert (Hpk : packable (created i (clock s) n0 name (len content) perm l ib) = true).
      { apply (packable_created_any i _ _ name _ perm l ib e); try assumption; try lia.
        apply Forall_app in Hrl. destruct Hrl as [H1 _].
        revert H1. apply Forall_impl. intros; lia. }
      rewrite list_alter_alter_eq, alter_insert_same.
      wp_use create_finish; fsimpl.
      + apply shaped_mark_all. assumption.
      + assumption.
      + assumption.
      + rewrite alter_insert_same. apply forallb_insert; [assumption|].
        destruct n0. exact Hpk.
      + revert Hrl. apply Forall_impl. intros y Hy.
        change (2 ^ 57) with 144115188075855872. lia.
      + intros r s3 (-> & d' & -> & Hkeep). fsimpl.
        exists (l ++ ib :: ex), l, ib, (l ++ ex ++ [ib]).
        split.
        { rewrite len_app, Hl, Hex. do 3 f_equal. unfold DIRECT_BLOCKS. lia. }
        split; [assumption|]. split.
        { rewrite len_app, Hl. unfold len in *. cbn [length].
          unfold DIRECT_BLOCKS in *. lia. }
        split; [rewrite alter_insert_same; destruct n0; reflexivity|].
        split; [reflexivity|]. split; [reflexivity|]. split; [|split; [|exact Hpk]].
        * unfold owned, created. cbn [direct_blocks indirect_block].
          replace (ib >=? 0) with true by (symmetry; rewrite Z.geb_leb; apply Z.leb_le; lia).
          rewrite file_read_block by lia.
          rewrite (Hkeep (Z.to_nat ib) idx); [| lia | | |exact Hidxlen].
          -- cbn [default]. unfold id. rewrite Hback. cbv [ok rbind].
             rewrite filter_unset, filter_set_all.
             ++ reflexivity.
             ++ apply Forall_app in Hrl. destruct Hrl as [H1 _].
                revert H1. apply Forall_impl. intros; lia.
             ++ apply Forall_app in Hrl. destruct Hrl as [_ H2].
                revert H2. apply Forall_impl. intros; lia.
          -- rewrite Z2Nat.id by lia. assumption.
          -- apply file_write_read. lia.
        * apply Permutation_app_head. symmetry. apply Permutation_cons_append.
    - (* direct blocks only *)
      wp_step. wp_use create_allocate_small; fsimpl;
        [assumption|unfold DIRECT_BLOCKS in *; lia|assumption|].
      intros r s2 (l & -> & Hl & Htk & ->). fsimpl.
      pose proof (takeable_range _ _ Htk) as Hrange.
      assert (Hdirect : Forall (fun x => -1 <= x < 1024)
                          (l ++ replicate (Z.to_nat (DIRECT_BLOCKS - blocks_for content)) (-1))).
      { apply Forall_app. split.
        - revert Hrange. apply Forall_impl. intros; lia.
        - apply Forall_replicate. lia. }
      assert (Hpk : packable (created i (clock s) n0 name (len content) perm
                       (l ++ replicate (Z.to_nat (DIRECT_BLOCKS - blocks_for content)) (-1))
                       (-1)) = true).
      { apply (packable_created_any i _ _ name _ perm _ (-1) e); try assumption; lia. }
      rewrite alter_insert_same.
      wp_use create_finish; fsimpl.
      + apply shaped_mark_all. assumption.
      + assumption.
      + assumption.
      + rewrite alter_insert_same. apply forallb_insert; [assumption|].
        destruct n0. cbn in Hind. subst. exact Hpk.
      + revert Hrange. apply Forall_impl. intros x Hx.
        change (2 ^ 57) with 144115188075855872. lia.
      + intros r s3 (-> & d' & -> & _). fsimpl.
        exists l, (l ++ replicate (Z.to_nat (DIRECT_BLOCKS - blocks_for content)) (-1)),
          (-1), l.
        rewrite Hl. split; [reflexivity|]. split; [assumption|].
        split; [reflexivity|].
        split; [rewrite alter_insert_same; destruct n0; cbn in Hind; subst; reflexivity|].
        split; [reflexivity|]. split; [reflexivity|]. split; [|split; [reflexivity|exact Hpk]].
        unfold owned, created. cbn [direct_blocks indirect_block].
        change (-1 >=? 0) with false. cbv iota. rewrite filter_unset; [reflexivity|].
        revert Hrange. apply Forall_impl. intros; lia. }
  apply wp_returns in Hwp.
  destruct Hwp as (r & s' & Hrun & taken & direct & indirect & blocks & -> & H).
  exists s', taken, direct, indirect, blocks. cbv zeta. split; [exact Hrun|exact H].
Qed.

End CreateAnySize.

(** * The life of a file: created, acquired, deleted *)

Section Lifecycle.
Import FS VolumeSpec BitmapSpec AllocSpec CreateSpec DeleteSpec LifeSpec.

Lemma list_find_insert_fresh {A} (p : A -> bool) (l : list A) i x :
  existsb p l = false -> p x = true -> (i < length l)%nat ->
  list_find (fun y => p y = true) (<[i := x]> l) = Some (i, x).
Proof.
  intros Hnone Hx Hi. apply list_find_Some. split; [|split].
  - apply list_lookup_insert_eq. assumption.
  - assumption.
  - intros j y Hj Hlt Hy. rewrite list_lookup_insert_ne in Hj by lia.
    assert (Hex : existsb p l = true); [|congruence].
    apply existsb_exists. exists y. split; [|assumption].
    apply list_elem_of_In. eapply list_elem_of_lookup_2. eassumption.
Qed.

Lemma existsb_insert_none {A} (p : A -> bool) (l : list A) i x :
  existsb p l = false -> p x = false -> existsb p (<[i := x]> l) = false.
Proof.
  intros Hnone Hx. destruct (existsb p (<[i := x]> l)) eqn:E; [|reflexivity].
  apply existsb_exists in E. destruct E as (y & Hy & Hpy).
  apply list_elem_of_In, list_elem_of_lookup in Hy. destruct Hy as [j Hj].
  destruct (decide (j = i)) as [->|Hne].
  - destruct (decide (i < length l)%nat) as [Hlt|Hge].
    + rewrite list_lookup_insert_eq in Hj by assumption. congruence.
    + apply lookup_lt_Some in Hj. rewrite length_insert in Hj. lia.
  - rewrite list_lookup_insert_ne in Hj by congruence.
    assert (Hex : existsb p l = true); [|congruence].
    apply existsb_exists. exists y. split; [|assumption].
    apply list_elem_of_In. eapply list_elem_of_lookup_2. eassumption.
Qed.

Lemma acquire_spec name s i n E :
  forallb packable (inodes s) = true ->
  list_find (fun inode => name_matches name inode = true) (inodes s) = Some (i, n) ->
  wp (acquire_file name)
     (fun r s' => r = true /\ exists d',
        s' = set_disk d'
               (set_inodes (alter (with_ref_count (ref_count n + 1)) i (inodes s)) s)
        /\ above 35 (disk s) d')
     E s.
Proof.
  intros Hpack Hfind. pose proof Hfind as Hi. apply list_find_Some in Hi.
  destruct Hi as (Hi & _).
  unfold acquire_file. wp_step. eapply find_inode_spec; [exact Hfind|].
  wp_step. eapply wp_inode_at; [exact Hi|].
  unfold update_inode. wp_step. wp_step. wp_step.
  wp_use save_inodes_spec.
  - fsimpl. apply forallb_alter; [assumption|]. intros []. auto.
  - intros _ s1 (d1 & -> & Hab). wp_step. split; [reflexivity|]. eauto.
Qed.

(** X12: a file that [create_file] made owns exactly the blocks that
    were taken for it.  On a volume that accepts the file, with a name
    of at most [MAX_FILENAME] characters, content of at most 26 blocks
    and enough free blocks, [create_file] succeeds; the file is found
    under its name with the size and permission given and no reference;
    the blocks its inode records (direct entries, entries of the index
    block on the disk, the index block) are the blocks needed, each one
    a free data block before and used now, every other block as free as
    before; [list_directory] counts them; and the volume can be saved
    again.  After [acquire_file] the file has one reference and still
    owns the same blocks. *)
Theorem create_file_owns_its_blocks (s : FileSystem) (name content : list Z) (perm : Z)
    (i : nat) (n0 : INode) :
  accepts s name i n0 ->
  (length name <= Z.to_nat MAX_FILENAME)%nat ->
  blocks_for content <= DIRECT_BLOCKS + 16 ->
  needed content <= free_count (bitmap s) ->
  exists s1 n blocks,
    create_file name content perm s
    = Ret (true, MsgCreated name (blocks_for content)) s1
    /\ list_find (fun inode => name_matches name inode = true) (inodes s1) = Some (i, n)
    /\ file_size n = len content /\ permission n = perm /\ ref_count n = 0
    /\ owned n (disk s1) = ok blocks /\ len blocks = needed content
    /\ takeable (bitmap s) blocks /\ held (bitmap s1) blocks
    /\ (forall x, x ∉ blocks -> free (bitmap s1) x = free (bitmap s) x)
    /\ free_count (bitmap s1) = free_count (bitmap s) - needed content
    /\ allocated_blocks n s1 = Ret (needed content) s1
    /\ sound s1 = true
    /\ free_inodes (superblock s1) = free_inodes (superblock s) - 1
    /\ exists s2 n',
         acquire_file name s1 = Ret true s2
         /\ list_find (fun inode => name_matches name inode = true) (inodes s2)
            = Some (i, n')
         /\ ref_count n' = 1
         /\ owned n' (disk s2) = ok blocks /\ held (bitmap s2) blocks
         /\ sound s2 = true.
Proof.
  intros Hacc Hname Hk Hspace.
  destruct (create_file_any s name content perm i n0 Hacc Hk Hspace)
    as (s1 & taken & direct & indirect & blocks & Hrun & Htk & Hlen & Hin & Hbm & Hsb
        & Hown & Hperm & Hpk).
  cbv zeta in *.
  destruct Hacc as (Hsound & Hfree & Hnew & Hfind & Hi & Hind & e & He).
  unfold sound in Hsound.
  apply andb_true_iff in Hsound. destruct Hsound as [Hsound Hsbp].
  apply andb_true_iff in Hsound. destruct Hsound as [Hpack Hshape].
  pose proof Hfind as Hn0. apply list_find_Some in Hn0. destruct Hn0 as (Hn0 & _).
  assert (Hilen : (i < length (inodes s))%nat) by (eapply lookup_lt_Some; eassumption).
  set (n := created i (clock s) n0 name (len content) perm direct indirect) in *.
  assert (Htkb : takeable (bitmap s) blocks)
    by (apply (takeable_perm _ taken); [symmetry|]; assumption).
  assert (Hheld : held (bitmap s1) blocks).
  { rewrite Hbm. apply (held_perm _ taken); [symmetry; assumption|].
    apply held_mark_all; assumption. }
  assert (Hlenb : len blocks = needed content).
  { rewrite <- Hlen. unfold len. rewrite Hperm. reflexivity. }
  assert (Hfound : list_find (fun inode => name_matches name inode = true) (inodes s1)
                   = Some (i, n)).
  { rewrite Hin. apply list_find_insert_fresh; [assumption| |assumption].
    unfold name_matches, n, created. cbn [is_used filename andb].
    apply bool_decide_eq_true. apply take_ge. assumption. }
  assert (Hpack1 : forallb packable (inodes s1) = true).
  { rewrite Hin. apply forallb_insert; assumption. }
  assert (Hsound1 : sound s1 = true).
  { unfold sound. rewrite Hpack1, Hbm, shaped_mark_all by assumption.
    rewrite Hsb. exact Hsbp. }
  exists s1, n, blocks. split; [exact Hrun|]. split; [exact Hfound|].
  split; [reflexivity|]. split; [reflexivity|]. split; [reflexivity|].
  split; [exact Hown|]. split; [exact Hlenb|]. split; [exact Htkb|].
  split; [exact Hheld|]. split.
  { intros x Hx. rewrite Hbm, free_mark_all
      by (assumption || apply (takeable_in_range _ _ Htk)).
    replace (bool_decide (x ∉ taken)) with true; [apply andb_true_r|].
    symmetry. apply bool_decide_eq_true. rewrite <- Hperm. assumption. }
  split; [rewrite Hbm, free_count_mark_all by assumption; lia|].
  split.
  { rewrite <- Hlenb. apply owned_count; [assumption|]. apply (held_range _ _ Hheld). }
  split; [exact Hsound1|]. split; [rewrite Hsb; cbn; lia|].
  destruct (wp_returns _ _ _ (acquire_spec name s1 i n (fun _ => False) Hpack1 Hfound))
    as (r & s2 & Hacq & -> & d2 & -> & Hab).
  exists (set_disk d2 (set_inodes (alter (with_ref_count (ref_count n + 1)) i (inodes s1)) s1)),
    (with_ref_count (ref_count n + 1) n).
  split; [exact Hacq|]. fsimpl. split.
  { apply (list_find_alter (fun inode => name_matches name inode = true));
      [intros []; reflexivity|exact Hfound]. }
  split; [reflexivity|]. split.
  { apply (owned_above n _ (disk s1)); try assumption; try reflexivity.
    apply (held_range _ _ Hheld). }
  split; [exact Hheld|].
  unfold sound. fsimpl. unfold sound in Hsound1.
  apply andb_true_iff in Hsound1. destruct Hsound1 as [Hs1 Hs2].
  apply andb_true_iff in Hs1. destruct Hs1 as [_ Hs3].
  rewrite Hs2, Hs3, andb_true_r, andb_true_r.
  apply forallb_alter; [assumption|]. intros []. auto.
Qed.

Lemma create_file_owns_its_blocks_witness :
  exists s1 n blocks,
    create_file [97] (replicate 700 7) 6 Scenario.fresh
    = Ret (true, MsgCreated [97] 11) s1
    /\ list_find (fun inode => name_matches [97] inode = true) (inodes s1) = Some (0%nat, n)
    /\ owned n (disk s1) = ok blocks /\ len blocks = 12
    /\ held (bitmap s1) blocks.
Proof.
  destruct (create_file_owns_its_blocks Scenario.fresh [97] (replicate 700 7) 6 0
              (INode_new 0))
    as (s1 & n & blocks & Hrun & Hfound & _ & _ & _ & Hown & Hlen & _ & Hheld & _).
  - apply (fresh_accepts [97] [97]). reflexivity.
  - unfold MAX_FILENAME. cbn [length]. lia.
  - apply Z.leb_le. vm_compute. reflexivity.
  - apply Z.leb_le. vm_compute. reflexivity.
  - exists s1, n, blocks. split; [exact Hrun|]. split; [exact Hfound|].
    split; [exact Hown|]. split; [exact Hlen|]. exact Hheld.
Defined.

(** X13: deleting a file right after it was created gives everything
    back.  Under the conditions of a successful [create_file] (and a
    free-inode counter below 2^32), [delete_file] of the new file
    succeeds; the bitmap is again the one before the create, so every
    block taken is free again and no other block changed; the
    free-inode counter is back and the saved free-block counter is the
    count of the bitmap; every other inode is as it was, the inode used
    is unused again, and the name is free for a new file. *)
Theorem create_then_delete_restores (s : FileSystem) (name content : list Z) (perm : Z)
    (i : nat) (n0 : INode) :
  accepts s name i n0 ->
  (length name <= Z.to_nat MAX_FILENAME)%nat ->
  blocks_for content <= DIRECT_BLOCKS + 16 ->
  needed content <= free_count (bitmap s) ->
  free_inodes (superblock s) < 2 ^ 32 ->
  exists s1 s2 n,
    create_file name content perm s
    = Ret (true, MsgCreated name (blocks_for content)) s1
    /\ delete_file name s1 = Ret (true, MsgDeleted name) s2
    /\ bitmap s2 = bitmap s
    /\ free_inodes (superblock s2) = free_inodes (superblock s)
    /\ free_blocks (superblock s2) = free_count (bitmap s)
    /\ inodes s2 = <[i := n]> (inodes s)
    /\ is_used n = false /\ filename n = [] /\ file_size n = 0
    /\ direct_blocks n = replicate (Z.to_nat DIRECT_BLOCKS) (-1)
    /\ indirect_block n = -1
    /\ existsb (name_matches name) (inodes s2) = false.
Proof.
  intros Hacc Hname Hk Hspace Hfi.
  destruct (create_file_any s name content perm i n0 Hacc Hk Hspace)
    as (s1 & taken & direct & indirect & blocks & Hrun & Htk & Hlen & Hin & Hbm & Hsb
        & Hown & Hperm & Hpk).
  cbv zeta in *.
  destruct Hacc as (Hsound & Hfree & Hnew & Hfind & Hi & Hind & e & He).
  unfold sound in Hsound.
  apply andb_true_iff in Hsound. destruct Hsound as [Hsound Hsbp].
  apply andb_true_iff in Hsound. destruct Hsound as [Hpack Hshape].
  pose proof Hfind as Hn0. apply list_find_Some in Hn0. destruct Hn0 as (Hn0 & _).
  assert (Hilen : (i < length (inodes s))%nat) by (eapply lookup_lt_Some; eassumption).
  set (n := created i (clock s) n0 name (len content) perm direct indirect) in *.
  assert (Hheld : held (bitmap s1) blocks).
  { rewrite Hbm. apply (held_perm _ taken); [symmetry; assumption|].
    apply held_mark_all; assumption. }
  assert (Hfound : list_find (fun inode => name_matches name inode = true) (inodes s1)
                   = Some (i, n)).
  { rewrite Hin. apply list_find_insert_fresh; [assumption| |assumption].
    unfold name_matches, n, created. cbn [is_used filename andb].
    apply bool_decide_eq_true. apply take_ge. assumption. }
  assert (Hsound1 : sound s1 = true).
  { unfold sound. rewrite Hin, Hbm, shaped_mark_all by assumption.
    rewrite forallb_insert by assumption. rewrite Hsb. exact Hsbp. }
  assert (Hfi1 : I_range (free_inodes (superblock s1) + 1) = true).
  { rewrite Hsb. unfold I_range. cbn [free_inodes sb_set_free_blocks sb_add_free_inodes].
    apply andb_true_iff. rewrite Z.leb_le, Z.ltb_lt. lia. }
  destruct (wp_returns _ _ _
              (delete_spec name s1 i n blocks (fun _ => False) Hsound1 Hfi1 Hfound
                 ltac:(cbn; lia) Hown Hheld))
    as (r & s2 & Hdel & -> & d2 & ->).
  assert (Hback : free_all blocks (bitmap s1) = bitmap s).
  { rewrite Hbm. apply free_all_mark_all_perm; assumption. }
  eexists s1, _, (reset n). split; [exact Hrun|]. split; [exact Hdel|]. fsimpl.
  split; [exact Hback|]. split; [rewrite Hsb; cbn; lia|].
  split; [rewrite Hback; reflexivity|]. split.
  { rewrite Hin. apply alter_insert_same. }
  split; [reflexivity|]. split; [reflexivity|]. split; [reflexivity|].
  split; [reflexivity|]. split; [reflexivity|].
  rewrite Hin, alter_insert_same. apply existsb_insert_none; [assumption|reflexivity].
Qed.

Lemma create_then_delete_restores_witness :
  exists s1 s2,
    create_file [97] (replicate 700 7) 6 Scenario.fresh
    = Ret (true, MsgCreated [97] 11) s1
    /\ delete_file [97] s1 = Ret (true, MsgDeleted [97]) s2
    /\ bitmap s2 = bitmap Scenario.fresh
    /\ free_inodes (superblock s2) = 32.
Proof.
  destruct (create_then_delete_restores Scenario.fresh [97] (replicate 700 7) 6 0
              (INode_new 0))
    as (s1 & s2 & n & Hrun & Hdel & Hbm & Hfi & _).
  - apply (fresh_accepts [97] [97]). reflexivity.
  - unfold MAX_FILENAME. cbn [length]. lia.
  - apply Z.leb_le. vm_compute. reflexivity.
  - apply Z.leb_le. vm_compute. reflexivity.
  - apply Z.ltb_lt. vm_compute. reflexivity.
  - exists s1, s2. split; [exact Hrun|]. split; [exact Hdel|]. split; [exact Hbm|].
    exact Hfi.
Defined.

End Lifecycle.
